(** * De Anza course planner: time parsing, conflict detection, name matching,
      listing extraction, fetching and rating resolution.

    A shallow embedding of [models.py] and [scraper_module.py], followed by
    the properties of the specification that concern them.

    Conventions of the embedding.
    - A Python [str] is a [string] over the code points 0 to 255. Whitespace
      ([strip], [split], [\s]), word characters ([\w], [\b]), digits,
      [isupper] and [lower] follow Python on all of them. [upper] follows
      Python on every character whose upper-case form is one character of
      this range; the three others (U+00B5, U+00DF and U+00FF, whose
      upper-case forms are U+039C, the two letters SS and U+0178) are left
      as they are.
    - A regular expression is a term of [Re.regex], run by a backtracking
      matcher that tries the alternatives in the order of Python's [re].
    - A Python [dict] with a fixed set of keys is a [Record]; a value that may
      be [None] is an [option]; the truth value of a string is [Str.truthy].
    - A Python [set] of strings is a [gset]. The order in which the
      interpreter iterates over such a set depends on the hash seed of the
      process: it is a parameter of the functions that turn a set into a
      list.
    - The HTML parse tree and the HTTP client are outside the program: a row,
      a cell, a result card or a page is the record of what the program reads
      from it; the client is the sequence of its answers; the requests and
      sleeps of the fetcher are recorded in a trace.
    - [float(text)], the HTML parser, [re.compile] on a pattern given by the
      caller and the interpreter's limit on the digits [int] reads are
      parameters of the sections that use them. *)

From Stdlib Require Import ZArith NArith Ascii String List Lia Bool.
From stdpp Require Import base tactics option list sorting gmap strings.

Local Open Scope string_scope.
Local Open Scope list_scope.
Local Open Scope nat_scope.

(** ** Python string primitives *)

Module Str.

Definition code (c : ascii) : N := N_of_ascii c.

Definition between (lo hi c : ascii) : bool :=
  ((code lo <=? code c) && (code c <=? code hi))%N.

Definition in_codes (lo hi : N) (c : ascii) : bool :=
  ((lo <=? code c) && (code c <=? hi))%N.

(** The ranges [A-Z], [a-z] and [0-9] of a pattern. *)
Definition is_AZ (c : ascii) : bool := between "A" "Z" c.
Definition is_az (c : ascii) : bool := between "a" "z" c.
(** [\d], which is [0-9] on these code points. *)
Definition is_digit (c : ascii) : bool := between "0" "9" c.

(** [str.isupper] on one character: A to Z, U+00C0 to U+00D6 and U+00D8 to
    U+00DE. These are the characters [lower] changes. *)
Definition is_upper (c : ascii) : bool :=
  is_AZ c || in_codes 192 214 c || in_codes 216 222 c.

(** The characters [upper] changes within the range: a to z, U+00E0 to
    U+00F6 and U+00F8 to U+00FE. *)
Definition is_lower (c : ascii) : bool :=
  is_az c || in_codes 224 246 c || in_codes 248 254 c.

(** [str.isspace] on one character, which is also [\s]: TAB, LF, VT, FF,
    CR, FS, GS, RS, US, the space, NEL (U+0085) and the no-break space
    (U+00A0). *)
Definition is_space (c : ascii) : bool :=
  in_codes 9 13 c || in_codes 28 32 c || in_codes 133 133 c || in_codes 160 160 c.

(** A word character of [\b] and [\w]: the underscore and what
    [str.isalnum] takes, which above U+007F is U+00AA, U+00B2, U+00B3,
    U+00B5, U+00B9, U+00BA, U+00BC to U+00BE, U+00C0 to U+00D6, U+00D8 to
    U+00F6 and U+00F8 to U+00FF. *)
Definition is_word (c : ascii) : bool :=
  is_AZ c || is_az c || is_digit c || Ascii.eqb c "_" ||
  in_codes 170 170 c || in_codes 178 179 c || in_codes 181 181 c ||
  in_codes 185 186 c || in_codes 188 190 c || in_codes 192 214 c ||
  in_codes 216 246 c || in_codes 248 255 c.

Definition lower_char (c : ascii) : ascii :=
  if is_upper c then ascii_of_N (code c + 32) else c.

Definition upper_char (c : ascii) : ascii :=
  if is_lower c then ascii_of_N (code c - 32) else c.

Fixpoint map_chars (f : ascii → ascii) (s : string) : string :=
  match s with
  | EmptyString => EmptyString
  | String c s' => String (f c) (map_chars f s')
  end.

(** [s.lower()] and [s.upper()]. *)
Definition lower : string → string := map_chars lower_char.
Definition upper : string → string := map_chars upper_char.

Fixpoint chars (s : string) : list ascii :=
  match s with
  | EmptyString => []
  | String c s' => c :: chars s'
  end.

Fixpoint of_chars (l : list ascii) : string :=
  match l with
  | [] => EmptyString
  | c :: l' => String c (of_chars l')
  end.

Fixpoint lstrip (s : string) : string :=
  match s with
  | String c s' => if is_space c then lstrip s' else s
  | EmptyString => EmptyString
  end.

(** [rstrip] keeps a character when it is not whitespace or when something
    is kept after it. *)
Fixpoint rstrip (s : string) : string :=
  match s with
  | EmptyString => EmptyString
  | String c s' =>
      match rstrip s' with
      | EmptyString => if is_space c then EmptyString else String c EmptyString
      | t => String c t
      end
  end.

(** [s.strip()]. *)
Definition strip (s : string) : string := rstrip (lstrip s).

(** [s.replace(c, by)] for a one-character needle. *)
Fixpoint replace_char (c : ascii) (by_ : string) (s : string) : string :=
  match s with
  | EmptyString => EmptyString
  | String d s' =>
      if Ascii.eqb d c then by_ +:+ replace_char c by_ s'
      else String d (replace_char c by_ s')
  end.

(** [s.split()]: the maximal runs of non-whitespace characters. [cur] is the
    run being read, last character first. *)
Fixpoint split_go (cur : list ascii) (s : string) : list string :=
  match s with
  | EmptyString =>
      match cur with [] => [] | _ => [of_chars (rev cur)] end
  | String c s' =>
      if is_space c then
        match cur with
        | [] => split_go [] s'
        | _ => of_chars (rev cur) :: split_go [] s'
        end
      else split_go (c :: cur) s'
  end.

Definition split (s : string) : list string := split_go [] s.

(** [sep.join(parts)]. *)
Fixpoint join (sep : string) (parts : list string) : string :=
  match parts with
  | [] => EmptyString
  | [p] => p
  | p :: rest => p +:+ sep +:+ join sep rest
  end.

Fixpoint starts_with (p s : string) : bool :=
  match p, s with
  | EmptyString, _ => true
  | String a p', String b s' => Ascii.eqb a b && starts_with p' s'
  | String _ _, EmptyString => false
  end.

(** [needle in s]. *)
Fixpoint contains (needle s : string) : bool :=
  starts_with needle s ||
  match s with
  | EmptyString => false
  | String _ s' => contains needle s'
  end.

(** Truth value of a string: non-empty. *)
Definition truthy (s : string) : bool :=
  match s with EmptyString => false | _ => true end.

Definition mem_char (c : ascii) (s : string) : bool :=
  existsb (Ascii.eqb c) (chars s).

(** [int(s)] for a string of decimal digits. *)
Definition digit_val (c : ascii) : Z := Z.of_N (code c - 48).

Definition int_of_digits (s : string) : Z :=
  fold_left (λ acc c, 10 * acc + digit_val c)%Z (chars s) 0%Z.

End Str.

(** ** Regular expressions

    The patterns of the program, with the matching order of Python's [re]:
    leftmost start, alternatives left to right, greedy repetition tried
    longest first, backtracking into earlier choices on failure. Repetition is
    only ever applied to a character class in this program, so [Rep] takes a
    class. *)

Module Re.

Definition cls := ascii → bool.

Definition one (a : ascii) : cls := Ascii.eqb a.
Definition any_of (s : string) : cls := λ c, Str.mem_char c s.
Definition none_of (s : string) : cls := λ c, negb (Str.mem_char c s).
Definition range (lo hi : ascii) : cls := Str.between lo hi.
Definition union (p q : cls) : cls := λ c, p c || q c.
Definition compl (p : cls) : cls := λ c, negb (p c).
(** [\d], [\s], and [.] (anything but a line feed). *)
Definition digit : cls := Str.is_digit.
Definition space : cls := Str.is_space.
Definition dot : cls := λ c, negb (Ascii.eqb c "010").
(** A class under [re.I]. *)
Definition ci (p : cls) : cls := λ c, p (Str.lower_char c) || p (Str.upper_char c).

Inductive regex : Type :=
| Eps
| Chr (p : cls)
| Rep (p : cls) (lo : nat) (hi : option nat) (greedy : bool)
| Cat (r1 r2 : regex)
| Alt (r1 r2 : regex)
| Opt (r : regex)
| Grp (r : regex)
| Bol
| Eol
| Wordb.

Declare Scope re_scope.
Delimit Scope re_scope with re.
Bind Scope re_scope with regex.
Infix "·" := Cat (at level 41, right associativity) : re_scope.
Infix "</>" := Alt (at level 42, right associativity) : re_scope.

(** [p*], [p+], [p{n}], [p{m,n}], [p?] and the lazy [p*?]. *)
Definition star (p : cls) : regex := Rep p 0 None true.
Definition plus (p : cls) : regex := Rep p 1 None true.
Definition exactly (n : nat) (p : cls) : regex := Rep p n (Some n) true.
Definition upto (lo hi : nat) (p : cls) : regex := Rep p lo (Some hi) true.
Definition maybe (p : cls) : regex := Rep p 0 (Some 1) true.
Definition lazy_star (p : cls) : regex := Rep p 0 None false.

(** A literal string, under [re.I] when [fold] is set. *)
Fixpoint lit (fold : bool) (s : string) : regex :=
  match s with
  | EmptyString => Eps
  | String c s' => Cat (Chr (if fold then ci (one c) else one c)) (lit fold s')
  end.

Definition orelse {A} (x y : option A) : option A :=
  match x with Some _ => x | None => y end.

(** The text consumed between the input [s] and a later rest [s']. *)
Definition consumed (s s' : string) : string :=
  String.substring 0 (String.length s - String.length s') s.

Definition word_before (prev : option ascii) : bool :=
  match prev with Some c => Str.is_word c | None => false end.

Definition word_after (s : string) : bool :=
  match s with String c _ => Str.is_word c | EmptyString => false end.

Section Run.
Context {A : Type}.

(** Repetition of a class, between [lo] and [hi] times. [prev] is the
    character before the current position. *)
Fixpoint rep (p : cls) (lo : nat) (hi : option nat) (greedy : bool)
    (prev : option ascii) (s : string)
    (k : option ascii → string → option A) {struct s} : option A :=
  let stop := match lo with 0 => k prev s | S _ => None end in
  let more :=
    match s with
    | String c s' =>
        match hi with
        | Some 0 => None
        | _ => if p c then rep p (pred lo) (pred <$> hi) greedy (Some c) s' k
               else None
        end
    | EmptyString => None
    end in
  if greedy then orelse more stop else orelse stop more.

Fixpoint run (r : regex) (prev : option ascii) (s : string)
    (caps : list string)
    (k : option ascii → string → list string → option A) : option A :=
  match r with
  | Eps => k prev s caps
  | Chr p =>
      match s with
      | String c s' => if p c then k (Some c) s' caps else None
      | EmptyString => None
      end
  | Rep p lo hi greedy => rep p lo hi greedy prev s (λ prev' s', k prev' s' caps)
  | Cat r1 r2 => run r1 prev s caps (λ prev' s' caps', run r2 prev' s' caps' k)
  | Alt r1 r2 => orelse (run r1 prev s caps k) (run r2 prev s caps k)
  | Opt r1 => orelse (run r1 prev s caps k) (k prev s caps)
  | Grp r1 =>
      run r1 prev s caps (λ prev' s' caps', k prev' s' (caps' ++ [consumed s s']))
  | Bol => match prev with None => k prev s caps | Some _ => None end
  | Eol =>
      match s with
      | EmptyString | String "010" EmptyString => k prev s caps
      | _ => None
      end
  | Wordb =>
      if xorb (word_before prev) (word_after s) then k prev s caps else None
  end.
End Run.

(** A match: the whole matched text, the groups [1..], and what follows. *)
Record found := { whole : string; groups : list string; rest : string }.

Definition group (n : nat) (m : found) : string :=
  match n with
  | 0 => whole m
  | S i => default EmptyString (groups m !! i)
  end.

Definition match_at (r : regex) (prev : option ascii) (s : string) : option found :=
  run r prev s [] (λ _ s' caps,
    Some {| whole := consumed s s'; groups := caps; rest := s' |}).

(** [re.match(r, s)]. *)
Definition match_ (r : regex) (s : string) : option found := match_at r None s.

(** [re.search(r, s)]: the match at the leftmost position that has one. *)
Fixpoint search_from (r : regex) (prev : option ascii) (s : string) : option found :=
  match match_at r prev s with
  | Some m => Some m
  | None =>
      match s with
      | EmptyString => None
      | String c s' => search_from r (Some c) s'
      end
  end.

Definition search (r : regex) (s : string) : option found := search_from r None s.

(** Scanning for the successive non-overlapping matches. [skip] counts the
    characters of the last match still to be passed over. None of the
    patterns scanned for in this program matches the empty string; an empty
    match is passed over like a failure to match. *)
Fixpoint sub_go (r : regex) (repl : found → string) (prev : option ascii)
    (s : string) (skip : nat) : string :=
  match s with
  | EmptyString => EmptyString
  | String c s' =>
      match skip with
      | S n => sub_go r repl (Some c) s' n
      | 0 =>
          match match_at r prev s with
          | Some m =>
              match String.length (whole m) with
              | 0 => String c (sub_go r repl (Some c) s' 0)
              | S n => repl m +:+ sub_go r repl (Some c) s' n
              end
          | None => String c (sub_go r repl (Some c) s' 0)
          end
      end
  end.

(** [re.sub(r, repl, s)]. *)
Definition sub (r : regex) (repl : found → string) (s : string) : string :=
  sub_go r repl None s 0.

Fixpoint findall_go (r : regex) (prev : option ascii) (s : string) (skip : nat)
    : list string :=
  match s with
  | EmptyString => []
  | String c s' =>
      match skip with
      | S n => findall_go r (Some c) s' n
      | 0 =>
          match match_at r prev s with
          | Some m =>
              match String.length (whole m) with
              | 0 => findall_go r (Some c) s' 0
              | S n => whole m :: findall_go r (Some c) s' n
              end
          | None => findall_go r (Some c) s' 0
          end
      end
  end.

(** [re.findall(r, s)] for a pattern without groups. *)
Definition findall (r : regex) (s : string) : list string := findall_go r None s 0.

End Re.

(** ** Python built-ins *)

Module Py.

(** [enumerate(l, start)]. *)
Fixpoint enumerate {A} (start : nat) (l : list A) : list (nat * A) :=
  match l with
  | [] => []
  | x :: l' => (start, x) :: enumerate (S start) l'
  end.

(** Truth value of an optional string: neither [None] nor empty. *)
Definition truthy (o : option string) : bool :=
  match o with Some s => Str.truthy s | None => false end.

(** [o or d] for an optional string. *)
Definition or_else (o : option string) (d : string) : string :=
  match o with
  | Some s => if Str.truthy s then s else d
  | None => d
  end.

(** [int(digits)] for a string of decimal digits. The interpreter refuses
    to read an integer of more than [sys.get_int_max_str_digits()] digits:
    4300 unless it is configured otherwise, 0 for no limit; strings of up to
    640 digits are never refused. [None] stands for the [ValueError]. *)
Definition int_ (int_max_str_digits : nat) (digits : string) : option Z :=
  let n := String.length digits in
  if (640 <? n) && (0 <? int_max_str_digits) && (int_max_str_digits <? n)
  then None
  else Some (Str.int_of_digits digits).

(** The double quote character. *)
Definition QUOTE : ascii := ascii_of_nat 34.

(** [html.escape(s)], with [quote=True]: the five replacements, in its
    order. *)
Definition html_escape (s : string) : string :=
  let s := Str.replace_char "&" "&amp;" s in
  let s := Str.replace_char "<" "&lt;" s in
  let s := Str.replace_char ">" "&gt;" s in
  let s := Str.replace_char QUOTE "&quot;" s in
  let s := Str.replace_char "'" "&#x27;" s in
  s.

End Py.

Import Re Py.

(** ** models.py *)

Module Models.

(** [DAY_MAP]: weekday letter to weekday name. *)
Definition DAY_MAP : gmap ascii string :=
  list_to_map
    [("M"%char, "Monday"); ("T"%char, "Tuesday"); ("W"%char, "Wednesday");
     ("R"%char, "Thursday"); ("F"%char, "Friday"); ("S"%char, "Saturday");
     ("U"%char, "Sunday")].

(** The dictionary returned by [parse_class_time]. *)
Record TimeData := {
  days : list ascii;
  day_names : list string;
  start_time : string;
  end_time : string;
  start_minutes : Z;
  end_minutes : Z;
  duration_minutes : Z
}.

(** [^([MTWRFSU\s]+)] *)
Definition DAYS_RE : regex :=
  (Bol · Grp (plus (union (any_of "MTWRFSU") space)))%re.

(** [\d{1,2}:\d{2}\s*[AP]M] under [re.I]. *)
Definition CLOCK_RE : regex :=
  (upto 1 2 digit · Chr (one ":") · exactly 2 digit · star space ·
   Chr (ci (any_of "AP")) · Chr (ci (one "M")))%re.

(** [(\d{1,2}:\d{2}\s*[AP]M)\s*-\s*(\d{1,2}:\d{2}\s*[AP]M)] under [re.I]. *)
Definition TIME_RE : regex :=
  (Grp CLOCK_RE · star space · Chr (one "-") · star space · Grp CLOCK_RE)%re.

(** The pattern that [datetime.strptime] builds for the format
    ['%I:%M %p']: [%I] is [1[0-2]|0[1-9]|[1-9]], [%M] is [[0-5]\d|\d], the
    blank of the format is [\s+], [%p] is [am|pm]; case is ignored. *)
Definition STRPTIME_RE : regex :=
  (Grp ((Chr (one "1") · Chr (range "0" "2")) </>
        (Chr (one "0") · Chr (range "1" "9")) </>
        Chr (range "1" "9")) ·
   Chr (one ":") ·
   Grp ((Chr (range "0" "5") · Chr digit) </> Chr digit) ·
   plus space ·
   Grp (lit true "am" </> lit true "pm"))%re.

(** [datetime.strptime(s, '%I:%M %p')], as the pair (hour, minute); [None]
    stands for the [ValueError] raised when the string does not match the
    format or data remains after the match. *)
Definition strptime (s : string) : option (Z * Z) :=
  match Re.match_ STRPTIME_RE s with
  | None => None
  | Some m =>
      if Str.truthy (rest m) then None
      else
        let hour := Str.int_of_digits (group 1 m) in
        let minute := Str.int_of_digits (group 2 m) in
        let hour :=
          if String.eqb (Str.lower (group 3 m)) "am"
          then (if hour =? 12 then 0 else hour)%Z
          else (if hour =? 12 then hour else hour + 12)%Z in
        Some (hour, minute)
  end.

Definition parse_class_time (class_time_str : string) : option TimeData :=
  if negb (Str.truthy class_time_str) || String.eqb class_time_str "TBA" then None
  else
    match Re.match_ DAYS_RE class_time_str with
    | None => None
    | Some days_match =>
        let days :=
          filter (λ d, is_Some (DAY_MAP !! d))
                 (Str.chars (Str.strip (group 1 days_match))) in
        match days with
        | [] => None
        | _ =>
            match Re.search TIME_RE class_time_str with
            | None => None
            | Some time_match =>
                let start_str := Str.strip (group 1 time_match) in
                let end_str := Str.strip (group 2 time_match) in
                match strptime start_str, strptime end_str with
                | Some (sh, sm), Some (eh, em) =>
                    let start_minutes := (sh * 60 + sm)%Z in
                    let end_minutes := (eh * 60 + em)%Z in
                    Some {| days := days;
                            day_names := (λ d, default "" (DAY_MAP !! d)) <$> days;
                            start_time := start_str;
                            end_time := end_str;
                            start_minutes := start_minutes;
                            end_minutes := end_minutes;
                            duration_minutes := (end_minutes - start_minutes)%Z |}
                | _, _ => None
                end
            end
        end
    end.

(** A course dictionary as [detect_conflicts] reads it: [.get] gives [None]
    for a missing key. *)
Record Course := {
  crn : option string;
  course : option string;
  professor : option string;
  time_data : option TimeData
}.

Record CourseRef := {
  ref_crn : option string;
  ref_course : option string;
  ref_professor : option string
}.

Record Conflict := {
  course1 : CourseRef;
  course2 : CourseRef;
  conflicting_days : list ascii;
  time1 : string;
  time2 : string
}.

(** [set(time1['days']) & set(time2['days'])]. *)
Definition shared_days (time1 time2 : TimeData) : gset ascii :=
  list_to_set (days time1) ∩ list_to_set (days time2).

Definition course_ref (c : Course) : CourseRef :=
  {| ref_crn := crn c; ref_course := course c; ref_professor := professor c |}.

(** The test of the two nested [if]s. *)
Definition overlaps (time1 time2 : TimeData) : bool :=
  bool_decide (shared_days time1 time2 ≠ ∅) &&
  bool_decide (start_minutes time1 < end_minutes time2)%Z &&
  bool_decide (end_minutes time1 > start_minutes time2)%Z.

Section DetectConflicts.
(** [list(set(days1) & set(days2))] as a function of the two day lists: the
    shared days in the order in which the interpreter iterates over the
    set. The hash of a string depends on the seed of the process, and so
    does this order: it is the same for every call within one process and
    may differ from one process to the next. *)
Variable list_shared : list ascii → list ascii → list ascii.

(** The dictionary appended to [conflicts]. *)
Definition conflict_of (course1 : Course) (time1 : TimeData)
    (course2 : Course) (time2 : TimeData) : Conflict :=
  {| course1 := course_ref course1;
     course2 := course_ref course2;
     conflicting_days := list_shared (days time1) (days time2);
     time1 := start_time time1 +:+ " - " +:+ end_time time1;
     time2 := start_time time2 +:+ " - " +:+ end_time time2 |}.

(** The two loops of [detect_conflicts]; every appended record is paired
    with the loop indices [(i, j)] at which it is appended. *)
Definition detect_conflicts_indexed (courses : list Course)
    : list (nat * nat * Conflict) :=
  '(i, course1) ← enumerate 0 courses;
  match time_data course1 with
  | None => []
  | Some time1 =>
      '(j, course2) ← enumerate (i + 1) (drop (i + 1) courses);
      match time_data course2 with
      | None => []
      | Some time2 =>
          if overlaps time1 time2
          then [(i, j, conflict_of course1 time1 course2 time2)]
          else []
      end
  end.

Definition detect_conflicts (courses : list Course) : list Conflict :=
  snd <$> detect_conflicts_indexed courses.
End DetectConflicts.

(** *** CourseManager *)

(** The data file [selected_courses.json]: absent, not readable as JSON, or
    a JSON object with its [last_updated] and, if it has the key, its list
    of [courses]. *)
Inductive DataFile : Type :=
| Absent
| Unreadable
| Stored (last_updated : string) (courses : option (list Course)).

Definition load_courses (data_file : DataFile) : list Course :=
  match data_file with
  | Absent => []
  | Unreadable => []
  | Stored _ courses => default [] courses
  end.

(** [now] is [datetime.now().isoformat()]. [writable] tells whether the file
    can be opened for writing; when it cannot, the [IOError] is caught and
    the file is left as it was. *)
Definition save_courses (now : string) (writable : bool) (courses : list Course)
    (data_file : DataFile) : DataFile :=
  if writable then Stored now (Some courses) else data_file.

Definition get_courses (data_file : DataFile) : list Course :=
  load_courses data_file.

Definition add_course (now : string) (writable : bool) (course : Course)
    (data_file : DataFile) : DataFile :=
  let courses := load_courses data_file in
  let crn := Models.crn course in
  let courses :=
    if truthy crn
    then filter (λ c, Models.crn c ≠ crn) courses
    else courses in
  save_courses now writable (courses ++ [course]) data_file.

Definition remove_course (now : string) (writable : bool) (crn : string)
    (data_file : DataFile) : DataFile :=
  let courses := load_courses data_file in
  let courses := filter (λ c, Models.crn c ≠ Some crn) courses in
  save_courses now writable courses data_file.

Definition clear_courses (now : string) (writable : bool) (data_file : DataFile)
    : DataFile :=
  save_courses now writable [] data_file.

(** *** PlannedClassesDB *)

(** A row of the table [planned_classes]. *)
Record PlannedClass := {
  class_id : Z;
  class_name : string;
  notes : option string;
  created_at : string;
  updated_at : string
}.

(** The database: the rows of the table in rowid order, and the largest
    rowid the table ever held, which [AUTOINCREMENT] keeps. *)
Record Database := {
  planned_classes : list PlannedClass;
  sequence : Z
}.

(** [init_db] on a fresh file: the empty table. *)
Definition init_db : Database := {| planned_classes := []; sequence := 0 |}.

Inductive ValueError : Type :=
| NameTooLong
| InvalidCharacters
| NotesTooLong.

(** [^[A-Z0-9\s\-\.]+$] under [re.IGNORECASE]. *)
Definition CLASS_NAME_RE : regex :=
  (Bol · plus (ci (union (range "A" "Z")
                  (union (range "0" "9") (union space (any_of "-."))))) · Eol)%re.

Definition _validate_class_name (class_name : string) : ValueError + string :=
  let class_name := Str.strip class_name in
  if 100 <? String.length class_name then inl NameTooLong
  else
    match Re.match_ CLASS_NAME_RE class_name with
    | None => inl InvalidCharacters
    | Some _ => inr class_name
    end.

Definition _sanitize_notes (notes : string) : ValueError + string :=
  let notes := Str.strip notes in
  if 500 <? String.length notes then inl NotesTooLong
  else inr notes.

(** The rowid [AUTOINCREMENT] gives to a new row: one more than the largest
    the table ever held. *)
Definition next_rowid (db : Database) : Z :=
  1 + foldr Z.max (sequence db) (class_id <$> planned_classes db).

(** [now] is [CURRENT_TIMESTAMP]. The result is the [ValueError] raised
    before the database is opened, or the new rowid and the database after
    the [INSERT]. *)
Definition add_class (now : string) (class_name notes : string) (db : Database)
    : ValueError + (Z * Database) :=
  match _validate_class_name class_name with
  | inl e => inl e
  | inr class_name =>
      match _sanitize_notes notes with
      | inl e => inl e
      | inr notes =>
          let class_id := next_rowid db in
          inr (class_id,
               {| planned_classes :=
                    planned_classes db ++
                    [ {| class_id := class_id; class_name := class_name;
                         notes := Some notes; created_at := now;
                         updated_at := now |} ];
                  sequence := class_id |})
      end
  end.

(** [deleted] and the database after the [DELETE]. *)
Definition delete_class (class_id : Z) (db : Database) : bool * Database :=
  let deleted :=
    0 <? length (filter (λ r, Models.class_id r = class_id) (planned_classes db)) in
  (deleted,
   {| planned_classes :=
        filter (λ r, Models.class_id r ≠ class_id) (planned_classes db);
      sequence := sequence db |}).

(** [updated] and the database after the [UPDATE]. *)
Definition update_class (now : string) (class_id : Z) (class_name notes : string)
    (db : Database) : ValueError + (bool * Database) :=
  match _validate_class_name class_name with
  | inl e => inl e
  | inr class_name =>
      match _sanitize_notes notes with
      | inl e => inl e
      | inr notes =>
          let updated :=
            0 <? length (filter (λ r, Models.class_id r = class_id)
                                (planned_classes db)) in
          inr (updated,
               {| planned_classes :=
                    (λ r, if bool_decide (Models.class_id r = class_id)
                          then {| class_id := Models.class_id r;
                                  class_name := class_name;
                                  notes := Some notes;
                                  created_at := created_at r;
                                  updated_at := now |}
                          else r) <$> planned_classes db;
                  sequence := sequence db |})
      end
  end.

Definition clear_all (db : Database) : Database :=
  {| planned_classes := []; sequence := sequence db |}.

(** The loop of [get_all_classes] over the rows the [SELECT] returned:
    class name and notes are escaped for display. *)
Definition escape_row (row : PlannedClass) : PlannedClass :=
  {| class_id := class_id row;
     class_name := html_escape (class_name row);
     notes := Some (match notes row with
                    | Some n => if Str.truthy n then html_escape n else ""
                    | None => ""
                    end);
     created_at := created_at row;
     updated_at := updated_at row |}.

Definition get_all_classes (rows : list PlannedClass) : list PlannedClass :=
  escape_row <$> rows.

End Models.

(** ** app.py: the routes of the schedule *)

Module App.
Import Models.

(** The answer of a route: [400] with an error, or [200] with
    ['success': True] and the conflicts. *)
Inductive Response : Type :=
| BadRequest
| Success (conflicts : list Conflict).

(** The lines of [add_course] that prepare the posted dictionary: the
    course code in upper case when the dictionary has one, and
    [time_data] set to the parsed ['class_time'] when it parses.
    [class_time] is the ['class_time'] of the dictionary, [None] when it
    has none. *)
Definition prepare_course (course : Course) (class_time : option string) : Course :=
  let course :=
    {| crn := crn course;
       course := Str.upper <$> Models.course course;
       professor := professor course;
       time_data := time_data course |} in
  match parse_class_time (default "" class_time) with
  | Some time_data =>
      {| crn := crn course;
         course := Models.course course;
         professor := professor course;
         time_data := Some time_data |}
  | None => course
  end.

Section Routes.
(** The iteration order of the process. *)
Variable list_shared : list ascii → list ascii → list ascii.

(** [POST /api/courses], for a request that carries a JSON object.
    [course] is the ['course'] of that object: [None] when it has none or
    an empty one, else the dictionary as [detect_conflicts] reads it, with
    its ['class_time']. The fields of the dictionary are strings where the
    code takes them for strings; a request that is not so is answered
    [500] and is not followed here. *)
Definition add_course (now : string) (writable : bool)
    (course : option (Course * option string)) (data_file : DataFile)
    : Response * DataFile :=
  match course with
  | None => (BadRequest, data_file)
  | Some (course, class_time) =>
      let course := prepare_course course class_time in
      let data_file := Models.add_course now writable course data_file in
      let all_courses := get_courses data_file in
      let conflicts := detect_conflicts list_shared all_courses in
      (Success conflicts, data_file)
  end.

(** [DELETE /api/courses/<crn>]. *)
Definition remove_course (now : string) (writable : bool) (crn : string)
    (data_file : DataFile) : Response * DataFile :=
  let data_file := Models.remove_course now writable crn data_file in
  let all_courses := get_courses data_file in
  let conflicts := detect_conflicts list_shared all_courses in
  (Success conflicts, data_file).
End Routes.

End App.
(** ** scraper_module.py *)

Module Scraper.

(** *** Patterns *)

Definition upper : cls := range "A" "Z".
Definition lower : cls := range "a" "z".

(** [[A-Z][a-z]+] *)
Definition CAPWORD : regex := (Chr upper · plus lower)%re.

(** [\b(\d{5})\b] *)
Definition CRN_PATTERN : regex := (Wordb · Grp (exactly 5 digit) · Wordb)%re.

(** [(\d{1,2}:\d{2}\s*[AP]M)\s*-\s*(\d{1,2}:\d{2}\s*[AP]M)] under [re.I]. *)
Definition TIME_PATTERN : regex := Models.TIME_RE.

(** [^([A-Z][a-z]+(?:-[A-Z][a-z]+)?),\s+([A-Z][a-z]+(?:\s+[A-Z][a-z]+)?)$] *)
Definition NAME_PATTERN_LAST_FIRST : regex :=
  (Bol · Grp (CAPWORD · Opt (Chr (one "-") · CAPWORD)) · Chr (one ",") ·
   plus space · Grp (CAPWORD · Opt (plus space · CAPWORD)) · Eol)%re.

(** [^([A-Z][a-z]+\s+[A-Z][a-z]+)$] *)
Definition NAME_PATTERN_FIRST_LAST : regex :=
  (Bol · Grp (CAPWORD · plus space · CAPWORD) · Eol)%re.

(** [^([A-Z][a-z]+\s+[A-Z]\.\s+[A-Z][a-z]+)$] *)
Definition NAME_PATTERN_FIRST_M_LAST : regex :=
  (Bol · Grp (CAPWORD · plus space · Chr upper · Chr (one ".") · plus space ·
              CAPWORD) · Eol)%re.

Definition EXCLUDE_TERMS : list string :=
  ["view"; "footnote"; "math"; "calculus"; "class"; "meets"; "campus";
   "online"; "hybrid"; "tba"; "tbd"; "am"; "pm"; "open"; "wl"].

(** *** normalize_name *)

(** [\([^)]*\)] *)
Definition PAREN_RE : regex :=
  (Chr (one "(") · star (none_of ")") · Chr (one ")"))%re.

(** [\.([A-Z])] *)
Definition PERIOD_CAP_RE : regex := (Chr (one ".") · Grp (Chr upper))%re.

(** [[A-Z][^A-Z]*] *)
Definition CAP_RUN_RE : regex := (Chr upper · star (compl upper))%re.

(** [^([a-z]+)(R)] where R is [[A-Z].*] *)
Definition LOWER_THEN_CAP_RE : regex :=
  (Bol · Grp (plus lower) · Grp (Chr upper · star dot))%re.

Definition special_prefixes : list string :=
  ["Mc"; "Mac"; "O'"; "De"; "Van"; "Von"; "La"; "Le"; "St"; "Saint"].

(** The [while] loop that glues a prefix to the part after it. *)
Fixpoint merge_prefixes (split_parts : list string) : list string :=
  match split_parts with
  | [] => []
  | current :: rest =>
      match rest with
      | next :: rest' =>
          if bool_decide (current ∈ special_prefixes)
          then (current +:+ next) :: merge_prefixes rest'
          else current :: merge_prefixes rest
      | [] => [current]
      end
  end.

(** The branch taken when splitting on whitespace gives one part. *)
Definition split_glued (part : string) : list string :=
  let split_parts := Re.findall CAP_RUN_RE part in
  if 2 <=? length split_parts then merge_prefixes split_parts
  else if length split_parts =? 1 then
    match Re.match_ LOWER_THEN_CAP_RE part with
    | Some m =>
        let first := group 1 m in
        let rest := group 2 m in
        let rest_parts := Re.findall CAP_RUN_RE rest in
        if 2 <=? length rest_parts then first :: merge_prefixes rest_parts
        else [first; rest]
    | None => [part]
    end
  else [part].

(** [p.lower().strip().replace('.', '')] *)
Definition p_clean (p : string) : string :=
  Str.replace_char "." "" (Str.strip (Str.lower p)).

(** The final loop over [enumerate(parts)], with its three branches. *)
Definition filter_parts (parts : list string) : list string :=
  '(i, p) ← enumerate 0 parts;
  let p_clean := p_clean p in
  if 1 <? String.length p_clean then [p_clean]
  else if (String.length p_clean =? 1) && (0 <? i) && (i <? length parts - 1)
  then []
  else if String.length p_clean =? 1 then []
  else [].

Definition normalize_name (name : string) : list string :=
  let name_clean := Re.sub PAREN_RE (λ _, "") name in
  let name_clean := Str.replace_char "," " " name_clean in
  let name_clean := Re.sub PERIOD_CAP_RE (λ m, " " +:+ group 1 m) name_clean in
  let parts := Str.split name_clean in
  let parts :=
    match parts with
    | [part] => split_glued part
    | _ => parts
    end in
  filter_parts parts.

(** *** match_professor_name_strict *)

(** [parts[0]] and [parts[-1]] of a list known to be non-empty. *)
Definition first_of (parts : list string) : string := default "" (head parts).
Definition last_of (parts : list string) : string := default "" (last parts).

Definition match_professor_name_strict (search_name card_name : string) : bool :=
  let search_parts := normalize_name search_name in
  let card_parts := normalize_name card_name in
  if length search_parts <? 2 then false
  else if length card_parts <? 2 then false
  else
    let search_first := first_of search_parts in
    let search_last := last_of search_parts in
    let card_first := first_of card_parts in
    let card_last := last_of card_parts in
    let first_matches := String.eqb search_first card_first in
    let last_matches := String.eqb search_last card_last in
    if first_matches && last_matches then true
    else if (2 <=? length card_parts) &&
            String.eqb search_first card_last && String.eqb search_last card_first
    then true
    else false.

(** *** Course records *)

Record CourseInfo := {
  course : string;
  crn : string;
  professor : string;
  class_time : string;
  format : string
}.

(** *** _extract_course_from_row *)

(** What the extractor reads from a cell: its stripped text, the stripped
    text of its [span.days] if it has one, and the stripped text of its
    link to [/directory/user] if it has one. *)
Record Cell := {
  cell_text : string;
  days_span : option string;
  prof_link : option string
}.

(** A row: its cells, and whether it holds a [span] whose class matches
    [skittle.*hybrid]. *)
Record Row := {
  cells : list Cell;
  hybrid_span : bool
}.

(** The variables set by the pass over the cells. *)
Record Scan := {
  s_crn : option string;
  s_professor : option string;
  s_days : option string;
  s_time_str : option string
}.

Definition scan_init : Scan :=
  {| s_crn := None; s_professor := None; s_days := None; s_time_str := None |}.

Definition day_letters : string := "MTWRFSU".

(** The middle dot that separates the day letters on the page. *)
Definition MIDDLE_DOT : ascii := ascii_of_nat 183.

Definition is_some_match (o : option found) : bool :=
  match o with Some _ => true | None => false end.

(** The name heuristics applied to the text of a cell. *)
Definition looks_like_name (text : string) : bool :=
  if is_some_match (Re.match_ NAME_PATTERN_LAST_FIRST text) ||
     is_some_match (Re.match_ NAME_PATTERN_FIRST_LAST text) ||
     is_some_match (Re.match_ NAME_PATTERN_FIRST_M_LAST text)
  then true
  else
    let words := Str.split text in
    if (2 <=? length words) && (length words <=? 4) then
      if forallb (λ word, match word with
                          | String c _ => Str.is_upper c
                          | EmptyString => false
                          end) words
      then
        let text_lower := Str.lower text in
        negb (existsb (λ term, Str.contains term text_lower) EXCLUDE_TERMS) &&
        negb (is_some_match (Re.search (Chr digit) text))
      else false
    else false.

(** One iteration of the loop over the cells. *)
Definition scan_cell (course_code : string) (st : Scan) (cell : Cell) : Scan :=
  let text := cell_text cell in
  let text_upper := Str.upper text in
  let crn :=
    if negb (truthy (s_crn st)) then
      match Re.search CRN_PATTERN text with
      | Some crn_match => Some (group 1 crn_match)
      | None => s_crn st
      end
    else s_crn st in
  let days :=
    if negb (truthy (s_days st)) then
      match days_span cell with
      | Some span_text =>
          let days_text := Str.replace_char MIDDLE_DOT "" span_text in
          if Str.truthy days_text then
            let days := filter (λ letter, Str.mem_char letter day_letters)
                               (Str.chars days_text) in
            if 1 <? length days
            then Some (Str.join " " ((λ c, String c EmptyString) <$> days))
            else Some (Str.of_chars days)
          else s_days st
      | None => s_days st
      end
    else s_days st in
  let time_str :=
    if negb (truthy (s_time_str st)) then
      match Re.search TIME_PATTERN text with
      | Some _ => Some (Str.strip text)
      | None => if Str.contains "TBA" text_upper then Some "TBA" else s_time_str st
      end
    else s_time_str st in
  let professor :=
    if negb (truthy (s_professor st)) then
      match prof_link cell with
      | Some link_text => Some link_text
      | None =>
          if Str.truthy text && truthy crn &&
             negb (Str.contains (default "" crn) text) &&
             negb (Str.contains (Str.upper course_code) text_upper)
          then (if looks_like_name text then Some text else s_professor st)
          else s_professor st
      end
    else s_professor st in
  {| s_crn := crn; s_professor := professor; s_days := days;
     s_time_str := time_str |}.

Definition scan_row (course_code : string) (row : Row) : Scan :=
  fold_left (scan_cell course_code) (cells row) scan_init.

(** [class_time] from [days] and [time_str]. *)
Definition combine_time (st : Scan) : option string :=
  match s_time_str st with
  | Some time_str =>
      if Str.truthy time_str then
        match s_days st with
        | Some days =>
            if Str.truthy days then Some (days +:+ " " +:+ time_str)
            else Some time_str
        | None => Some time_str
        end
      else None
  | None => None
  end.

(** [row_text_lower]: the cell texts joined by blanks, in lower case. *)
Definition row_text_lower (row : Row) : string :=
  Str.lower (Str.join " " (cell_text <$> cells row)).

Definition row_format (row : Row) : option string :=
  let text := row_text_lower row in
  if hybrid_span row || Str.contains "hybrid" text then Some "Hybrid"
  else if Str.contains "fully online" text ||
          (Str.contains "online class" text && negb (Str.contains "hybrid" text))
  then Some "Online"
  else if Str.contains "fully on-campus" text || Str.contains "on-campus" text
  then Some "In-Person"
  else if Str.contains "online" text && negb (Str.contains "hybrid" text)
  then Some "Online"
  else None.

Definition _extract_course_from_row (row : Row) (course_code : string)
    : option CourseInfo :=
  let st := scan_row course_code row in
  let class_time := combine_time st in
  let is_online := row_format row in
  if truthy (s_crn st) then
    Some {| course := course_code;
            crn := default "" (s_crn st);
            professor := or_else (s_professor st) "TBA";
            class_time := or_else class_time "TBA";
            format := or_else is_online "Unknown" |}
  else None.

(** *** _extract_course_from_element *)

(** [\b\d{5}\b] *)
Definition ELEMENT_CRN_RE : regex := (Wordb · exactly 5 digit · Wordb)%re.

(** [([A-Z][a-z]+,?\s+[A-Z][a-z]+)] *)
Definition ELEMENT_NAME_RE : regex :=
  Grp (CAPWORD · maybe (one ",") · plus space · CAPWORD)%re.

(** [\d{1,2}:\d{2}[AP]?M?] *)
Definition LOOSE_CLOCK_RE : regex :=
  (upto 1 2 digit · Chr (one ":") · exactly 2 digit · maybe (any_of "AP") ·
   maybe (one "M"))%re.

(** [([MTWRF]+.*?C.*?C)] where C is the loose clock pattern above. *)
Definition ELEMENT_TIME_RE : regex :=
  Grp (plus (any_of "MTWRF") · lazy_star dot · LOOSE_CLOCK_RE · lazy_star dot ·
       LOOSE_CLOCK_RE)%re.

(** [\bonline\b], [\bhybrid\b] and [\bin-person\b|\bon-campus\b] under
    [re.I]. *)
Definition ONLINE_RE : regex := (Wordb · lit true "online" · Wordb)%re.
Definition HYBRID_RE : regex := (Wordb · lit true "hybrid" · Wordb)%re.
Definition IN_PERSON_RE : regex :=
  ((Wordb · lit true "in-person" · Wordb) </> (Wordb · lit true "on-campus" · Wordb))%re.

(** [text] is the text of the element, its pieces stripped and joined by
    blanks. *)
Definition _extract_course_from_element (text : string) (course_code : string)
    : option CourseInfo :=
  let crn := whole <$> Re.search ELEMENT_CRN_RE text in
  let professor := group 1 <$> Re.search ELEMENT_NAME_RE text in
  let class_time := group 1 <$> Re.search ELEMENT_TIME_RE text in
  let is_online :=
    if is_some_match (Re.search ONLINE_RE text) then Some "Online"
    else if is_some_match (Re.search HYBRID_RE text) then Some "Hybrid"
    else if is_some_match (Re.search IN_PERSON_RE text) then Some "In-Person"
    else None in
  if truthy crn || truthy professor then
    Some {| course := course_code;
            crn := or_else crn "N/A";
            professor := or_else professor "TBA";
            class_time := or_else class_time "TBA";
            format := or_else is_online "Unknown" |}
  else None.

(** *** parse_course_info *)

(** A string of the parse tree, as [find_all(string=...)] visits it: its
    text, and the text of its nearest [tr], [div] or [li] ancestor if it
    has one (the pieces of the ancestor stripped and joined by blanks). *)
Record TextNode := {
  node_text : string;
  node_parent : option string
}.

(** What the listing parser reads from the document: its text, the rows of
    each table, and its strings in document order. *)
Record Document := {
  page_text : string;
  tables : list (list Row);
  text_nodes : list TextNode
}.

(** The [re.error] that [re.compile] raises on a malformed pattern. *)
Inductive ReError : Type :=
| re_error (pattern : string).

(** The rows of the tables that mention the course code. *)
Definition courses_from_tables (tables : list (list Row)) (course_code : string)
    : list CourseInfo :=
  rows ← tables;
  row ← rows;
  if 0 <? length (cells row) then
    let row_text := Str.join " " (cell_text <$> cells row) in
    if Str.contains (Str.upper course_code) (Str.upper row_text) then
      match _extract_course_from_row row course_code with
      | Some course_info => [course_info]
      | None => []
      end
    else []
  else [].

Section Listing.
(** [re.compile(pattern, re.I)] on a pattern given by the caller: [None]
    for the [re.error] of a malformed pattern, else the test
    [compiled.search(text)] of the compiled pattern on a text. *)
Variable re_compile : string → option (string → bool).

(** The fallback when the document has no table. The course code is
    compiled as a pattern once it is known to occur in the page text. *)
Definition courses_from_text (doc : Document) (course_code : string)
    : ReError + list CourseInfo :=
  if Str.contains (Str.upper course_code) (Str.upper (page_text doc)) then
    match re_compile course_code with
    | None => inl (re_error course_code)
    | Some course_pattern =>
        inr (element ← filter (λ node, course_pattern (node_text node) = true)
                              (text_nodes doc);
             match node_parent element with
             | Some text =>
                 match _extract_course_from_element text course_code with
                 | Some course_info => [course_info]
                 | None => []
                 end
             | None => []
             end)
    end
  else inr [].
End Listing.

(** The loop "Remove duplicates based on CRN" of [parse_course_info]. *)
Fixpoint unique_from (seen_crns : gset string) (courses : list CourseInfo)
    : list CourseInfo :=
  match courses with
  | [] => []
  | course :: rest =>
      if bool_decide (crn course ∉ seen_crns) || String.eqb (crn course) "N/A"
      then course :: unique_from ({[crn course]} ∪ seen_crns) rest
      else unique_from seen_crns rest
  end.

Definition unique_courses (courses : list CourseInfo) : list CourseInfo :=
  unique_from ∅ courses.

Section ParseCourseInfo.
Variable re_compile : string → option (string → bool).

Definition parse_course_info (soup : Document) (course_code : string)
    : ReError + list CourseInfo :=
  let courses :=
    match tables soup with
    | [] => courses_from_text re_compile soup course_code
    | _ => inr (courses_from_tables (tables soup) course_code)
    end in
  match courses with
  | inl e => inl e
  | inr courses => inr (unique_courses courses)
  end.
End ParseCourseInfo.

(** *** get_listings *)

Definition LISTINGS_URL : string := "https://www.deanza.edu/schedule/listings.html".

Record Response := {
  status_code : Z;
  reason : string;
  text : string
}.

(** The exceptions caught by the retry loop: one raised by the client, or
    one of the five raised by the checks on the response. *)
Inductive FetchError : Type :=
| ClientError (message : string)
| HttpError (status_code : Z) (reason : string)
| EmptyContent
| CloudflareCheck
| AccessDenied
| ErrorPage (title : string).

(** The exception raised after the loop: "Failed to fetch listings after
    [max_retries] attempts: [last_error]". *)
Record FetchFailed := {
  attempts_made : nat;
  last_error : option FetchError
}.

Inductive Event : Type :=
| Get (url : string)
| Sleep (seconds : nat).

(** The world of the fetcher: what the client answers to its k-th request,
    the number of requests made, and the requests and sleeps so far. *)
Record World := {
  client : nat → string → FetchError + Response;
  requests : nat;
  log : list Event
}.

Definition start (client : nat → string → FetchError + Response) : World :=
  {| client := client; requests := 0; log := [] |}.

(** A state monad over the world. *)
Definition M (A : Type) : Type := World → A * World.

#[global] Instance M_ret : MRet M := λ A x w, (x, w).
#[global] Instance M_bind : MBind M :=
  λ A B f m w, let '(x, w') := m w in f x w'.

(** [self.scraper.get(url, timeout=15)] *)
Definition scraper_get (url : string) : M (FetchError + Response) :=
  λ w, (client w (requests w) url,
        {| client := client w; requests := S (requests w);
           log := log w ++ [Get url] |}).

(** [time.sleep(seconds)] *)
Definition sleep (seconds : nat) : M unit :=
  λ w, (tt, {| client := client w; requests := requests w;
               log := log w ++ [Sleep seconds] |}).

Section Fetcher.
(** The HTML parser: the parse tree type, [BeautifulSoup(text,
    'html.parser')], and the text of the [title] element if there is
    one. *)
Context {Soup : Type}.
Variable BeautifulSoup : string → Soup.
Variable title_text : Soup → option string.

(** The body of the [try]: the checks on one response. *)
Definition check_response (answer : FetchError + Response) : FetchError + Soup :=
  match answer with
  | inl e => inl e
  | inr response =>
      if negb (status_code response =? 200)%Z
      then inl (HttpError (status_code response) (reason response))
      else if negb (Str.truthy (text response)) ||
              (String.length (text response) <? 100)
      then inl EmptyContent
      else
        let page_lower := Str.lower (text response) in
        if Str.contains "cloudflare" page_lower &&
           Str.contains "checking your browser" page_lower
        then inl CloudflareCheck
        else if Str.contains "error" page_lower && Str.contains "403" page_lower
        then inl AccessDenied
        else
          let soup := BeautifulSoup (text response) in
          match title_text soup with
          | Some title =>
              if Str.contains "error" (Str.lower title) then inl (ErrorPage title)
              else inr soup
          | None => inr soup
          end
  end.

(** The loop [for attempt in range(max_retries)], over the attempts still
    to make. *)
Fixpoint fetch_loop (url : string) (max_retries : nat) (todo : list nat)
    (last_error : option FetchError) : M (FetchFailed + Soup) :=
  match todo with
  | [] => mret (inl {| attempts_made := max_retries; last_error := last_error |})
  | attempt :: todo' =>
      answer ← scraper_get url;
      match check_response answer with
      | inr soup => mret (inr soup)
      | inl e =>
          (if attempt <? max_retries - 1
           then sleep ((attempt + 1) * 2)
           else mret ()) ;;
          fetch_loop url max_retries todo' (Some e)
      end
  end.

Definition listings_url (department term : string) : string :=
  LISTINGS_URL +:+ "?dept=" +:+ department +:+ "&t=" +:+ term.

Definition get_listings (max_retries : nat) (department term : string)
    : M (FetchFailed + Soup) :=
  fetch_loop (listings_url department term) max_retries (seq 0 max_retries) None.
End Fetcher.

(** *** get_professor_ratings *)

(** A feedback item: its text, and the stripped text of the number element
    inside it if there is one. *)
Record FeedbackItem := {
  item_text : string;
  item_number : option string
}.

(** A feedback number element: the text of its parent if it has one, and
    its own stripped text. *)
Record FeedbackNumber := {
  parent_text : option string;
  number_text : string
}.

(** What the resolver reads from a teacher card. *)
Record Card := {
  card_name : option string;
  href : option string;
  card_rating : option string;
  card_count : option string;
  card_feedback_items : list FeedbackItem;
  card_feedback_numbers : list FeedbackNumber
}.

(** What the resolver reads from the page: the teacher cards (by class, or
    by link when none has the class), and the elements of the profile
    layout. *)
Record Page := {
  teacher_cards : list Card;
  page_rating : option string;
  ratings_link : option string;
  page_feedback_items : list FeedbackItem;
  page_feedback_numbers : list string
}.

(** The [ValueError] of [int] on a run of digits that is too long. *)
Inductive Raised : Type :=
| IntTooLong (digits : string).

Section Ratings.
(** [float(text)]: the number read, or [None] for a [ValueError]. *)
Context {float : Type}.
Variable py_float : string → option float.
(** [sys.get_int_max_str_digits()]. *)
Variable int_max_str_digits : nat.

Record Ratings := {
  rating : option float;
  num_ratings : option Z;
  difficulty : option float;
  url : option string
}.

(** The first card whose name matches. *)
Fixpoint find_matching_card (professor_name : string) (cards : list Card)
    : option Card :=
  match cards with
  | [] => None
  | card :: rest =>
      match card_name card with
      | Some name =>
          if match_professor_name_strict professor_name name then Some card
          else find_matching_card professor_name rest
      | None => find_matching_card professor_name rest
      end
  end.

Definition professor_url (card : Card) : option string :=
  match href card with
  | Some href =>
      if Str.truthy href then
        if Str.starts_with "/professor/" href
        then Some ("https://www.ratemyprofessors.com" +:+ href)
        else if Str.starts_with "http" href then Some href
        else None
      else None
  | None => None
  end.

(** [int] of the first run of digits, if there is one. The [ValueError]
    of [int] is not caught where it is raised. *)
Definition first_number (text : string) : Raised + option Z :=
  match Re.search (Grp (plus digit)) text with
  | Some num_match =>
      match int_ int_max_str_digits (group 1 num_match) with
      | Some n => inr (Some n)
      | None => inl (IntTooLong (group 1 num_match))
      end
  | None => inr None
  end.

(** The loop over feedback items: the number of the first item that
    mentions difficulty and whose number reads as a float. *)
Fixpoint item_difficulty (items : list FeedbackItem) : option float :=
  match items with
  | [] => None
  | item :: rest =>
      if Str.contains "difficulty" (Str.lower (item_text item)) then
        match item_number item with
        | Some difficulty_text =>
            match py_float difficulty_text with
            | Some d => Some d
            | None => item_difficulty rest
            end
        | None => item_difficulty rest
        end
      else item_difficulty rest
  end.

(** The loop over feedback numbers, by the text of the parent. *)
Fixpoint number_difficulty (numbers : list FeedbackNumber) : option float :=
  match numbers with
  | [] => None
  | num_elem :: rest =>
      match parent_text num_elem with
      | Some parent_text =>
          if Str.contains "difficulty" (Str.lower parent_text) then
            match py_float (number_text num_elem) with
            | Some d => Some d
            | None => number_difficulty rest
            end
          else number_difficulty rest
      | None => number_difficulty rest
      end
  end.

(** [rating]: from the card, else from the profile layout. *)
Definition found_rating (page : Page) (card_to_parse : Card) : option float :=
  let rating := card_rating card_to_parse ≫= py_float in
  match rating with
  | Some _ => rating
  | None => page_rating page ≫= py_float
  end.

(** [num_ratings]: from the card, else from the profile layout. *)
Definition found_num_ratings (page : Page) (card_to_parse : Card)
    : Raised + option Z :=
  let num_ratings :=
    match card_count card_to_parse with
    | Some count_text => first_number count_text
    | None => inr None
    end in
  match num_ratings with
  | inl e => inl e
  | inr (Some n) => inr (Some n)
  | inr None =>
      match ratings_link page with
      | Some ratings_text => first_number ratings_text
      | None => inr None
      end
  end.

(** [difficulty]: from the feedback items of the card, else from its
    feedback numbers, else from the profile layout. *)
Definition found_difficulty (page : Page) (card_to_parse : Card) : option float :=
  let difficulty := item_difficulty (card_feedback_items card_to_parse) in
  let difficulty :=
    match difficulty with
    | Some _ => difficulty
    | None =>
        if 2 <=? length (card_feedback_numbers card_to_parse)
        then number_difficulty (card_feedback_numbers card_to_parse)
        else None
    end in
  match difficulty with
  | Some _ => difficulty
  | None =>
      match item_difficulty (page_feedback_items page) with
      | Some d => Some d
      | None =>
          if 2 <=? length (page_feedback_numbers page)
          then page_feedback_numbers page !! 1 ≫= py_float
          else None
      end
  end.

(** The extraction once a card has matched, and the final test. Reading
    the floats raises nothing, so an exception raised on the way is the
    one of [found_num_ratings]. *)
Definition extract_ratings (page : Page) (card_to_parse : Card)
    : Raised + option Ratings :=
  let professor_url := professor_url card_to_parse in
  let rating := found_rating page card_to_parse in
  match found_num_ratings page card_to_parse with
  | inl e => inl e
  | inr num_ratings =>
      let difficulty := found_difficulty page card_to_parse in
      if bool_decide (is_Some rating) || bool_decide (is_Some num_ratings) ||
         bool_decide (is_Some difficulty)
      then inr (Some {| rating := rating; num_ratings := num_ratings;
                        difficulty := difficulty; url := professor_url |})
      else inr None
  end.

(** [answer] is what the client gives for the search request: [None] when
    it raises, else the status code and the parsed page. Whatever is
    raised inside the [try] gives [None]. *)
Definition get_professor_ratings (professor_name : string)
    (answer : option (Z * Page)) : option Ratings :=
  match answer with
  | None => None
  | Some (status_code, page) =>
      if negb (status_code =? 200)%Z then None
      else
        match teacher_cards page with
        | [] => None
        | _ =>
            match find_matching_card professor_name (teacher_cards page) with
            | None => None
            | Some matching_card =>
                match extract_ratings page matching_card with
                | inl _ => None
                | inr result => result
                end
            end
        end
  end.
End Ratings.

(** *** search_course *)


Section SearchCourse.
(** The HTML parser, what the listing parser reads from a parse tree, and
    [re.compile]. *)
Context {Soup : Type}.
Variable BeautifulSoup : string → Soup.
Variable title_text : Soup → option string.
Variable document_of : Soup → Document.
Variable re_compile : string → option (string → bool).

End SearchCourse.

(** *** parse_course_input *)

(** [None] stands for the pair [(None, None)]. *)
Definition parse_course_input (course_input : string) : option (string * string) :=
  let course_input := Str.upper (Str.strip course_input) in
  let parts := Str.split course_input in
  if length parts <? 2 then None
  else
    let department := first_of parts in
    let course_code := Str.join " " (tail parts) in
    Some (department, course_code).

(** *** main: professors and their ratings *)

(** The loop "Collect unique professor names". *)
Fixpoint professors_from (professor_set : gset string) (courses : list CourseInfo)
    : list string :=
  match courses with
  | [] => []
  | course :: rest =>
      let prof_name := professor course in
      if negb (String.eqb prof_name "TBA") &&
         bool_decide (prof_name ∉ professor_set)
      then prof_name :: professors_from ({[prof_name]} ∪ professor_set) rest
      else professors_from professor_set rest
  end.

Definition unique_professors (courses : list CourseInfo) : list string :=
  professors_from ∅ courses.

Section RateCourses.
Context {float : Type}.
Variable py_float : string → option float.
Variable int_max_str_digits : nat.
(** What the ratings site answers to the search for a name. *)
Variable answers : string → option (Z * Page).

(** The loop "Get ratings for each professor". *)
Definition fetch_ratings (professors : list string) : gmap string (@Ratings float) :=
  foldl (λ professor_ratings prof_name,
           match get_professor_ratings py_float int_max_str_digits prof_name (answers prof_name) with
           | Some ratings => <[prof_name := ratings]> professor_ratings
           | None => professor_ratings
           end) ∅ professors.

(** The loop "Add ratings to each course": a course with its [ratings]. *)
Definition attach_ratings (professor_ratings : gmap string (@Ratings float))
    (courses : list CourseInfo) : list (CourseInfo * option (@Ratings float)) :=
  (λ course, (course, professor_ratings !! professor course)) <$> courses.

Definition rate_courses (courses : list CourseInfo)
    : list (CourseInfo * option (@Ratings float)) :=
  attach_ratings (fetch_ratings (unique_professors courses)) courses.
End RateCourses.

End Scraper.

(** ** Vocabulary of the statements *)

Module Vocab.
Import Models.

(** Order of the index pairs: first index, then second index. *)
Definition pair_lt (p q : nat * nat) : Prop :=
  p.1 < q.1 ∨ (p.1 = q.1 ∧ p.2 < q.2).

(** A selected section as [app.py] prepares it: the record of the listing
    with [time_data] set to the parsed [class_time]. *)
Definition selected (crn class_time : string) : Course :=
  {| crn := Some crn; course := Some "MATH 1A"; professor := Some "TBA";
     time_data := parse_class_time class_time |}.

(** The decision of the matcher on the two token sequences. *)
Definition tokens_match (s c : list string) : Prop :=
  2 ≤ length s ∧ 2 ≤ length c ∧
  ((head s = head c ∧ last s = last c) ∨ (head s = last c ∧ last s = head c)).

(** The post-filter of [normalize_name] in the words of the specification:
    a token is discarded exactly when it is a single letter strictly
    between the first and the last token. *)
Definition post_filter_spec (parts : list string) : list string :=
  '(i, p) ← enumerate 0 parts;
  let t := Scraper.p_clean p in
  if (String.length t =? 1) && (0 <? i) && (i <? length parts - 1) then [] else [t].

(** De-duplication in the words of the specification: the record at
    position [k] is kept when its CRN is "N/A" or when no earlier record
    carries its CRN. *)
Definition keeps (courses : list Scraper.CourseInfo) (k : nat)
    (c : Scraper.CourseInfo) : bool :=
  String.eqb (Scraper.crn c) "N/A" ||
  bool_decide (Scraper.crn c ∉ Scraper.crn <$> take k courses).

Definition first_by_crn (courses : list Scraper.CourseInfo)
    : list Scraper.CourseInfo :=
  (λ p, p.2) <$> filter (λ p, keeps courses p.1 p.2) (enumerate 0 courses).

Definition listed (crn : string) (professor : string) : Scraper.CourseInfo :=
  {| Scraper.course := "MATH 1A"; Scraper.crn := crn;
     Scraper.professor := professor; Scraper.class_time := "TBA";
     Scraper.format := "Unknown" |}.

(** The trace of [k] failed attempts numbered from [a], each followed by
    its wait of (attempt + 1) * 2 seconds. *)
Definition backoff_from (url : string) (a k : nat) : list Scraper.Event :=
  i ← seq a k; [Scraper.Get url; Scraper.Sleep ((i + 1) * 2)].

Definition backoff (url : string) (k : nat) : list Scraper.Event :=
  backoff_from url 0 k.

(** The trace of [n] attempts that all fail: no wait after the last. *)
Definition exhausted_from (url : string) (a n : nat) : list Scraper.Event :=
  match n with
  | 0 => []
  | S n' => backoff_from url a n' ++ [Scraper.Get url]
  end.

Definition is_get (e : Scraper.Event) : bool :=
  match e with Scraper.Get _ => true | Scraper.Sleep _ => false end.

Definition count_gets (events : list Scraper.Event) : nat :=
  length (filter is_get events).

(** The exception of a failed check, if it failed. *)
Definition cause {Soup} (checked : Scraper.FetchError + Soup)
    : option Scraper.FetchError :=
  match checked with inl e => Some e | inr _ => None end.

(** A parser for the scenarios: the parse tree is the page text, and the
    title is "Error" when the text starts with it. *)
Definition text_soup (text : string) : string := text.
Definition text_title (soup : string) : option string :=
  if Str.starts_with "Error" soup then Some "Error" else None.

(** A listings page of more than 100 characters. *)
Definition listings_page : string :=
  "<html><head><title>Schedule of Classes</title></head><body><table><tr>" +:+
  "<td>12345</td><td>MATH 1A</td><td>Clare Nguyen</td></tr></table></body></html>".

Definition ok_response : Scraper.FetchError + Scraper.Response :=
  inr {| Scraper.status_code := 200; Scraper.reason := "OK";
         Scraper.text := listings_page |}.

Definition server_error : Scraper.FetchError + Scraper.Response :=
  inr {| Scraper.status_code := 503; Scraper.reason := "Service Unavailable";
         Scraper.text := "" |}.

(** A client that fails [k] times, the k-th time (from 0) by a timeout, and
    answers the page afterwards. *)
Definition flaky (k : nat) (attempt : nat) (url : string)
    : Scraper.FetchError + Scraper.Response :=
  if attempt <? k then
    if S attempt =? k then inl (Scraper.ClientError "timed out") else server_error
  else ok_response.

(** A reading of [float] for the scenarios: a decimal numeral, as its
    digits and the number of digits after the point. *)
Record Decimal := { unscaled : Z; scale : nat }.

Definition read_decimal (text : string) : option Decimal :=
  match Re.match_ (Bol · Grp (plus digit) · Opt (Chr (one ".") · Grp (plus digit)) · Eol)%re
                 (Str.strip text) with
  | Some m =>
      Some {| unscaled := Str.int_of_digits (group 1 m +:+ group 2 m);
              scale := String.length (group 2 m) |}
  | None => None
  end.

Definition no_profile (cards : list Scraper.Card) : Scraper.Page :=
  {| Scraper.teacher_cards := cards; Scraper.page_rating := None;
     Scraper.ratings_link := None; Scraper.page_feedback_items := [];
     Scraper.page_feedback_numbers := [] |}.

(** A card with every field, and a card with a link and nothing else. *)
Definition full_card : Scraper.Card :=
  {| Scraper.card_name := Some "Clare M. Nguyen";
     Scraper.href := Some "/professor/123456";
     Scraper.card_rating := Some "4.5";
     Scraper.card_count := Some "65 ratings";
     Scraper.card_feedback_items :=
       [ {| Scraper.item_text := "90% would take again";
            Scraper.item_number := Some "90%" |};
         {| Scraper.item_text := "3.1 level of difficulty";
            Scraper.item_number := Some "3.1" |} ];
     Scraper.card_feedback_numbers := [] |}.

Definition bare_card : Scraper.Card :=
  {| Scraper.card_name := Some "Clare M. Nguyen";
     Scraper.href := Some "/professor/123456";
     Scraper.card_rating := None;
     Scraper.card_count := None;
     Scraper.card_feedback_items := [];
     Scraper.card_feedback_numbers := [] |}.

(** The limit of [int] when the interpreter is not configured:
    [sys.int_info.default_max_str_digits]. *)
Definition default_max_str_digits : nat := 4300.

Fixpoint repeat_char (c : ascii) (n : nat) : string :=
  match n with
  | 0 => EmptyString
  | S n' => String c (repeat_char c n')
  end.

(** A card with a rating and a review count of 4301 digits. *)
Definition long_count_card : Scraper.Card :=
  {| Scraper.card_name := Some "Clare M. Nguyen";
     Scraper.href := Some "/professor/123456";
     Scraper.card_rating := Some "4.5";
     Scraper.card_count := Some (repeat_char "1" 4301 +:+ " ratings");
     Scraper.card_feedback_items := [];
     Scraper.card_feedback_numbers := [] |}.

(** A stand-in for [re.compile(pattern, re.I)] in the scenarios: a pattern
    that holds a parenthesis is refused, any other is searched for as it
    is written, case ignored. On a pattern made of the letters A to Z, the
    digits and blanks this is what [re.compile] gives, and a pattern whose
    only parenthesis is an opening one is refused by [re.compile] too. *)
Definition literal_compile (pattern : string) : option (string → bool) :=
  if Str.mem_char "(" pattern || Str.mem_char ")" pattern then None
  else Some (λ text, Str.contains (Str.lower pattern) (Str.lower text)).

(** Cells and rows for the scenarios. *)
Definition plain (text : string) : Scraper.Cell :=
  {| Scraper.cell_text := text; Scraper.days_span := None;
     Scraper.prof_link := None |}.

Definition row_of (cells : list Scraper.Cell) : Scraper.Row :=
  {| Scraper.cells := cells; Scraper.hybrid_span := false |}.

(** An iteration order of the shared days: each shared day once, in some
    order. *)
Definition lists_shared_days (list_shared : list ascii → list ascii → list ascii)
    : Prop :=
  ∀ days1 days2,
    list_shared days1 days2 ≡ₚ
    elements (list_to_set days1 ∩ list_to_set days2 : gset ascii).

(** Two iteration orders, as two processes with different hash seeds may
    have them: one the reverse of the other. *)
Definition seed_a (days1 days2 : list ascii) : list ascii :=
  elements (list_to_set days1 ∩ list_to_set days2 : gset ascii).

Definition seed_b (days1 days2 : list ascii) : list ascii :=
  reverse (seed_a days1 days2).

(** Two records that differ at most in the order of their days. *)
Definition same_conflict (k1 k2 : Conflict) : Prop :=
  course1 k1 = course1 k2 ∧ course2 k1 = course2 k2 ∧
  time1 k1 = time1 k2 ∧ time2 k1 = time2 k2 ∧
  conflicting_days k1 ≡ₚ conflicting_days k2.

Section Pairwise.
Variable list_shared : list ascii → list ascii → list ascii.

(** The records of one section against the sections after it. *)
Definition conflicts_with (c1 : Course) (rest : list Course) : list Conflict :=
  match time_data c1 with
  | None => []
  | Some t1 =>
      c2 ← rest;
      match time_data c2 with
      | None => []
      | Some t2 =>
          if overlaps t1 t2 then [conflict_of list_shared c1 t1 c2 t2] else []
      end
  end.

(** All records, section by section. *)
Fixpoint pairwise_conflicts (courses : list Course) : list Conflict :=
  match courses with
  | [] => []
  | c :: rest => conflicts_with c rest ++ pairwise_conflicts rest
  end.
End Pairwise.

Definition has_interval (c : Course) : bool :=
  match time_data c with Some _ => true | None => false end.

(** The three groups of [STRPTIME_RE]. *)
Definition HOUR_RE : regex :=
  ((Chr (one "1") · Chr (range "0" "2")) </>
   (Chr (one "0") · Chr (range "1" "9")) </>
   Chr (range "1" "9"))%re.

Definition MINUTE_RE : regex :=
  ((Chr (range "0" "5") · Chr digit) </> Chr digit)%re.

Definition AMPM_RE : regex := (lit true "am" </> lit true "pm")%re.

(** The characters a class name may hold: the letters A to Z in either
    case, the digits 0 to 9, whitespace, hyphen and period. *)
Definition name_char (c : ascii) : bool :=
  Str.is_AZ c || Str.is_az c || Str.is_digit c || Str.is_space c ||
  Ascii.eqb c "-" || Ascii.eqb c ".".

(** The characters [html.escape] replaces. *)
Definition markup_char (c : ascii) : bool :=
  Ascii.eqb c "&" || Ascii.eqb c "<" || Ascii.eqb c ">" ||
  Ascii.eqb c QUOTE || Ascii.eqb c "'".

(** A row as [add_class] and [update_class] write it: its name passes the
    validation unchanged and its notes pass the sanitizer unchanged. *)
Definition valid_row (r : PlannedClass) : Prop :=
  _validate_class_name (class_name r) = inr (class_name r) ∧
  ∃ n, notes r = Some n ∧ _sanitize_notes n = inr n.

(** A database as the operations of [PlannedClassesDB] leave it: rowids
    pairwise distinct and none above the recorded sequence. *)
Definition db_ok (db : Database) : Prop :=
  NoDup (class_id <$> planned_classes db) ∧
  Forall (λ r, (class_id r ≤ sequence db)%Z) (planned_classes db).

(** A pattern without capturing group. *)
Fixpoint groupless (r : regex) : bool :=
  match r with
  | Grp _ => false
  | Cat r1 r2 | Alt r1 r2 => groupless r1 && groupless r2
  | Opt r1 => groupless r1
  | _ => true
  end.

(** The least number of characters a match of the pattern consumes. *)
Fixpoint min_len (r : regex) : nat :=
  match r with
  | Chr _ => 1
  | Rep _ lo _ _ => lo
  | Cat r1 r2 => min_len r1 + min_len r2
  | Alt r1 r2 => min_len r1 `min` min_len r2
  | Grp r1 => min_len r1
  | _ => 0
  end.

(** A string of exactly five digits. *)
Definition five_digits (s : string) : Prop :=
  String.length s = 5 ∧ Forall (λ c, Str.is_digit c = true) (Str.chars s).

(** A word: non-empty and free of whitespace. *)
Definition is_word_token (w : string) : Prop :=
  w ≠ "" ∧ Forall (λ c, Str.is_space c = false) (Str.chars w).

(** What [Str.split_go] gives when the input ends: the word being read, if
    one is. *)
Definition flush (cur : list ascii) : list string :=
  match cur with [] => [] | _ => [Str.of_chars (rev cur)] end.

(** The seconds the fetcher slept in a trace. *)
Definition seconds_of (e : Scraper.Event) : nat :=
  match e with Scraper.Sleep seconds => seconds | Scraper.Get _ => 0 end.

Definition total_sleep (events : list Scraper.Event) : nat :=
  foldr (λ e total, seconds_of e + total) 0 events.

End Vocab.

Import Vocab.

(** ** Properties of models.py *)

Module ModelsProps.
Import Models.

Lemma elem_of_enumerate {A} (l : list A) (start i : nat) (x : A) :
  (i, x) ∈ enumerate start l ↔ start ≤ i ∧ l !! (i - start) = Some x.
Proof.
  revert start. induction l as [|y l IH]; intros start; simpl.
  - split; [by intros ?%elem_of_nil | by intros [_ ?]].
  - rewrite elem_of_cons, IH. split.
    + intros [[= -> ->] | [Hle Hl]].
      * split; [lia|]. by replace (start - start) with 0 by lia.
      * split; [lia|]. by replace (i - start) with (S (i - S start)) by lia.
    + intros [Hle Hl]. destruct (decide (i = start)) as [->|Hne].
      * left. replace (start - start) with 0 in Hl by lia.
        simpl in Hl. congruence.
      * right. split; [lia|].
        by replace (i - start) with (S (i - S start)) in Hl by lia.
Qed.

Lemma overlaps_spec (t1 t2 : TimeData) :
  overlaps t1 t2 = true ↔
  shared_days t1 t2 ≠ ∅ ∧
  (start_minutes t1 < end_minutes t2)%Z ∧ (end_minutes t1 > start_minutes t2)%Z.
Proof.
  unfold overlaps. rewrite !andb_true_iff, !bool_decide_eq_true. tauto.
Qed.

Section Conflicts.
(** The iteration order of the process. *)
Variable list_shared : list ascii → list ascii → list ascii.

Local Abbreviation conflict_of := (Models.conflict_of list_shared).
Local Abbreviation detect_conflicts_indexed :=
  (Models.detect_conflicts_indexed list_shared).
Local Abbreviation detect_conflicts := (Models.detect_conflicts list_shared).

(** What the loops emit, entry by entry. *)
Lemma elem_of_detect_conflicts_indexed (courses : list Course) (i j : nat) (k : Conflict) :
  (i, j, k) ∈ detect_conflicts_indexed courses ↔
  i < j ∧ ∃ c1 c2 t1 t2,
    courses !! i = Some c1 ∧ courses !! j = Some c2 ∧
    time_data c1 = Some t1 ∧ time_data c2 = Some t2 ∧
    overlaps t1 t2 = true ∧ k = conflict_of c1 t1 c2 t2.
Proof.
  unfold Models.detect_conflicts_indexed. rewrite list_elem_of_bind. split.
  - intros [[i' c1] [Hin Hi]]. apply elem_of_enumerate in Hi as [_ Hi].
    rewrite Nat.sub_0_r in Hi.
    destruct (time_data c1) as [t1|] eqn:Ht1; [|by apply elem_of_nil in Hin].
    apply list_elem_of_bind in Hin as [[j' c2] [Hin Hj]].
    apply elem_of_enumerate in Hj as [Hle Hj]. rewrite lookup_drop in Hj.
    destruct (time_data c2) as [t2|] eqn:Ht2; [|by apply elem_of_nil in Hin].
    destruct (overlaps t1 t2) eqn:Hov; [|by apply elem_of_nil in Hin].
    apply list_elem_of_singleton in Hin as [= <- <- ->].
    split; [lia|]. exists c1, c2, t1, t2.
    replace (i + 1 + (j - (i + 1))) with j in Hj by lia. done.
  - intros (Hlt & c1 & c2 & t1 & t2 & Hi & Hj & Ht1 & Ht2 & Hov & ->).
    exists (i, c1). split.
    + rewrite Ht1. apply list_elem_of_bind. exists (j, c2). split.
      * rewrite Ht2, Hov. apply list_elem_of_singleton. done.
      * apply elem_of_enumerate. split; [lia|]. rewrite lookup_drop.
        by replace (i + 1 + (j - (i + 1))) with j by lia.
    + apply elem_of_enumerate. split; [lia|]. by rewrite Nat.sub_0_r.
Qed.

(** Sortedness of a concatenation of blocks. *)
Lemma StronglySorted_bind {A B} (R' : relation A) (R : relation B)
    (f : A → list B) (l : list A) :
  StronglySorted R' l →
  (∀ x, x ∈ l → StronglySorted R (f x)) →
  (∀ x y a b, R' x y → a ∈ f x → b ∈ f y → R a b) →
  StronglySorted R (l ≫= f).
Proof.
  intros Hl Hf Hcross. induction Hl as [|x l Hl IH Hx].
  - constructor.
  - rewrite bind_cons. apply StronglySorted_app_2.
    + intros a b Ha [y [Hb Hy]]%list_elem_of_bind.
      rewrite Forall_forall in Hx. eauto.
    + apply Hf. left.
    + apply IH. intros y Hy. apply Hf. by right.
Qed.

Lemma enumerate_sorted {A} (l : list A) (start : nat) :
  StronglySorted (λ p q : nat * A, p.1 < q.1) (enumerate start l).
Proof.
  revert start. induction l as [|x l IH]; intros start; simpl; constructor.
  - apply IH.
  - apply Forall_forall. intros [i y] [Hle _]%elem_of_enumerate. simpl. lia.
Qed.

Lemma detect_conflicts_indexed_sorted (courses : list Course) :
  StronglySorted (λ x y : nat * nat * Conflict, pair_lt x.1 y.1)
                 (detect_conflicts_indexed courses).
Proof.
  unfold Models.detect_conflicts_indexed.
  apply (StronglySorted_bind (λ p q : nat * Course, p.1 < q.1)).
  - apply enumerate_sorted.
  - intros [i c1] _. destruct (time_data c1) as [t1|]; [|constructor].
    apply (StronglySorted_bind (λ p q : nat * Course, p.1 < q.1)).
    + apply enumerate_sorted.
    + intros [j c2] _. destruct (time_data c2) as [t2|]; [|constructor].
      destruct (overlaps t1 t2); repeat constructor.
    + intros [j c2] [j' c2'] a b Hlt Ha Hb. simpl in Hlt.
      destruct (time_data c2); [|by apply elem_of_nil in Ha].
      destruct (time_data c2'); [|by apply elem_of_nil in Hb].
      destruct (overlaps t1 t); [|by apply elem_of_nil in Ha].
      destruct (overlaps t1 t0); [|by apply elem_of_nil in Hb].
      apply list_elem_of_singleton in Ha as ->.
      apply list_elem_of_singleton in Hb as ->.
      right. simpl. lia.
  - intros [i c1] [i' c1'] a b Hlt Ha Hb. simpl in Hlt.
    destruct (time_data c1); [|by apply elem_of_nil in Ha].
    destruct (time_data c1'); [|by apply elem_of_nil in Hb].
    apply list_elem_of_bind in Ha as [[j c2] [Ha _]].
    apply list_elem_of_bind in Hb as [[j' c2'] [Hb _]].
    destruct (time_data c2); [|by apply elem_of_nil in Ha].
    destruct (time_data c2'); [|by apply elem_of_nil in Hb].
    destruct (overlaps t t1); [|by apply elem_of_nil in Ha].
    destruct (overlaps t0 t2); [|by apply elem_of_nil in Hb].
    apply list_elem_of_singleton in Ha as ->.
    apply list_elem_of_singleton in Hb as ->.
    left. simpl. lia.
Qed.

(** C1. For a pair of positions i < j whose sections both carry a parsed
    interval, [detect_conflicts] appends a record for the pair exactly when
    the two day sets meet and start_i < end_j and end_i > start_j, and the
    record is the one built from the two sections. Touching intervals and
    disjoint day sets give no record. Every record appended anywhere comes
    from two positions whose sections both carry an interval. *)
Theorem detect_conflicts_pair_iff (courses : list Course) (i j : nat)
    (c1 c2 : Course) (t1 t2 : TimeData) :
  i < j →
  courses !! i = Some c1 → courses !! j = Some c2 →
  time_data c1 = Some t1 → time_data c2 = Some t2 →
  ((∃ k, (i, j, k) ∈ detect_conflicts_indexed courses) ↔
     list_to_set (days t1) ∩ list_to_set (days t2) ≠@{gset ascii} ∅ ∧
     (start_minutes t1 < end_minutes t2)%Z ∧
     (end_minutes t1 > start_minutes t2)%Z) ∧
  (∀ k, (i, j, k) ∈ detect_conflicts_indexed courses →
        k = conflict_of c1 t1 c2 t2 ∧ k ∈ detect_conflicts courses) ∧
  (end_minutes t1 = start_minutes t2 ∨ end_minutes t2 = start_minutes t1 →
     ∀ k, (i, j, k) ∉ detect_conflicts_indexed courses) ∧
  (list_to_set (days t1) ##@{gset ascii} list_to_set (days t2) →
     ∀ k, (i, j, k) ∉ detect_conflicts_indexed courses) ∧
  (∀ i' j' k, (i', j', k) ∈ detect_conflicts_indexed courses →
     i' < j' ∧
     ∃ c1' c2', courses !! i' = Some c1' ∧ courses !! j' = Some c2' ∧
                is_Some (time_data c1') ∧ is_Some (time_data c2') ∧
                course1 k = course_ref c1' ∧ course2 k = course_ref c2').
Proof.
  intros Hlt Hi Hj Ht1 Ht2.
  assert (Hchar : ∀ k, (i, j, k) ∈ detect_conflicts_indexed courses ↔
                       overlaps t1 t2 = true ∧ k = conflict_of c1 t1 c2 t2).
  { intros k. rewrite elem_of_detect_conflicts_indexed. split.
    - intros (_ & c1' & c2' & t1' & t2' & Hi' & Hj' & Ht1' & Ht2' & Hov & ->).
      by simplify_eq.
    - intros [Hov ->]. split; [done|]. by exists c1, c2, t1, t2. }
  split_and!.
  - pose proof (overlaps_spec t1 t2) as Hs. unfold shared_days in Hs.
    rewrite <- Hs. split.
    + intros [k Hk]. by apply Hchar in Hk as [? _].
    + intros Hov. eexists. by apply Hchar.
  - intros k Hk. split; [by apply Hchar in Hk as [_ ?]|].
    unfold Models.detect_conflicts. apply list_elem_of_fmap. by exists (i, j, k).
  - intros Htouch k [Hov _]%Hchar. apply overlaps_spec in Hov. lia.
  - intros Hdisj k [Hov _]%Hchar. apply overlaps_spec in Hov as [Hne _].
    apply Hne. unfold shared_days. apply disjoint_intersection_L, Hdisj.
  - intros i' j' k Hk. apply elem_of_detect_conflicts_indexed in Hk
      as (Hlt' & c1' & c2' & t1' & t2' & Hi' & Hj' & Ht1' & Ht2' & _ & ->).
    split; [done|]. exists c1', c2'. rewrite Ht1', Ht2'. eauto 10.
Qed.

End Conflicts.

(** The three scenarios of the specification: overlap on shared days,
    disjoint day sets, back-to-back on the same day. *)
Example conflict_shared_days_overlap :
  (λ x, x.1) <$> detect_conflicts_indexed seed_a
    [selected "10001" "M W 08:30 AM-10:45 AM";
     selected "10002" "M W 10:30 AM-11:40 AM"] = [(0, 1)].
Proof. vm_compute. reflexivity. Qed.

Example conflict_disjoint_days :
  detect_conflicts seed_a
    [selected "10001" "M W 08:30 AM-10:45 AM";
     selected "10002" "T F 10:30 AM-11:40 AM"] = [].
Proof. vm_compute. reflexivity. Qed.

Example conflict_back_to_back :
  detect_conflicts seed_a
    [selected "10001" "M 08:30 AM-10:00 AM";
     selected "10002" "M 10:00 AM-11:30 AM"] = [].
Proof. vm_compute. reflexivity. Qed.

Lemma detect_conflicts_pair_iff_witness :
  let courses := [selected "10001" "M W 08:30 AM-10:45 AM";
                  selected "10002" "TBA";
                  selected "10003" "M W 10:30 AM-11:40 AM"] in
  ∃ c1 c2 t1 t2 k,
    courses !! 0 = Some c1 ∧ courses !! 2 = Some c2 ∧
    time_data c1 = Some t1 ∧ time_data c2 = Some t2 ∧
    k = conflict_of seed_a c1 t1 c2 t2 ∧ k ∈ detect_conflicts seed_a courses.
Proof.
  intros courses.
  destruct (parse_class_time "M W 08:30 AM-10:45 AM") as [t1|] eqn:E1;
    [|by vm_compute in E1].
  destruct (parse_class_time "M W 10:30 AM-11:40 AM") as [t2|] eqn:E2;
    [|by vm_compute in E2].
  exists (selected "10001" "M W 08:30 AM-10:45 AM"),
         (selected "10003" "M W 10:30 AM-11:40 AM"), t1, t2.
  pose proof (detect_conflicts_pair_iff seed_a courses 0 2 _ _ t1 t2
                ltac:(lia) eq_refl eq_refl E1 E2) as (Hiff & Hrec & _).
  destruct (proj2 Hiff) as [k Hk].
  { vm_compute in E1, E2. injection E1 as <-. injection E2 as <-.
    split; [|simpl; lia]. vm_compute. discriminate. }
  exists k. destruct (Hrec k Hk) as [-> Hin]. done.
Defined.

(** The records of two processes, pair by pair. *)
Lemma detect_conflicts_indexed_runs (R : relation Conflict)
    (run1 run2 : list ascii → list ascii → list ascii) (courses : list Course) :
  (∀ c1 t1 c2 t2, R (Models.conflict_of run1 c1 t1 c2 t2)
                    (Models.conflict_of run2 c1 t1 c2 t2)) →
  Forall2 (λ x y, x.1 = y.1 ∧ R x.2 y.2)
          (Models.detect_conflicts_indexed run1 courses)
          (Models.detect_conflicts_indexed run2 courses).
Proof.
  intros HR. unfold Models.detect_conflicts_indexed.
  assert (Hinner : ∀ c1 t1 later from,
    Forall2 (λ x y : nat * nat * Conflict, x.1 = y.1 ∧ R x.2 y.2)
      ('(j, c2) ← enumerate from later;
       match time_data c2 with
       | None => []
       | Some t2 =>
           if overlaps t1 t2
           then [(c1.1, j, Models.conflict_of run1 c1.2 t1 c2 t2)] else []
       end)
      ('(j, c2) ← enumerate from later;
       match time_data c2 with
       | None => []
       | Some t2 =>
           if overlaps t1 t2
           then [(c1.1, j, Models.conflict_of run2 c1.2 t1 c2 t2)] else []
       end)).
  { intros c1 t1 later. induction later as [|c2 later IHl]; intros from;
      [constructor|].
    cbn [enumerate]. rewrite !bind_cons. apply Forall2_app; [|apply IHl].
    destruct (time_data c2) as [t2|]; [|constructor].
    destruct (overlaps t1 t2); [|constructor].
    constructor; [|constructor]. split; [done | apply HR]. }
  assert (Houter : ∀ all some start,
    Forall2 (λ x y : nat * nat * Conflict, x.1 = y.1 ∧ R x.2 y.2)
      ('(i, c1) ← enumerate start some;
       match time_data c1 with
       | None => []
       | Some t1 =>
           '(j, c2) ← enumerate (i + 1) (drop (i + 1) all);
           match time_data c2 with
           | None => []
           | Some t2 =>
               if overlaps t1 t2
               then [(i, j, Models.conflict_of run1 c1 t1 c2 t2)] else []
           end
       end)
      ('(i, c1) ← enumerate start some;
       match time_data c1 with
       | None => []
       | Some t1 =>
           '(j, c2) ← enumerate (i + 1) (drop (i + 1) all);
           match time_data c2 with
           | None => []
           | Some t2 =>
               if overlaps t1 t2
               then [(i, j, Models.conflict_of run2 c1 t1 c2 t2)] else []
           end
       end)).
  { intros all some. induction some as [|c1 rest IH]; intros start;
      [constructor|].
    cbn [enumerate]. rewrite !bind_cons. apply Forall2_app; [|apply IH].
    destruct (time_data c1) as [t1|]; [|constructor].
    apply (Hinner (start, c1) t1). }
  apply Houter.
Qed.

Lemma same_conflict_runs (run1 run2 : list ascii → list ascii → list ascii)
    (c1 c2 : Course) (t1 t2 : TimeData) :
  lists_shared_days run1 → lists_shared_days run2 →
  same_conflict (Models.conflict_of run1 c1 t1 c2 t2)
                (Models.conflict_of run2 c1 t1 c2 t2).
Proof.
  intros H1 H2. unfold same_conflict, Models.conflict_of. cbn.
  split_and!; try done. by rewrite (H1 _ _), (H2 _ _).
Qed.

Lemma seed_a_lists : lists_shared_days seed_a.
Proof. by intros d1 d2. Qed.

Lemma seed_b_lists : lists_shared_days seed_b.
Proof. intros d1 d2. unfold seed_b. by rewrite reverse_Permutation. Qed.

(** C9, as the code has it. The detector reports the pairs of positions
    i < j whose sections both carry an interval and overlap, each pair
    once, in the order of the pairs: first index ascending, then second
    index ascending; the record of a pair is the one built from its two
    sections. Two processes given the same section list report the same
    pairs in the same order, each record with the same two sections, the
    same two times and the same days; the days of a record are listed in
    the order in which the process iterates over their set, which may
    differ between the two. When the two processes iterate in the same
    order, the two output lists are identical. *)
Theorem detect_conflicts_order_stable
    (run1 run2 : list ascii → list ascii → list ascii) (courses : list Course) :
  lists_shared_days run1 → lists_shared_days run2 →
  StronglySorted pair_lt
    ((λ x, x.1) <$> Models.detect_conflicts_indexed run1 courses) ∧
  (λ x, x.1) <$> Models.detect_conflicts_indexed run1 courses =
    (λ x, x.1) <$> Models.detect_conflicts_indexed run2 courses ∧
  Forall2 same_conflict (Models.detect_conflicts run1 courses)
                        (Models.detect_conflicts run2 courses) ∧
  ((∀ days1 days2, run1 days1 days2 = run2 days1 days2) →
   Models.detect_conflicts run1 courses = Models.detect_conflicts run2 courses) ∧
  (∀ i j k,
     (i, j, k) ∈ Models.detect_conflicts_indexed run1 courses ↔
     i < j ∧ ∃ c1 c2 t1 t2,
       courses !! i = Some c1 ∧ courses !! j = Some c2 ∧
       time_data c1 = Some t1 ∧ time_data c2 = Some t2 ∧
       overlaps t1 t2 = true ∧ k = Models.conflict_of run1 c1 t1 c2 t2) ∧
  Models.detect_conflicts run1 courses =
    (λ x, x.2) <$> Models.detect_conflicts_indexed run1 courses.
Proof.
  intros H1 H2.
  pose proof (detect_conflicts_indexed_runs same_conflict run1 run2 courses
                (λ c1 t1 c2 t2, same_conflict_runs run1 run2 c1 c2 t1 t2 H1 H2))
    as Hruns.
  split_and!.
  - eapply StronglySorted_fmap; [|apply detect_conflicts_indexed_sorted].
    by intros x y Hxy.
  - induction Hruns as [|x y l1 l2 [Hxy _] _ IH]; [done|].
    rewrite !fmap_cons. by f_equal.
  - unfold Models.detect_conflicts.
    induction Hruns as [|x y l1 l2 [_ Hxy] _ IH]; [constructor|].
    rewrite !fmap_cons. by constructor.
  - intros Hsame. unfold Models.detect_conflicts. f_equal.
    assert (Heq : ∀ c1 t1 c2 t2, Models.conflict_of run1 c1 t1 c2 t2 =
                                 Models.conflict_of run2 c1 t1 c2 t2).
    { intros. unfold Models.conflict_of. by rewrite Hsame. }
    pose proof (detect_conflicts_indexed_runs eq run1 run2 courses Heq) as Hall.
    clear -Hall. induction Hall as [|[p k1] [q k2] l1 l2 [Hp Hk] _ IH]; [done|].
    cbn in Hp, Hk. by subst.
  - apply elem_of_detect_conflicts_indexed.
  - reflexivity.
Qed.

Lemma detect_conflicts_order_stable_witness :
  let courses := [selected "10001" "M W 08:30 AM-10:45 AM";
                  selected "10002" "M W 10:30 AM-11:40 AM"] in
  (λ x, x.1) <$> Models.detect_conflicts_indexed seed_a courses = [(0, 1)] ∧
  Forall2 same_conflict (Models.detect_conflicts seed_a courses)
                        (Models.detect_conflicts seed_b courses).
Proof.
  intros courses.
  destruct (detect_conflicts_order_stable seed_a seed_b courses
              seed_a_lists seed_b_lists) as (_ & _ & Hsame & _).
  split; [vm_compute; reflexivity | exact Hsame].
Defined.

(** C9, as the specification words it, fails: two processes that iterate
    over the shared days in different orders, as happens under different
    hash seeds, give different output lists for the same section list. *)
Lemma detect_conflicts_days_order_differs :
  let courses := [selected "10001" "M W 08:30 AM-10:45 AM";
                  selected "10002" "M W 10:30 AM-11:40 AM"] in
  lists_shared_days seed_a ∧ lists_shared_days seed_b ∧
  conflicting_days <$> Models.detect_conflicts seed_a courses ≠
  conflicting_days <$> Models.detect_conflicts seed_b courses ∧
  Models.detect_conflicts seed_a courses ≠ Models.detect_conflicts seed_b courses.
Proof.
  intros courses.
  assert (Hdays : conflicting_days <$> Models.detect_conflicts seed_a courses ≠
                  conflicting_days <$> Models.detect_conflicts seed_b courses).
  { vm_compute. discriminate. }
  split_and!; [apply seed_a_lists | apply seed_b_lists | exact Hdays |].
  intros Heq. apply Hdays. by rewrite Heq.
Qed.

(** C2. The documented example parses to days M, W from 510 to 645, 135
    minutes long; "TBA" and the empty string give no interval. *)
Theorem parse_class_time_examples :
  parse_class_time "M W 08:30 AM-10:45 AM" =
    Some {| days := ["M"%char; "W"%char];
            day_names := ["Monday"; "Wednesday"];
            start_time := "08:30 AM";
            end_time := "10:45 AM";
            start_minutes := 510;
            end_minutes := 645;
            duration_minutes := 135 |} ∧
  parse_class_time "TBA" = None ∧
  parse_class_time "" = None.
Proof. split_and!; vm_compute; reflexivity. Qed.

End ModelsProps.

(** ** Properties of scraper_module.py *)

Module ScraperProps.
Import Scraper.

(** *** Name matching *)

Lemma head_first_of (parts : list string) :
  1 ≤ length parts → head parts = Some (first_of parts).
Proof. destruct parts; simpl; [lia | done]. Qed.

Lemma last_last_of (parts : list string) :
  1 ≤ length parts → last parts = Some (last_of parts).
Proof.
  intros Hlen. unfold last_of. destruct (last parts) eqn:E; [done|].
  apply last_None in E. subst. simpl in Hlen. lia.
Qed.

Lemma match_professor_name_strict_tokens (search_name card_name : string) :
  match_professor_name_strict search_name card_name = true ↔
  tokens_match (normalize_name search_name) (normalize_name card_name).
Proof.
  unfold match_professor_name_strict, tokens_match.
  set (s := normalize_name search_name). set (c := normalize_name card_name).
  destruct (Nat.ltb_spec (length s) 2) as [Hs|Hs]; [split; [done | lia]|].
  destruct (Nat.ltb_spec (length c) 2) as [Hc|Hc]; [split; [done | lia]|].
  rewrite !head_first_of, !last_last_of by lia.
  replace (2 <=? length c) with true by (symmetry; apply Nat.leb_le; lia).
  destruct (String.eqb_spec (first_of s) (first_of c)) as [Hf|Hf];
  destruct (String.eqb_spec (last_of s) (last_of c)) as [Hl|Hl];
  destruct (String.eqb_spec (first_of s) (last_of c)) as [Hfl|Hfl];
  destruct (String.eqb_spec (last_of s) (first_of c)) as [Hlf|Hlf];
  simpl; split; intros H; try done; try (split_and!; [lia | lia | ]);
  try (left; split; congruence); try (right; split; congruence);
  try (destruct H as (_ & _ & [[[= ?] [= ?]] | [[= ?] [= ?]]]); congruence).
Qed.

Lemma tokens_match_sym (s c : list string) : tokens_match s c ↔ tokens_match c s.
Proof. unfold tokens_match. intuition congruence. Qed.

(** C3. The matcher answers true exactly when both normalized sequences
    have at least two tokens and first and last tokens agree, either in the
    same order or swapped; with the four documented examples. *)
Theorem match_professor_name_strict_iff :
  (∀ search_name card_name,
     match_professor_name_strict search_name card_name = true ↔
     let s := normalize_name search_name in
     let c := normalize_name card_name in
     2 ≤ length s ∧ 2 ≤ length c ∧
     ((head s = head c ∧ last s = last c) ∨
      (head s = last c ∧ last s = head c))) ∧
  match_professor_name_strict "Clare Nguyen" "Clare M. Nguyen" = true ∧
  match_professor_name_strict "Clare Nguyen" "John Nguyen" = false ∧
  match_professor_name_strict "Roderic Taylor" "RodericTaylor" = true ∧
  match_professor_name_strict "Christopher Bradley" "Christopher N.Bradley" = true.
Proof.
  split; [|split_and!; vm_compute; reflexivity].
  intros search_name card_name. apply match_professor_name_strict_tokens.
Qed.

(** C10. The matcher is symmetric in its two arguments. *)
Theorem match_professor_name_strict_sym (a b : string) :
  match_professor_name_strict a b = match_professor_name_strict b a.
Proof.
  apply eq_true_iff_eq.
  rewrite !match_professor_name_strict_tokens. apply tokens_match_sym.
Qed.

(** *** The post-filter of normalize_name *)

Lemma filter_parts_from (parts : list string) (n start : nat) :
  (enumerate start parts ≫= λ '(i, p),
     let t := p_clean p in
     if 1 <? String.length t then [t]
     else if (String.length t =? 1) && (0 <? i) && (i <? n) then []
     else if String.length t =? 1 then [] else [])
  = filter (λ t, 1 < String.length t) (p_clean <$> parts).
Proof.
  revert start. induction parts as [|p parts IH]; intros start; [done|].
  cbn [enumerate]. rewrite bind_cons, IH, fmap_cons, filter_cons.
  destruct (Nat.ltb_spec 1 (String.length (p_clean p))) as [Hlt|Hge].
  - rewrite decide_True by done. done.
  - rewrite decide_False by lia.
    by destruct ((String.length (p_clean p) =? 1) && (0 <? start) && (start <? n)),
                (String.length (p_clean p) =? 1).
Qed.

(** C4, as the code has it. The post-filter keeps the cleaned tokens of two
    characters or more, in order, and discards every other token at every
    position: a single-letter token is discarded at the first and at the
    last position as it is in between. *)
Theorem filter_parts_keeps_long_tokens (parts : list string) :
  filter_parts parts = filter (λ t, 1 < String.length t) (p_clean <$> parts) ∧
  (∀ t, t ∈ filter_parts parts → 2 ≤ String.length t) ∧
  (∀ t, t ∈ normalize_name "J Smith" ∨ t ∈ normalize_name "Clare N" →
        2 ≤ String.length t).
Proof.
  assert (Heq : filter_parts parts
                = filter (λ t, 1 < String.length t) (p_clean <$> parts))
    by apply filter_parts_from.
  split_and!; [done | |].
  - intros t. rewrite Heq. intros [Hlen _]%list_elem_of_filter. lia.
  - intros t. vm_compute. intros [H|H]; apply list_elem_of_singleton in H;
      subst; simpl; lia.
Qed.

(** C4, as the specification words it, fails: a single letter in first
    position is discarded, not retained. *)
Lemma filter_parts_drops_leading_initial :
  normalize_name "J Smith" = ["smith"] ∧
  filter_parts ["J"; "Smith"] = ["smith"] ∧
  post_filter_spec ["J"; "Smith"] = ["j"; "smith"] ∧
  filter_parts ["Clare"; "N"] = ["clare"] ∧
  post_filter_spec ["Clare"; "N"] = ["clare"; "n"].
Proof. split_and!; vm_compute; reflexivity. Qed.

(** *** De-duplication by CRN *)

Lemma unique_from_sublist (seen : gset string) (courses : list CourseInfo) :
  sublist (unique_from seen courses) courses.
Proof.
  revert seen. induction courses as [|c rest IH]; intros seen; simpl.
  - constructor.
  - destruct (_ || _); [apply sublist_skip | apply sublist_cons]; apply IH.
Qed.

(** [seen_crns] holds the CRNs of the records already passed. *)
Lemma unique_from_first_by_crn (rest pre : list CourseInfo) :
  unique_from (list_to_set (crn <$> pre)) rest =
  (λ p, p.2) <$> filter (λ p, keeps (pre ++ rest) p.1 p.2)
                        (enumerate (length pre) rest).
Proof.
  revert pre. induction rest as [|c rest IH]; intros pre; [done|].
  cbn [unique_from enumerate]. rewrite filter_cons. cbn [fst snd].
  assert (Hkeep : keeps (pre ++ c :: rest) (length pre) c =
                  bool_decide (crn c ∉ (list_to_set (crn <$> pre) : gset string))
                  || String.eqb (crn c) "N/A").
  { unfold keeps. rewrite take_app_length, orb_comm. f_equal.
    apply bool_decide_ext. by rewrite elem_of_list_to_set. }
  assert (Htail : (λ p, p.2) <$> filter (λ p, keeps (pre ++ c :: rest) p.1 p.2)
                                        (enumerate (S (length pre)) rest)
                  = unique_from (list_to_set (crn <$> (pre ++ [c]))) rest).
  { rewrite IH, length_app, Nat.add_1_r. by rewrite <- app_assoc. }
  rewrite <- Hkeep.
  destruct (keeps (pre ++ c :: rest) (length pre) c) eqn:Hk.
  - rewrite decide_True by done. rewrite fmap_cons, Htail. cbn [snd]. do 2 f_equal.
    rewrite fmap_app, list_to_set_app_L. simpl.
    by rewrite (right_id_L ∅ (∪)), (comm_L (∪)).
  - rewrite decide_False by (simpl; tauto). rewrite Htail. f_equal.
    symmetry in Hkeep. apply orb_false_iff in Hkeep as [Hin _].
    apply bool_decide_eq_false in Hin. apply dec_stable in Hin.
    rewrite fmap_app, list_to_set_app_L. simpl. rewrite (right_id_L ∅ (∪)).
    symmetry. rewrite (comm_L (∪)).
    apply subseteq_union_1_L. by apply singleton_subseteq_l.
Qed.

(** C5. De-duplication keeps exactly the records whose CRN is "N/A" or is
    carried by no earlier record, in their original order: two records
    with CRN "12345" collapse to the first, two records with CRN "N/A"
    both stay. *)
Theorem unique_courses_first_by_crn (courses : list CourseInfo) :
  unique_courses courses = first_by_crn courses ∧
  sublist (unique_courses courses) courses ∧
  unique_courses [listed "12345" "Nguyen"; listed "12345" "Taylor"]
    = [listed "12345" "Nguyen"] ∧
  unique_courses [listed "N/A" "Nguyen"; listed "N/A" "Taylor"]
    = [listed "N/A" "Nguyen"; listed "N/A" "Taylor"].
Proof.
  split_and!.
  - apply (unique_from_first_by_crn courses []).
  - apply unique_from_sublist.
  - vm_compute. reflexivity.
  - vm_compute. reflexivity.
Qed.

(** *** The row extractor *)

Lemma orelse_Some {A} (x y : option A) (r : A) :
  orelse x y = Some r → x = Some r ∨ y = Some r.
Proof. destruct x; simpl; auto. Qed.

(** A repetition that succeeds hands over to its continuation after at
    least [lo] characters. *)
Lemma rep_Some {A} (p : cls) (g : bool) (k : option ascii → string → option A)
    (r : A) (s : string) (lo : nat) (hi : option nat) (prev : option ascii) :
  rep p lo hi g prev s k = Some r →
  ∃ prev' s', k prev' s' = Some r ∧ lo + String.length s' ≤ String.length s.
Proof.
  revert lo hi prev. induction s as [|c s IH]; intros lo hi prev H; simpl in H.
  - assert (Hstop : match lo with 0 => k prev EmptyString | S _ => None end = Some r).
    { destruct g; try apply orelse_Some in H as [H|H]; done. }
    destruct lo; [|done]. by exists prev, EmptyString.
  - assert (Hcases :
      match lo with 0 => k prev (String c s) | S _ => None end = Some r ∨
      match hi with
      | Some 0 => None
      | _ => if p c then rep p (pred lo) (pred <$> hi) g (Some c) s k else None
      end = Some r).
    { destruct g; apply orelse_Some in H as [H|H]; auto. }
    destruct Hcases as [Hstop|Hmore].
    + destruct lo; [|done]. exists prev, (String c s). split; [done | simpl; lia].
    + assert (Hrec : rep p (pred lo) (pred <$> hi) g (Some c) s k = Some r).
      { destruct hi as [[|n]|]; [done | |]; by destruct (p c). }
      apply IH in Hrec as (prev' & s' & Hk & Hlen).
      exists prev', s'. split; [done | simpl; lia].
Qed.

Lemma length_consumed (s s' : string) (n : nat) :
  n + String.length s' ≤ String.length s → n ≤ String.length (consumed s s').
Proof.
  intros Hlen. unfold consumed.
  assert (Hsub : ∀ t m, m ≤ String.length t →
                        String.length (String.substring 0 m t) = m).
  { induction t as [|c t IHt]; intros [|m] Hm; simpl in *; try lia.
    rewrite IHt; lia. }
  rewrite Hsub; lia.
Qed.

(** A CRN match captures five characters. *)
Lemma crn_match_group (prev : option ascii) (s : string) (m : found) :
  match_at CRN_PATTERN prev s = Some m → Str.truthy (group 1 m) = true.
Proof.
  unfold match_at, CRN_PATTERN, exactly. cbn [run]. intros H.
  destruct (xorb _ _); [|done].
  apply rep_Some in H as (prev' & s' & Hk & Hlen).
  destruct (xorb _ _); [|done]. injection Hk as <-. simpl.
  apply (length_consumed s s' 5) in Hlen.
  destruct (consumed s s'); [simpl in Hlen; lia | done].
Qed.

Lemma search_from_Some (r : regex) (s : string) (prev : option ascii) (m : found) :
  search_from r prev s = Some m → ∃ prev' s', match_at r prev' s' = Some m.
Proof.
  revert prev. induction s as [|c s IH]; intros prev; simpl.
  - destruct (match_at r prev EmptyString) eqn:E; [|done]. intros [= <-]. eauto.
  - destruct (match_at r prev (String c s)) eqn:E.
    + intros [= <-]. eauto.
    + apply IH.
Qed.

Lemma crn_search_group (text : string) (m : found) :
  Re.search CRN_PATTERN text = Some m → Str.truthy (group 1 m) = true.
Proof.
  intros (prev & s & H)%search_from_Some. by apply crn_match_group in H.
Qed.

Lemma scan_cell_crn (course_code : string) (st : Scan) (cell : Cell) :
  truthy (s_crn (scan_cell course_code st cell)) =
  truthy (s_crn st) || is_some_match (Re.search CRN_PATTERN (cell_text cell)).
Proof.
  unfold scan_cell. cbn [s_crn].
  destruct (truthy (s_crn st)) eqn:Hst; simpl; [done|].
  destruct (Re.search CRN_PATTERN (cell_text cell)) as [m|] eqn:Hm; simpl.
  - by apply crn_search_group in Hm.
  - done.
Qed.

Lemma scan_cells_crn (course_code : string) (cells : list Cell) (st : Scan) :
  truthy (s_crn (fold_left (scan_cell course_code) cells st)) =
  truthy (s_crn st) ||
  existsb (λ cell, is_some_match (Re.search CRN_PATTERN (cell_text cell))) cells.
Proof.
  revert st. induction cells as [|cell cells IH]; intros st; simpl.
  - by rewrite orb_false_r.
  - by rewrite IH, scan_cell_crn, orb_assoc.
Qed.

(** Without a directory link and without a name-shaped text in any cell,
    [professor] stays unset. *)
Lemma scan_cells_no_professor (course_code : string) (cells : list Cell) (st : Scan) :
  truthy (s_professor st) = false →
  (∀ cell, cell ∈ cells →
     prof_link cell = None ∧ looks_like_name (cell_text cell) = false) →
  truthy (s_professor (fold_left (scan_cell course_code) cells st)) = false.
Proof.
  revert st. induction cells as [|cell cells IH]; intros st Hst Hcells; [done|].
  simpl. apply IH.
  - destruct (Hcells cell) as [Hlink Hname]; [left|].
    unfold scan_cell. cbn [s_professor]. rewrite Hst, Hlink, Hname. simpl.
    by destruct (_ && _).
  - intros c Hc. apply Hcells. by right.
Qed.

(** Without a time range and without "TBA" in any cell, [time_str] stays
    unset. *)
Lemma scan_cells_no_time (course_code : string) (cells : list Cell) (st : Scan) :
  truthy (s_time_str st) = false →
  (∀ cell, cell ∈ cells →
     Re.search TIME_PATTERN (cell_text cell) = None ∧
     Str.contains "TBA" (Str.upper (cell_text cell)) = false) →
  truthy (s_time_str (fold_left (scan_cell course_code) cells st)) = false.
Proof.
  revert st. induction cells as [|cell cells IH]; intros st Hst Hcells; [done|].
  simpl. apply IH.
  - destruct (Hcells cell) as [Htime Htba]; [left|].
    unfold scan_cell. cbn [s_time_str]. by rewrite Hst, Htime, Htba.
  - intros c Hc. apply Hcells. by right.
Qed.

Lemma or_else_truthy (o : option string) (d : string) :
  Str.truthy d = true → Str.truthy (or_else o d) = true.
Proof.
  intros Hd. unfold or_else. destruct o as [s|]; [|done].
  by destruct (Str.truthy s) eqn:Hs.
Qed.

Lemma or_else_default (o : option string) (d : string) :
  truthy o = false → or_else o d = d.
Proof. unfold or_else, truthy. destruct o as [s|]; [|done]. by intros ->. Qed.

Lemma truthy_nonempty (s : string) : Str.truthy s = true → s ≠ "".
Proof. by destruct s. Qed.

Lemma combine_time_unset (st : Scan) :
  truthy (s_time_str st) = false → truthy (combine_time st) = false.
Proof.
  unfold combine_time, truthy. destruct (s_time_str st) as [t|]; [|done].
  by intros ->.
Qed.

(** C6. The row extractor returns a record exactly when some cell of the
    row holds a CRN token. In a returned record the CRN, the professor, the
    class time and the format are non-empty; the professor is "TBA" when
    the pass found none, the class time is "TBA" when it found no time, the
    format is "Unknown" when no format marker is in the row. *)
Theorem extract_course_from_row_emits (row : Row) (course_code : string) :
  (is_Some (_extract_course_from_row row course_code) ↔
     ∃ cell, cell ∈ cells row ∧
             is_Some (Re.search CRN_PATTERN (cell_text cell))) ∧
  (∀ r, _extract_course_from_row row course_code = Some r →
     let st := scan_row course_code row in
     course r = course_code ∧
     crn r ≠ "" ∧ professor r ≠ "" ∧ class_time r ≠ "" ∧ format r ≠ "" ∧
     (truthy (s_professor st) = false → professor r = "TBA") ∧
     (truthy (s_time_str st) = false → class_time r = "TBA") ∧
     (row_format row = None → format r = "Unknown") ∧
     ((∀ cell, cell ∈ cells row →
         prof_link cell = None ∧ looks_like_name (cell_text cell) = false) →
      professor r = "TBA") ∧
     ((∀ cell, cell ∈ cells row →
         Re.search TIME_PATTERN (cell_text cell) = None ∧
         Str.contains "TBA" (Str.upper (cell_text cell)) = false) →
      class_time r = "TBA")).
Proof.
  unfold _extract_course_from_row.
  pose proof (scan_cells_crn course_code (cells row) scan_init) as Hcrn.
  fold (scan_row course_code row) in Hcrn. simpl in Hcrn.
  set (st := scan_row course_code row) in *.
  split.
  - rewrite Hcrn. split.
    + intros Hsome.
      destruct (existsb _ (cells row)) eqn:Hex; [|by destruct Hsome].
      apply existsb_exists in Hex as (cell & Hin & Hm).
      exists cell. split; [by apply list_elem_of_In|].
      by destruct (Re.search CRN_PATTERN (cell_text cell)).
    + intros (cell & Hin & [m Hm]).
      assert (Hex : existsb (λ cell, is_some_match
                       (Re.search CRN_PATTERN (cell_text cell))) (cells row) = true).
      { apply existsb_exists. exists cell. split; [by apply list_elem_of_In|].
        by rewrite Hm. }
      rewrite Hex. eauto.
  - intros r Hr. destruct (truthy (s_crn st)) eqn:Hfound; [|done].
    injection Hr as <-. cbn [course crn professor class_time format].
    split_and!.
    + done.
    + unfold truthy in Hfound. destruct (s_crn st) as [c|]; [|done].
      by apply truthy_nonempty.
    + by apply truthy_nonempty, or_else_truthy.
    + by apply truthy_nonempty, or_else_truthy.
    + by apply truthy_nonempty, or_else_truthy.
    + apply or_else_default.
    + intros Ht. by apply or_else_default, combine_time_unset.
    + by intros ->.
    + intros Hcells. apply or_else_default.
      by apply (scan_cells_no_professor course_code (cells row) scan_init).
    + intros Hcells. apply or_else_default, combine_time_unset.
      by apply (scan_cells_no_time course_code (cells row) scan_init).
Qed.

(** *** The fetch loop *)

Section FetcherProps.
Context {Soup : Type}.
Variable BeautifulSoup : string → Soup.
Variable title_text : Soup → option string.
Variable url : string.
Variable max_retries : nat.

Local Abbreviation check := (check_response BeautifulSoup title_text).
Local Abbreviation loop := (fetch_loop BeautifulSoup title_text url max_retries).

Lemma backoff_from_S (a k : nat) :
  backoff_from url a (S k) =
  [Get url; Sleep ((a + 1) * 2)] ++ backoff_from url (S a) k.
Proof. unfold backoff_from. cbn [seq]. by rewrite bind_cons. Qed.

Lemma fetch_loop_step (attempt : nat) (todo : list nat)
    (last : option FetchError) (w : World) :
  loop (attempt :: todo) last w =
  let w1 := {| client := client w; requests := S (requests w);
               log := log w ++ [Get url] |} in
  match check (client w (requests w) url) with
  | inr soup => (inr soup, w1)
  | inl e =>
      loop todo (Some e)
        (if attempt <? max_retries - 1
         then {| client := client w; requests := S (requests w);
                 log := (log w ++ [Get url]) ++ [Sleep ((attempt + 1) * 2)] |}
         else w1)
  end.
Proof.
  cbn [fetch_loop]. unfold mbind, M_bind, mret, M_ret, scraper_get, sleep.
  cbn zeta. destruct (check _); [|done].
  by destruct (attempt <? max_retries - 1).
Qed.

(** Attempt [k] succeeds after the attempts before it failed. *)
Lemma fetch_loop_success (k : nat) (soup : Soup) (m a : nat)
    (last : option FetchError) (w : World) :
  requests w = a → a + m = max_retries → a ≤ k → k < max_retries →
  (∀ i, a ≤ i → i < k → ∃ e, check (client w i url) = inl e) →
  check (client w k url) = inr soup →
  loop (seq a m) last w =
  (inr soup, {| client := client w; requests := S k;
                log := log w ++ backoff_from url a (k - a) ++ [Get url] |}).
Proof.
  revert a last w. induction m as [|m IH]; intros a last w Hreq Hsum Hle Hlt Hfail Hok.
  - lia.
  - cbn [seq]. rewrite fetch_loop_step, Hreq. cbn zeta.
    destruct (decide (a = k)) as [->|Hne].
    + rewrite Hok, Nat.sub_diag. done.
    + destruct (Hfail a) as [e He]; [lia | lia |]. rewrite He.
      replace (a <? max_retries - 1) with true
        by (symmetry; apply Nat.ltb_lt; lia).
      rewrite (IH (S a)); cbn [client requests log]; try done; try lia.
      * replace (k - a) with (S (k - S a)) by lia.
        rewrite backoff_from_S. by rewrite <- !app_assoc.
      * intros i Hi1 Hi2. apply Hfail; lia.
Qed.

(** Every attempt fails. *)
Lemma fetch_loop_exhausted (m a : nat) (last : option FetchError) (w : World) :
  requests w = a → a + m = max_retries →
  (∀ i, a ≤ i → i < max_retries → ∃ e, check (client w i url) = inl e) →
  loop (seq a m) last w =
  (inl {| attempts_made := max_retries;
          last_error := match m with
                        | 0 => last
                        | S _ => cause (check (client w (max_retries - 1) url))
                        end |},
   {| client := client w; requests := max_retries;
      log := log w ++ exhausted_from url a m |}).
Proof.
  revert a last w. induction m as [|m IH]; intros a last w Hreq Hsum Hfail.
  - simpl. unfold mret, M_ret. destruct w as [c r l]. simpl in *.
    rewrite app_nil_r. do 2 f_equal. lia.
  - cbn [seq]. rewrite fetch_loop_step, Hreq. cbn zeta.
    destruct (Hfail a) as [e He]; [lia | lia |]. rewrite He.
    destruct m as [|m].
    + replace (a <? max_retries - 1) with false
        by (symmetry; apply Nat.ltb_ge; lia).
      simpl. unfold mret, M_ret.
      replace (max_retries - 1) with a by lia. rewrite He. simpl.
      do 3 f_equal. lia.
    + replace (a <? max_retries - 1) with true
        by (symmetry; apply Nat.ltb_lt; lia).
      rewrite (IH (S a)); cbn [client requests log]; try done; try lia.
      * do 2 f_equal. unfold exhausted_from. rewrite backoff_from_S.
        by rewrite <- !app_assoc.
      * intros i Hi1 Hi2. apply Hfail; lia.
Qed.

(** At most one request per attempt still to make. *)
Lemma fetch_loop_bound (todo : list nat) (last : option FetchError) (w : World) :
  ∃ events, log (loop todo last w).2 = log w ++ events ∧
            count_gets events ≤ length todo ∧
            requests (loop todo last w).2 ≤ requests w + length todo.
Proof.
  revert last w. induction todo as [|attempt todo IH]; intros last w.
  - exists []. simpl. rewrite app_nil_r. split_and!; [done | done | lia].
  - rewrite fetch_loop_step. cbn zeta. destruct (check _) as [e|soup].
    + destruct (attempt <? max_retries - 1).
      * destruct (IH (Some e)
          {| client := client w; requests := S (requests w);
             log := (log w ++ [Get url]) ++ [Sleep ((attempt + 1) * 2)] |})
          as (events & Hlog & Hcount & Hreq).
        exists ([Get url; Sleep ((attempt + 1) * 2)] ++ events).
        rewrite Hlog. cbn [log requests] in *. split_and!.
        -- by rewrite <- !app_assoc.
        -- unfold count_gets in *. rewrite filter_app, length_app. simpl. lia.
        -- simpl. lia.
      * destruct (IH (Some e)
          {| client := client w; requests := S (requests w);
             log := log w ++ [Get url] |})
          as (events & Hlog & Hcount & Hreq).
        exists ([Get url] ++ events).
        rewrite Hlog. cbn [log requests] in *. split_and!.
        -- by rewrite <- !app_assoc.
        -- unfold count_gets in *. rewrite filter_app, length_app. simpl. lia.
        -- simpl. lia.
    + exists [Get url]. cbn [snd log requests].
      split_and!; [done | change (1 ≤ S (length todo)) | simpl]; lia.
Qed.
End FetcherProps.

(** C7. [get_listings] makes at most [max_retries] requests. When attempt
    [k] is the first to pass the checks, the page of that attempt is
    returned after exactly k + 1 requests, each failed attempt i < k having
    been followed by a wait of (i + 1) * 2 seconds. When all [max_retries]
    attempts fail, one failure is raised that carries the cause of the last
    attempt, and no wait follows the last attempt. Three failures with
    [max_retries = 3] surface the third cause; success on the second
    attempt makes two requests. *)
Theorem get_listings_retries {Soup : Type} (BeautifulSoup : string → Soup)
    (title_text : Soup → option string)
    (server : nat → string → FetchError + Response)
    (max_retries : nat) (department term : string) :
  let url := listings_url department term in
  let check k := check_response BeautifulSoup title_text (server k url) in
  let run := get_listings BeautifulSoup title_text max_retries department term
               (start server) in
  (requests run.2 ≤ max_retries ∧ count_gets (log run.2) ≤ max_retries) ∧
  (∀ k soup,
     k < max_retries → (∀ i, i < k → ∃ e, check i = inl e) → check k = inr soup →
     run.1 = inr soup ∧ requests run.2 = S k ∧
     log run.2 = backoff url k ++ [Get url]) ∧
  ((∀ i, i < max_retries → ∃ e, check i = inl e) →
     run.1 = inl {| attempts_made := max_retries;
                    last_error := match max_retries with
                                  | 0 => None
                                  | S n => cause (check n)
                                  end |} ∧
     requests run.2 = max_retries ∧
     log run.2 = match max_retries with
                 | 0 => []
                 | S n => backoff url n ++ [Get url]
                 end) ∧
  (let failing := get_listings text_soup text_title 3 "MATH" "W2026" (start (flaky 3)) in
   failing.1 = inl {| attempts_made := 3;
                      last_error := Some (ClientError "timed out") |} ∧
   log failing.2 = [Get (listings_url "MATH" "W2026"); Sleep 2;
                    Get (listings_url "MATH" "W2026"); Sleep 4;
                    Get (listings_url "MATH" "W2026")]) ∧
  (let second := get_listings text_soup text_title 3 "MATH" "W2026" (start (flaky 1)) in
   second.1 = inr listings_page ∧ requests second.2 = 2 ∧
   log second.2 = [Get (listings_url "MATH" "W2026"); Sleep 2;
                   Get (listings_url "MATH" "W2026")]).
Proof.
  intros url check run. unfold get_listings in run. fold url in run.
  destruct (fetch_loop_bound BeautifulSoup title_text url max_retries
              (seq 0 max_retries) None (start server))
    as (events & Hlog & Hcount & Hreq).
  rewrite length_seq in Hcount, Hreq. fold run in Hlog, Hreq.
  split_and!.
  - exact Hreq.
  - rewrite Hlog. exact Hcount.
  - clear Hlog Hreq. intros k soup Hk Hfail Hok. subst run.
    rewrite (fetch_loop_success BeautifulSoup title_text url max_retries k soup
               max_retries 0); cbn [start client requests log fst snd];
      try done; try lia.
    + by rewrite Nat.sub_0_r.
    + intros i _ Hi. by apply Hfail.
  - clear Hlog Hreq. intros Hfail. subst run.
    rewrite (fetch_loop_exhausted BeautifulSoup title_text url max_retries
               max_retries 0); cbn [start client requests log fst snd];
      try done.
    + destruct max_retries as [|n]; [done|].
      by replace (S n - 1) with n by lia.
    + intros i _ Hi. by apply Hfail.
  - vm_compute. done.
  - vm_compute. done.
Qed.

(** A row with a CRN and nothing else gets the three sentinels; a row
    without a CRN gives no record, whatever else it holds. *)
Example extract_row_sentinels :
  _extract_course_from_row (row_of [plain "12345"; plain "MATH 1A"]) "MATH 1A" =
    Some {| course := "MATH 1A"; crn := "12345"; professor := "TBA";
            class_time := "TBA"; format := "Unknown" |} ∧
  _extract_course_from_row
    (row_of [plain "MATH 1A"; plain "Clare Nguyen"; plain "08:30 AM-10:45 AM"])
    "MATH 1A" = None.
Proof. split; vm_compute; reflexivity. Qed.

Example extract_row_full :
  _extract_course_from_row
    (row_of [plain "12345"; plain "MATH 1A";
             {| cell_text := "MW08:30 AM-10:45 AM"; days_span := Some "MW";
                prof_link := None |};
             {| cell_text := "Clare Nguyen"; days_span := None;
                prof_link := Some "Clare Nguyen" |};
             plain "Fully Online"])
    "MATH 1A" =
    Some {| course := "MATH 1A"; crn := "12345"; professor := "Clare Nguyen";
            class_time := "M W MW08:30 AM-10:45 AM"; format := "Online" |}.
Proof. vm_compute. reflexivity. Qed.

(** [parse_course_info] ends with the de-duplication of what it collected. *)
Lemma parse_course_info_dedup (re_compile : string → option (string → bool))
    (soup : Document) (course_code : string) (result : list CourseInfo) :
  parse_course_info re_compile soup course_code = inr result →
  ∃ courses, result = unique_courses courses ∧ sublist result courses.
Proof.
  unfold parse_course_info.
  destruct (match tables soup with [] => _ | _ => _ end) as [e|courses]; [done|].
  intros [= <-]. exists courses. split; [reflexivity|].
  apply unique_from_sublist.
Qed.

Example parse_course_info_same_crn :
  parse_course_info literal_compile
    {| page_text := "MATH 1A";
       tables := [[row_of [plain "12345"; plain "MATH 1A"; plain "Clare Nguyen"];
                   row_of [plain "12345"; plain "MATH 1A"; plain "Roderic Taylor"];
                   row_of [plain "54321"; plain "MATH 1A"; plain "Roderic Taylor"]]];
       text_nodes := [] |} "MATH 1A" =
  inr [ {| course := "MATH 1A"; crn := "12345"; professor := "Clare Nguyen";
           class_time := "TBA"; format := "Unknown" |};
        {| course := "MATH 1A"; crn := "54321"; professor := "Roderic Taylor";
           class_time := "TBA"; format := "Unknown" |} ].
Proof. vm_compute. reflexivity. Qed.

(** *** The rating resolver *)

(** C8, as the code has it. Once a card has matched and the review counts
    read as integers, the resolver returns no rating exactly when none of
    rating, review count and difficulty was extracted; the profile link
    alone does not make a result. Otherwise it returns the rating, the
    review count, the difficulty and the profile link, each as extracted
    or unset. *)
Theorem get_professor_ratings_found {float : Type}
    (py_float : string → option float) (int_max_str_digits : nat)
    (professor_name : string) (page : Page) (card : Card) (count : option Z) :
  find_matching_card professor_name (teacher_cards page) = Some card →
  found_num_ratings int_max_str_digits page card = inr count →
  let result := get_professor_ratings py_float int_max_str_digits professor_name
                  (Some (200%Z, page)) in
  (result = None ↔
     found_rating py_float page card = None ∧
     count = None ∧
     found_difficulty py_float page card = None) ∧
  (∀ r, result = Some r →
     rating r = found_rating py_float page card ∧
     num_ratings r = count ∧
     difficulty r = found_difficulty py_float page card ∧
     url r = professor_url card).
Proof.
  intros Hcard Hcount result. subst result. unfold get_professor_ratings.
  change (negb (200 =? 200)%Z) with false. cbn match.
  destruct (teacher_cards page) as [|c cards] eqn:Hcards; [done|].
  rewrite Hcard. unfold extract_ratings. rewrite Hcount.
  destruct (found_rating py_float page card) as [x|],
           count as [n|],
           (found_difficulty py_float page card) as [d|]; simpl;
    (split; [split; [try done; by intros (? & ? & ?) | try done; by intros (? & ? & ?)]
            | intros r [= <-]; done || done]).
Qed.

Lemma get_professor_ratings_found_witness :
  get_professor_ratings read_decimal default_max_str_digits "Clare Nguyen"
    (Some (200%Z, no_profile [full_card])) =
  Some {| rating := Some {| unscaled := 45; scale := 1 |};
          num_ratings := Some 65%Z;
          difficulty := Some {| unscaled := 31; scale := 1 |};
          url := Some "https://www.ratemyprofessors.com/professor/123456" |}.
Proof.
  destruct (get_professor_ratings_found read_decimal default_max_str_digits
              "Clare Nguyen" (no_profile [full_card]) full_card (Some 65%Z))
    as [_ Hfields].
  { vm_compute. reflexivity. }
  { vm_compute. reflexivity. }
  destruct (get_professor_ratings read_decimal default_max_str_digits "Clare Nguyen"
              (Some (200%Z, no_profile [full_card]))) as [r|] eqn:Hr;
    [|by vm_compute in Hr].
  destruct (Hfields r eq_refl) as (H1 & H2 & H3 & H4).
  destruct r as [r1 r2 r3 r4]. simpl in *. subst.
  vm_compute. reflexivity.
Defined.

(** C8, as the specification words it, fails: a matched card that yields
    the profile link and nothing else gives no rating. *)
Lemma get_professor_ratings_link_only :
  find_matching_card "Clare Nguyen" [bare_card] = Some bare_card ∧
  professor_url bare_card = Some "https://www.ratemyprofessors.com/professor/123456" ∧
  get_professor_ratings read_decimal default_max_str_digits "Clare Nguyen"
    (Some (200%Z, no_profile [bare_card])) = None.
Proof. split_and!; vm_compute; reflexivity. Qed.

(** A review count that [int] refuses to read leaves the [try] as a
    [ValueError], and the resolver returns no rating although the card
    holds one. *)
Example get_professor_ratings_count_too_long :
  find_matching_card "Clare Nguyen" [long_count_card] = Some long_count_card ∧
  found_rating read_decimal (no_profile [long_count_card]) long_count_card =
    Some {| unscaled := 45; scale := 1 |} ∧
  get_professor_ratings read_decimal default_max_str_digits "Clare Nguyen"
    (Some (200%Z, no_profile [long_count_card])) = None ∧
  is_Some (get_professor_ratings read_decimal 0 "Clare Nguyen"
             (Some (200%Z, no_profile [long_count_card]))).
Proof.
  split_and!; [vm_compute; reflexivity.. |].
  destruct (get_professor_ratings read_decimal 0 "Clare Nguyen"
              (Some (200%Z, no_profile [long_count_card]))) eqn:H; [done|].
  by vm_compute in H.
Qed.

End ScraperProps.

(** ** Further properties of models.py *)

Module ModelsMore.
Import Models ModelsProps.

(** *** detect_conflicts, section by section *)

Section ConflictsMore.
(** The iteration order of the process. *)
Variable list_shared : list ascii → list ascii → list ascii.

Local Abbreviation conflict_of := (Models.conflict_of list_shared).
Local Abbreviation detect_conflicts := (Models.detect_conflicts list_shared).
Local Abbreviation conflicts_with := (Vocab.conflicts_with list_shared).
Local Abbreviation pairwise_conflicts := (Vocab.pairwise_conflicts list_shared).

Lemma indexed_inner_snd (i : nat) (c1 : Course) (t1 : TimeData)
    (l : list Course) (start : nat) :
  snd <$> (enumerate start l ≫= λ '(j, c2),
             match time_data c2 with
             | None => []
             | Some t2 =>
                 if overlaps t1 t2 then [(i, j, conflict_of c1 t1 c2 t2)] else []
             end)
  = l ≫= λ c2, match time_data c2 with
               | None => []
               | Some t2 => if overlaps t1 t2 then [conflict_of c1 t1 c2 t2] else []
               end.
Proof.
  revert start. induction l as [|c2 l IH]; intros start; [done|].
  cbn [enumerate]. rewrite !bind_cons, fmap_app, IH. f_equal.
  destruct (time_data c2) as [t2|]; [|done]. by destruct (overlaps t1 t2).
Qed.

Lemma indexed_outer_snd (l pre : list Course) :
  snd <$> (enumerate (length pre) l ≫= λ '(i, c1),
             match time_data c1 with
             | None => []
             | Some t1 =>
                 enumerate (i + 1) (drop (i + 1) (pre ++ l)) ≫= λ '(j, c2),
                   match time_data c2 with
                   | None => []
                   | Some t2 =>
                       if overlaps t1 t2
                       then [(i, j, conflict_of c1 t1 c2 t2)] else []
                   end
             end)
  = pairwise_conflicts l.
Proof.
  revert pre. induction l as [|c l IH]; intros pre; [done|].
  cbn [enumerate Vocab.pairwise_conflicts]. rewrite bind_cons, fmap_app. f_equal.
  - unfold Vocab.conflicts_with. destruct (time_data c) as [t1|]; [|done].
    rewrite indexed_inner_snd. f_equal.
    replace (drop (length pre + 1) (pre ++ c :: l)) with l; [done|].
    rewrite (drop_app_add' pre (c :: l) (length pre) 1) by done. done.
  - specialize (IH (pre ++ [c])). rewrite length_app, Nat.add_1_r in IH.
    rewrite <- app_assoc in IH. exact IH.
Qed.

Lemma detect_conflicts_pairwise (courses : list Course) :
  detect_conflicts courses = pairwise_conflicts courses.
Proof. apply (indexed_outer_snd courses []). Qed.

Lemma conflicts_with_sublist (c : Course) (l1 l2 : list Course) :
  sublist l1 l2 → sublist (conflicts_with c l1) (conflicts_with c l2).
Proof.
  intros Hsub. unfold Vocab.conflicts_with. destruct (time_data c) as [t1|]; [|done].
  induction Hsub as [|x l1 l2 Hsub IH|x l1 l2 Hsub IH]; [done| |].
  - rewrite !bind_cons. by apply sublist_app.
  - rewrite bind_cons. by apply sublist_inserts_l.
Qed.

(** X1. Conflicts are monotone in the section list: when sections are
    removed from a list (or, read the other way, added to it anywhere), every
    record of the smaller list is a record of the larger one, in the same
    relative order. Removing a section never creates a conflict, adding one
    never hides one. *)
Theorem detect_conflicts_monotone (small large : list Course) :
  sublist small large →
  sublist (detect_conflicts small) (detect_conflicts large).
Proof.
  rewrite !detect_conflicts_pairwise.
  intros Hsub. induction Hsub as [|x l1 l2 Hsub IH|x l1 l2 Hsub IH]; [done| |].
  - cbn [Vocab.pairwise_conflicts]. apply sublist_app; [|done].
    by apply conflicts_with_sublist.
  - cbn [Vocab.pairwise_conflicts]. by apply sublist_inserts_l.
Qed.

Lemma conflicts_with_no_interval (c x : Course) (rest : list Course) :
  time_data x = None → conflicts_with c (x :: rest) = conflicts_with c rest.
Proof.
  intros Hx. unfold Vocab.conflicts_with. destruct (time_data c); [|done].
  by rewrite bind_cons, Hx.
Qed.

Lemma conflicts_with_filter (c : Course) (rest : list Course) :
  conflicts_with c (filter has_interval rest) = conflicts_with c rest.
Proof.
  induction rest as [|x rest IH]; [done|]. rewrite filter_cons.
  destruct (time_data x) as [t|] eqn:Hx.
  - rewrite decide_True by (unfold has_interval; by rewrite Hx).
    unfold Vocab.conflicts_with in *.
    destruct (time_data c); [|done]. by rewrite !bind_cons, IH.
  - rewrite decide_False by (unfold has_interval; rewrite Hx; simpl; tauto).
    by rewrite IH, (conflicts_with_no_interval c x rest Hx).
Qed.

(** X2. Sections without a parsed interval are transparent: dropping them
    from the list leaves the output of [detect_conflicts] unchanged, record
    for record. *)
Theorem detect_conflicts_ignores_unparsed (courses : list Course) :
  detect_conflicts (filter has_interval courses) = detect_conflicts courses.
Proof.
  rewrite !detect_conflicts_pairwise.
  induction courses as [|c rest IH]; [done|]. rewrite filter_cons.
  destruct (time_data c) as [t|] eqn:Hc.
  - rewrite decide_True by (unfold has_interval; by rewrite Hc).
    cbn [Vocab.pairwise_conflicts]. by rewrite conflicts_with_filter, IH.
  - rewrite decide_False by (unfold has_interval; rewrite Hc; simpl; tauto).
    cbn [Vocab.pairwise_conflicts]. rewrite IH. unfold Vocab.conflicts_with. by rewrite Hc.
Qed.

Lemma overlaps_sym (t1 t2 : TimeData) : overlaps t1 t2 = overlaps t2 t1.
Proof.
  apply eq_true_iff_eq. rewrite !overlaps_spec. unfold shared_days.
  rewrite (comm_L (∩) (list_to_set (days t1))). intuition lia.
Qed.

Lemma length_conflicts_with_cons (c x : Course) (rest : list Course) :
  length (conflicts_with c (x :: rest)) =
  length (conflicts_with c [x]) + length (conflicts_with c rest).
Proof.
  unfold Vocab.conflicts_with. destruct (time_data c); [|done].
  rewrite !bind_cons, !length_app. simpl. lia.
Qed.

Lemma length_conflicts_with_swap (x y : Course) :
  length (conflicts_with x [y]) = length (conflicts_with y [x]).
Proof.
  unfold Vocab.conflicts_with.
  destruct (time_data x) as [tx|] eqn:Hx, (time_data y) as [ty|] eqn:Hy;
    rewrite ?bind_cons, ?Hx, ?Hy; try done.
  rewrite (overlaps_sym ty tx). by destruct (overlaps tx ty).
Qed.

Lemma length_conflicts_with_perm (c : Course) (l1 l2 : list Course) :
  l1 ≡ₚ l2 → length (conflicts_with c l1) = length (conflicts_with c l2).
Proof.
  intros Hperm. unfold Vocab.conflicts_with. destruct (time_data c); [|done].
  by rewrite Hperm.
Qed.

(** X3. The number of conflicts does not depend on the order in which the
    sections are listed: any rearrangement of the list gives as many
    records. In particular two sections conflict in one order exactly when
    they conflict in the other. *)
Theorem detect_conflicts_count_perm (courses courses' : list Course) :
  courses ≡ₚ courses' →
  length (detect_conflicts courses) = length (detect_conflicts courses').
Proof.
  rewrite !detect_conflicts_pairwise.
  intros Hperm. induction Hperm as [|x l1 l2 Hperm IH|x y l|l1 l2 l3 H12 IH12 H23 IH23].
  - done.
  - cbn [Vocab.pairwise_conflicts]. rewrite !length_app, IH.
    by rewrite (length_conflicts_with_perm x l1 l2 Hperm).
  - cbn [Vocab.pairwise_conflicts]. rewrite !length_app.
    rewrite (length_conflicts_with_cons y x l), (length_conflicts_with_cons x y l).
    rewrite (length_conflicts_with_swap x y). lia.
  - congruence.
Qed.

Lemma length_conflicts_with_le (c : Course) (rest : list Course) :
  length (conflicts_with c rest) ≤ length rest.
Proof.
  unfold Vocab.conflicts_with. destruct (time_data c) as [t1|]; [|simpl; lia].
  induction rest as [|x rest IH]; [done|]. rewrite bind_cons, length_app.
  destruct (time_data x) as [t2|]; [destruct (overlaps t1 t2)|]; simpl; lia.
Qed.

(** X4. [detect_conflicts] reports each pair of sections at most once: a
    list of n sections gives at most n(n-1)/2 records, so none for an empty
    list or a single section. *)
Theorem detect_conflicts_count_bound (courses : list Course) :
  2 * length (detect_conflicts courses) ≤ length courses * (length courses - 1) ∧
  (length courses ≤ 1 → detect_conflicts courses = []).
Proof.
  rewrite detect_conflicts_pairwise.
  assert (Hbound : 2 * length (pairwise_conflicts courses)
                   ≤ length courses * (length courses - 1)).
  { induction courses as [|c rest IH]; [done|].
    cbn [Vocab.pairwise_conflicts]. rewrite length_app.
    pose proof (length_conflicts_with_le c rest). simpl length.
    rewrite Nat.sub_succ, Nat.sub_0_r. nia. }
  split; [done|]. intros Hlen.
  apply length_zero_iff_nil.
  destruct courses as [|c [|c' rest]]; simpl in *; lia.
Qed.

(** X5. The [conflicting_days] of every record are the weekday letters the
    two sections have in common: each common letter once, no other letter,
    and at least one, in whatever order the process iterates over their
    set. *)
Theorem detect_conflicts_conflicting_days (courses : list Course) (k : Conflict) :
  lists_shared_days list_shared →
  k ∈ detect_conflicts courses →
  ∃ c1 c2 t1 t2,
    c1 ∈ courses ∧ c2 ∈ courses ∧
    time_data c1 = Some t1 ∧ time_data c2 = Some t2 ∧
    course1 k = course_ref c1 ∧ course2 k = course_ref c2 ∧
    NoDup (conflicting_days k) ∧ conflicting_days k ≠ [] ∧
    ∀ d, d ∈ conflicting_days k ↔ d ∈ days t1 ∧ d ∈ days t2.
Proof.
  intros Hlists.
  unfold Models.detect_conflicts. intros [[[i j] k'] [-> Hin]]%list_elem_of_fmap.
  apply elem_of_detect_conflicts_indexed in Hin
    as (_ & c1 & c2 & t1 & t2 & Hi & Hj & Ht1 & Ht2 & Hov & ->).
  exists c1, c2, t1, t2. simpl.
  apply overlaps_spec in Hov as [Hne _].
  pose proof (Hlists (days t1) (days t2)) as Hperm.
  split_and!; try done.
  - by eapply list_elem_of_lookup_2.
  - by eapply list_elem_of_lookup_2.
  - rewrite Hperm. apply NoDup_elements.
  - intros Hnil. rewrite Hnil in Hperm. symmetry in Hperm.
    apply Permutation_nil_r in Hperm.
    apply Hne. unfold shared_days.
    by apply elements_empty_inv in Hperm as ->%leibniz_equiv.
  - intros d. rewrite Hperm, elem_of_elements.
    by rewrite elem_of_intersection, !elem_of_list_to_set.
Qed.

End ConflictsMore.

Lemma detect_conflicts_monotone_witness :
  sublist (detect_conflicts seed_a [selected "10001" "M W 08:30 AM-10:45 AM";
                             selected "10003" "M W 10:30 AM-11:40 AM"])
          (detect_conflicts seed_a [selected "10001" "M W 08:30 AM-10:45 AM";
                             selected "10002" "M 10:00 AM-10:35 AM";
                             selected "10003" "M W 10:30 AM-11:40 AM"]).
Proof.
  apply detect_conflicts_monotone.
  apply sublist_skip, sublist_cons, sublist_skip, sublist_nil.
Defined.

Lemma detect_conflicts_count_perm_witness :
  length (detect_conflicts seed_a [selected "10001" "M W 08:30 AM-10:45 AM";
                            selected "10003" "M W 10:30 AM-11:40 AM"]) =
  length (detect_conflicts seed_a [selected "10003" "M W 10:30 AM-11:40 AM";
                            selected "10001" "M W 08:30 AM-10:45 AM"]).
Proof. apply detect_conflicts_count_perm. apply Permutation_swap. Defined.

Lemma detect_conflicts_conflicting_days_witness :
  ∃ k, k ∈ detect_conflicts seed_b [selected "10001" "M W 08:30 AM-10:45 AM";
                                    selected "10003" "W F 10:30 AM-11:40 AM"] ∧
       ∀ d, d ∈ conflicting_days k ↔ d = "W"%char.
Proof.
  assert (Hin : conflict_of seed_b
                  (selected "10001" "M W 08:30 AM-10:45 AM")
                  {| days := ["M"; "W"]%char; day_names := ["Monday"; "Wednesday"];
                     start_time := "08:30 AM"; end_time := "10:45 AM";
                     start_minutes := 510; end_minutes := 645;
                     duration_minutes := 135 |}
                  (selected "10003" "W F 10:30 AM-11:40 AM")
                  {| days := ["W"; "F"]%char; day_names := ["Wednesday"; "Friday"];
                     start_time := "10:30 AM"; end_time := "11:40 AM";
                     start_minutes := 630; end_minutes := 700;
                     duration_minutes := 70 |}
                ∈ detect_conflicts seed_b [selected "10001" "M W 08:30 AM-10:45 AM";
                                           selected "10003" "W F 10:30 AM-11:40 AM"]).
  { rewrite detect_conflicts_pairwise. vm_compute. left. }
  eexists. split; [exact Hin|].
  destruct (detect_conflicts_conflicting_days seed_b _ _ seed_b_lists Hin)
    as (c1 & c2 & t1 & t2 & _ & _ & _ & _ & _ & _ & _ & _ & _).
  intros d. simpl. vm_compute seed_b. rewrite list_elem_of_singleton. done.
Defined.

(** *** parse_class_time *)

Lemma consumed_app (g s' : string) : consumed (g +:+ s') s' = g.
Proof.
  unfold consumed.
  assert (Hlen : ∀ a b : string, String.length (a +:+ b) = String.length a + String.length b).
  { induction a as [|c a IHa]; intros b; simpl; [done | by rewrite IHa]. }
  rewrite Hlen. replace (String.length g + String.length s' - String.length s')
    with (String.length g) by lia.
  induction g as [|c g IH]; simpl.
  - by destruct s'.
  - by rewrite IH.
Qed.

Lemma between_code (lo hi c : ascii) :
  Str.between lo hi c = true →
  (Z.of_N (Str.code lo) ≤ Z.of_N (Str.code c) ≤ Z.of_N (Str.code hi))%Z.
Proof.
  unfold Str.between. intros [H1 H2]%andb_true_iff.
  apply N.leb_le in H1, H2. lia.
Qed.

Lemma digit_val_between (lo hi c : ascii) (a b : Z) :
  Str.between lo hi c = true →
  Z.of_N (Str.code lo) = (48 + a)%Z → Z.of_N (Str.code hi) = (48 + b)%Z → (0 ≤ a)%Z →
  (a ≤ Str.digit_val c ≤ b)%Z.
Proof.
  intros Hb Hlo Hhi Ha. pose proof (between_code lo hi c Hb).
  unfold Str.digit_val. lia.
Qed.

Lemma digit_val_one (a c : ascii) (v : Z) :
  one a c = true → Str.digit_val a = v → Str.digit_val c = v.
Proof. by intros <-%Ascii.eqb_eq. Qed.

Lemma int_of_two_digits (a b : ascii) :
  Str.int_of_digits (String a (String b EmptyString)) =
  (10 * Str.digit_val a + Str.digit_val b)%Z.
Proof. unfold Str.int_of_digits. simpl. lia. Qed.

Lemma int_of_one_digit (a : ascii) :
  Str.int_of_digits (String a EmptyString) = Str.digit_val a.
Proof. unfold Str.int_of_digits. simpl. lia. Qed.

Lemma hour_re_Some {A} (k : option ascii → string → list string → option A)
    (prev : option ascii) (s : string) (caps : list string) (x : A) :
  run HOUR_RE prev s caps k = Some x →
  ∃ g prev' s', s = g +:+ s' ∧ (1 ≤ Str.int_of_digits g ≤ 12)%Z ∧
                k prev' s' caps = Some x.
Proof.
  unfold HOUR_RE. cbn [run]. intros H.
  apply ScraperProps.orelse_Some in H as [H|H];
    [|apply ScraperProps.orelse_Some in H as [H|H]].
  - destruct s as [|c s1]; [done|]. destruct (one "1" c) eqn:E1; [|done].
    destruct s1 as [|c2 s2]; [done|]. destruct (range "0" "2" c2) eqn:E2; [|done].
    exists (String c (String c2 EmptyString)), (Some c2), s2.
    apply (digit_val_one _ _ 1%Z) in E1; [|done].
    apply (digit_val_between _ _ _ 0 2) in E2; [|done..].
    rewrite int_of_two_digits. split_and!; [done | lia | lia | done].
  - destruct s as [|c s1]; [done|]. destruct (one "0" c) eqn:E1; [|done].
    destruct s1 as [|c2 s2]; [done|]. destruct (range "1" "9" c2) eqn:E2; [|done].
    exists (String c (String c2 EmptyString)), (Some c2), s2.
    apply (digit_val_one _ _ 0%Z) in E1; [|done].
    apply (digit_val_between _ _ _ 1 9) in E2; [|done..].
    rewrite int_of_two_digits. split_and!; [done | lia | lia | done].
  - destruct s as [|c s1]; [done|]. destruct (range "1" "9" c) eqn:E1; [|done].
    exists (String c EmptyString), (Some c), s1.
    apply (digit_val_between _ _ _ 1 9) in E1; [|done..].
    rewrite int_of_one_digit. split_and!; [done | lia | lia | done].
Qed.

Lemma minute_re_Some {A} (k : option ascii → string → list string → option A)
    (prev : option ascii) (s : string) (caps : list string) (x : A) :
  run MINUTE_RE prev s caps k = Some x →
  ∃ g prev' s', s = g +:+ s' ∧ (0 ≤ Str.int_of_digits g ≤ 59)%Z ∧
                k prev' s' caps = Some x.
Proof.
  unfold MINUTE_RE. cbn [run]. intros H.
  apply ScraperProps.orelse_Some in H as [H|H].
  - destruct s as [|c s1]; [done|]. destruct (range "0" "5" c) eqn:E1; [|done].
    destruct s1 as [|c2 s2]; [done|]. destruct (digit c2) eqn:E2; [|done].
    exists (String c (String c2 EmptyString)), (Some c2), s2.
    apply (digit_val_between _ _ _ 0 5) in E1; [|done..].
    apply (digit_val_between _ _ _ 0 9) in E2; [|done..].
    rewrite int_of_two_digits. split_and!; [done | lia | lia | done].
  - destruct s as [|c s1]; [done|]. destruct (digit c) eqn:E1; [|done].
    exists (String c EmptyString), (Some c), s1.
    apply (digit_val_between _ _ _ 0 9) in E1; [|done..].
    rewrite int_of_one_digit. split_and!; [done | lia | lia | done].
Qed.

Lemma ampm_re_Some {A} (k : option ascii → string → list string → option A)
    (prev : option ascii) (s : string) (caps : list string) (x : A) :
  run AMPM_RE prev s caps k = Some x →
  ∃ g prev' s', s = g +:+ s' ∧ k prev' s' caps = Some x.
Proof.
  unfold AMPM_RE. cbn [run lit]. intros H.
  apply ScraperProps.orelse_Some in H as [H|H];
    (destruct s as [|c s1]; [done|]; destruct (ci _ c); [|done];
     destruct s1 as [|c2 s2]; [done|]; destruct (ci _ c2); [|done];
     by exists (String c (String c2 EmptyString)), (Some c2), s2).
Qed.

(** A time accepted by [strptime] is a time of day. *)
Lemma strptime_bounds (s : string) (hour minute : Z) :
  strptime s = Some (hour, minute) →
  (0 ≤ hour ≤ 23 ∧ 0 ≤ minute ≤ 59)%Z.
Proof.
  unfold strptime, Re.match_, match_at.
  change STRPTIME_RE
    with (Grp HOUR_RE · Chr (one ":") · Grp MINUTE_RE · plus space · Grp AMPM_RE)%re.
  destruct (run _ None s [] _) as [m|] eqn:Hrun; [|done].
  cbn [run] in Hrun.
  apply hour_re_Some in Hrun as (g1 & p1 & s1 & -> & Hhour & Hrun).
  destruct s1 as [|c s2]; [done|]. destruct (one ":" c); [|done].
  apply minute_re_Some in Hrun as (g2 & p2 & s3 & -> & Hmin & Hrun).
  apply ScraperProps.rep_Some in Hrun as (p3 & s4 & Hrun & _).
  apply ampm_re_Some in Hrun as (g3 & p4 & s5 & -> & Hrun).
  injection Hrun as <-. cbn [rest whole groups].
  destruct (Str.truthy s5); [done|].
  unfold group. cbn [groups app lookup list_lookup default from_option].
  rewrite (consumed_app g1), (consumed_app g2).
  intros [= <- <-].
  destruct (String.eqb _ "am");
    destruct (Z.eqb_spec (Str.int_of_digits g1) 12); lia.
Qed.

(** X6. Every interval [parse_class_time] returns is well formed: it has
    at least one day, every day is a key of [DAY_MAP] and carries its
    weekday name at the same position, start and end are minutes of a day
    (0 to 1439), and the duration is end minus start. The end is not
    required to come after the start. *)
Theorem parse_class_time_well_formed (class_time_str : string) (t : TimeData) :
  parse_class_time class_time_str = Some t →
  days t ≠ [] ∧
  Forall2 (λ d name, DAY_MAP !! d = Some name) (days t) (day_names t) ∧
  (0 ≤ start_minutes t ≤ 1439)%Z ∧
  (0 ≤ end_minutes t ≤ 1439)%Z ∧
  duration_minutes t = (end_minutes t - start_minutes t)%Z.
Proof.
  unfold parse_class_time.
  destruct (negb _ || _); [done|].
  destruct (Re.match_ DAYS_RE class_time_str) as [days_match|]; [|done].
  set (ds := filter _ _).
  assert (Hds : Forall (λ d, is_Some (DAY_MAP !! d)) ds).
  { apply Forall_forall. intros d Hd. subst ds.
    by apply list_elem_of_filter in Hd as [? _]. }
  assert (Hnames : Forall2 (λ d name, DAY_MAP !! d = Some name) ds
                           ((λ d, default "" (DAY_MAP !! d)) <$> ds)).
  { clear -Hds. induction Hds as [|d l [name Hd] _ IH]; [constructor|].
    rewrite fmap_cons. constructor; [by rewrite Hd | exact IH]. }
  clearbody ds. destruct ds as [|d0 ds']; [done|].
  destruct (Re.search TIME_RE class_time_str) as [time_match|]; [|done].
  destruct (strptime (Str.strip (group 1 time_match))) as [[sh sm]|] eqn:Hs; [|done].
  destruct (strptime (Str.strip (group 2 time_match))) as [[eh em]|] eqn:He; [|done].
  apply strptime_bounds in Hs, He.
  intros [= <-]. cbn [days day_names start_minutes end_minutes duration_minutes].
  split_and!; try done; lia.
Qed.

Lemma parse_class_time_well_formed_witness :
  ∃ t, parse_class_time "T R 12:30 PM-01:45 PM" = Some t ∧
       (0 ≤ start_minutes t ≤ 1439)%Z ∧ (0 ≤ end_minutes t ≤ 1439)%Z.
Proof.
  destruct (parse_class_time "T R 12:30 PM-01:45 PM") as [t|] eqn:E;
    [|by vm_compute in E].
  exists t. split; [done|].
  by destruct (parse_class_time_well_formed _ t E) as (_ & _ & ? & ? & _).
Defined.

(** The end may come before the start: the duration is then negative. *)
Example parse_class_time_negative_duration :
  duration_minutes <$> parse_class_time "M 10:00 PM-09:00 AM" = Some (-780)%Z.
Proof. vm_compute. reflexivity. Qed.

(** *** CourseManager *)

Lemma get_courses_add_course (now : string) (c : Course) (f : DataFile) :
  get_courses (add_course now true c f) =
  (if truthy (crn c) then filter (λ c', crn c' ≠ crn c) (get_courses f)
   else get_courses f) ++ [c].
Proof. done. Qed.


Lemma filter_filter_neg {A} (P : A → Prop) `{!∀ x, Decision (P x)} (l : list A) :
  filter P (filter (λ x, ¬ P x) l) = [].
Proof.
  induction l as [|x l IH]; [done|]. rewrite filter_cons.
  destruct (decide (¬ P x)) as [Hn|Hp].
  - rewrite filter_cons, decide_False by done. exact IH.
  - exact IH.
Qed.


(** X7. After [add_course] stores a section that has a CRN, the schedule
    ends with that section and holds no other section with its CRN; the
    sections with other CRNs are kept as they were, in order; and a schedule
    whose CRNs were pairwise distinct still has pairwise distinct CRNs. *)
Theorem add_course_replaces_by_crn (now : string) (c : Course) (f : DataFile) :
  truthy (crn c) = true →
  let before := get_courses f in
  let after := get_courses (add_course now true c f) in
  last after = Some c ∧
  filter (λ c', crn c' = crn c) after = [c] ∧
  filter (λ c', crn c' ≠ crn c) after = filter (λ c', crn c' ≠ crn c) before ∧
  length after ≤ S (length before) ∧
  (NoDup (crn <$> before) → NoDup (crn <$> after)).
Proof.
  intros Hcrn before after. subst after. rewrite get_courses_add_course, Hcrn.
  fold before. split_and!.
  - apply last_snoc.
  - rewrite filter_app, filter_cons, decide_True, filter_nil by done.
    rewrite (filter_filter_neg (λ c', crn c' = crn c)). done.
  - rewrite filter_app, filter_cons, decide_False, filter_nil by (intros H; by apply H).
    rewrite app_nil_r. by rewrite list_filter_filter_l.
  - rewrite length_app. simpl. pose proof (length_filter (λ c', crn c' ≠ crn c) before).
    lia.
  - intros Hnodup. rewrite fmap_app. apply NoDup_app. split_and!.
    + apply (sublist_NoDup _ (crn <$> before)); [exact Hnodup|].
      apply fmap_sublist, sublist_filter.
    + intros k [c' [-> Hc']]%list_elem_of_fmap [Heq|[]%elem_of_nil]%elem_of_cons.
      by apply list_elem_of_filter in Hc' as [Hne _].
    + apply NoDup_singleton.
Qed.

Lemma add_course_replaces_by_crn_witness :
  last (get_courses
          (add_course "2026-01-05T09:00:00" true
             (selected "10001" "T R 12:30 PM-01:45 PM")
             (Stored "2026-01-04T09:00:00"
                (Some [selected "10001" "M W 08:30 AM-10:45 AM";
                       selected "10002" "M W 10:30 AM-11:40 AM"]))))
  = Some (selected "10001" "T R 12:30 PM-01:45 PM").
Proof.
  pose proof (add_course_replaces_by_crn "2026-01-05T09:00:00"
                (selected "10001" "T R 12:30 PM-01:45 PM")
                (Stored "2026-01-04T09:00:00"
                   (Some [selected "10001" "M W 08:30 AM-10:45 AM";
                          selected "10002" "M W 10:30 AM-11:40 AM"]))
                eq_refl) as H.
  cbv zeta in H. destruct H as [H _]. exact H.
Defined.

(** X8. Adding the same section twice is the same as adding it once when
    it has a CRN; a section without a CRN is stored again on every call. *)
Theorem add_course_twice (now now' : string) (c : Course) (f : DataFile) :
  (truthy (crn c) = true →
   get_courses (add_course now' true c (add_course now true c f)) =
   get_courses (add_course now true c f)) ∧
  (truthy (crn c) = false →
   get_courses (add_course now' true c (add_course now true c f)) =
   get_courses f ++ [c; c]).
Proof.
  split; intros Hcrn; rewrite !get_courses_add_course, Hcrn.
  - rewrite filter_app, filter_cons, decide_False, filter_nil by (intros H; by apply H).
    rewrite app_nil_r. by rewrite list_filter_filter_l.
  - by rewrite <- app_assoc.
Qed.



Section RouteProps.
(** The iteration order of the process. *)
Variable list_shared : list ascii → list ascii → list ascii.


End RouteProps.


(** *** PlannedClassesDB: validation *)

Lemma chars_app (a b : string) : Str.chars (a +:+ b) = Str.chars a ++ Str.chars b.
Proof. induction a as [|c a IH]; simpl; [done | by rewrite IH]. Qed.

Lemma length_chars (s : string) : length (Str.chars s) = String.length s.
Proof. induction s as [|c s IH]; simpl; [done | by rewrite IH]. Qed.

(** A repetition that succeeds has consumed characters of its class. *)
Lemma rep_Some_chars {A} (p : cls) (g : bool)
    (k : option ascii → string → option A) (r : A) (s : string) (lo : nat)
    (hi : option nat) (prev : option ascii) :
  rep p lo hi g prev s k = Some r →
  ∃ pre prev' s', s = pre +:+ s' ∧ Forall (λ c, p c = true) (Str.chars pre) ∧
                  lo ≤ String.length pre ∧ k prev' s' = Some r.
Proof.
  revert lo hi prev. induction s as [|c s IH]; intros lo hi prev H; simpl in H.
  - assert (Hstop : match lo with 0 => k prev EmptyString | S _ => None end = Some r).
    { destruct g; try apply ScraperProps.orelse_Some in H as [H|H]; done. }
    destruct lo; [|done]. exists EmptyString, prev, EmptyString.
    split_and!; [done | constructor | done | done].
  - assert (Hcases :
      match lo with 0 => k prev (String c s) | S _ => None end = Some r ∨
      match hi with
      | Some 0 => None
      | _ => if p c then rep p (pred lo) (pred <$> hi) g (Some c) s k else None
      end = Some r).
    { destruct g; apply ScraperProps.orelse_Some in H as [H|H]; auto. }
    destruct Hcases as [Hstop|Hmore].
    + destruct lo; [|done]. exists EmptyString, prev, (String c s).
      split_and!; [done | constructor | done | done].
    + assert (Hrec : p c = true ∧
                     rep p (pred lo) (pred <$> hi) g (Some c) s k = Some r).
      { destruct hi as [[|n]|]; [done | |]; by destruct (p c). }
      destruct Hrec as [Hc Hrec].
      apply IH in Hrec as (pre & prev' & s' & -> & Hpre & Hlen & Hk).
      exists (String c pre), prev', s'.
      split_and!; [done | by constructor | simpl; lia | done].
Qed.

(** A greedy unbounded repetition runs to the end of a string of its
    class. *)
Lemma rep_greedy_all {A} (p : cls) (k : option ascii → string → option A)
    (s : string) (lo : nat) (prev : option ascii) :
  Forall (λ c, p c = true) (Str.chars s) → lo ≤ String.length s →
  (∀ prev', is_Some (k prev' EmptyString)) →
  is_Some (rep p lo None true prev s k).
Proof.
  intros Hall Hlo Hk. revert lo prev Hlo.
  induction s as [|c s IH]; intros lo prev Hlo; simpl in *.
  - destruct lo; [apply Hk | lia].
  - apply Forall_cons in Hall as [Hc Hall]. rewrite Hc.
    destruct (IH Hall (pred lo) (Some c)) as [r Hr]; [lia|].
    rewrite Hr. simpl. eauto.
Qed.

Lemma class_name_char (c : ascii) :
  ci (union (range "A" "Z") (union (range "0" "9") (union space (any_of "-.")))) c
  = name_char c.
Proof. destruct c as [[] [] [] [] [] [] [] []]; reflexivity. Qed.

Lemma class_name_re_iff (s : string) :
  is_Some (Re.match_ CLASS_NAME_RE s) ↔
  1 ≤ String.length s ∧ Forall (λ c, name_char c = true) (Str.chars s).
Proof.
  unfold Re.match_, match_at, CLASS_NAME_RE, plus. cbn [run]. split.
  - intros [m Hm].
    apply rep_Some_chars in Hm as (pre & prev' & s' & -> & Hpre & Hlen & Hk).
    assert (Hs' : s' = EmptyString ∨ s' = String "010" EmptyString).
    { destruct s' as [|c [|c' s'']]; auto.
      - destruct c as [[] [] [] [] [] [] [] []]; try done. by right.
      - by destruct c as [[] [] [] [] [] [] [] []]. }
    assert (Hlen' : ∀ a b : string,
              String.length (a +:+ b) = String.length a + String.length b).
    { induction a as [|c a IHa]; intros b; simpl; [done | by rewrite IHa]. }
    rewrite Hlen', chars_app. split; [lia|].
    apply Forall_app. split.
    + eapply Forall_impl; [exact Hpre|]. intros c Hc. by rewrite <- class_name_char.
    + destruct Hs' as [->| ->]; repeat constructor.
  - intros [Hlen Hall]. apply rep_greedy_all; [|done|by eauto].
    eapply Forall_impl; [exact Hall|]. intros c Hc. by rewrite class_name_char.
Qed.

Lemma lstrip_rstrip (s : string) :
  Str.lstrip (Str.rstrip (Str.lstrip s)) = Str.rstrip (Str.lstrip s).
Proof.
  induction s as [|c s IH]; [done|]. simpl.
  destruct (Str.is_space c) eqn:Hc; [exact IH|].
  simpl. destruct (Str.rstrip s); rewrite ?Hc; simpl; by rewrite ?Hc.
Qed.

Lemma rstrip_idem (s : string) : Str.rstrip (Str.rstrip s) = Str.rstrip s.
Proof.
  induction s as [|c s IH]; [done|]. simpl.
  destruct (Str.rstrip s) as [|c' t] eqn:Hr.
  - destruct (Str.is_space c) eqn:Hc; [done|]. simpl. by rewrite Hc.
  - change (Str.rstrip (String c (String c' t))) with
      (match Str.rstrip (String c' t) with
       | EmptyString => if Str.is_space c then EmptyString else String c EmptyString
       | t' => String c t'
       end).
    by rewrite IH.
Qed.

Lemma strip_idem (s : string) : Str.strip (Str.strip s) = Str.strip s.
Proof. unfold Str.strip. by rewrite lstrip_rstrip, rstrip_idem. Qed.


Lemma validate_class_name_accepts (input name : string) :
  _validate_class_name input = inr name ↔
  name = Str.strip input ∧ 1 ≤ String.length name ≤ 100 ∧
  Forall (λ c, name_char c = true) (Str.chars name).
Proof.
  unfold _validate_class_name.
  destruct (Nat.ltb_spec 100 (String.length (Str.strip input))) as [Hlong|Hshort].
  - split; [done|]. intros (-> & Hlen & _). lia.
  - pose proof (class_name_re_iff (Str.strip input)) as Hre.
    destruct (Re.match_ CLASS_NAME_RE (Str.strip input)) as [m|].
    + destruct (proj1 Hre) as [Hlen Hall]; [by eauto|].
      split; [intros [= <-]; split_and!; [done | lia | lia | done]|].
      by intros (-> & _).
    + split; [done|]. intros (-> & Hlen & Hall).
      destruct (proj2 Hre) as [? ?]; [split; [lia | done]|]. done.
Qed.

Lemma validate_class_name_chars (input name : string) :
  _validate_class_name input = inr name →
  Forall (λ c, name_char c = true) (Str.chars name).
Proof. by intros (_ & _ & ?)%validate_class_name_accepts. Qed.

Lemma validate_class_name_stable (input name : string) :
  _validate_class_name input = inr name → _validate_class_name name = inr name.
Proof.
  intros (-> & Hlen & Hall)%validate_class_name_accepts.
  apply validate_class_name_accepts. by rewrite strip_idem.
Qed.

(** X11. On a name over the code points 0 to 255, [_validate_class_name]
    accepts the name exactly when, once stripped, it has between 1 and 100
    characters, each of them a letter A to Z in either case, a digit 0 to
    9, a whitespace character as [str.isspace] has them (the no-break space
    and NEL among them), a hyphen or a period; it then returns the stripped
    name, which passes the validation again unchanged. A longer name is
    refused as too long, any other as holding invalid characters; the empty
    name is among the latter. *)
Theorem validate_class_name_iff (class_name : string) :
  let stripped := Str.strip class_name in
  (∀ name, _validate_class_name class_name = inr name ↔
           name = stripped ∧ 1 ≤ String.length name ≤ 100 ∧
           Forall (λ c, name_char c = true) (Str.chars name)) ∧
  (_validate_class_name class_name = inl NameTooLong ↔
     100 < String.length stripped) ∧
  (∀ name, _validate_class_name class_name = inr name →
           _validate_class_name name = inr name) ∧
  _validate_class_name "" = inl InvalidCharacters.
Proof.
  intros stripped. split_and!.
  - intros name. apply validate_class_name_accepts.
  - unfold _validate_class_name. fold stripped.
    destruct (Nat.ltb_spec 100 (String.length stripped)) as [Hlong|Hshort];
      [done|]. split; [|lia]. by destruct (Re.match_ CLASS_NAME_RE stripped).
  - intros name. apply validate_class_name_stable.
  - vm_compute. reflexivity.
Qed.

(** A no-break space inside a name is whitespace to the pattern, and one
    at its end is stripped. *)
Example validate_class_name_no_break_space :
  let nbsp := String (ascii_of_nat 160) "" in
  _validate_class_name ("MATH" +:+ nbsp +:+ "1A" +:+ nbsp) =
    inr ("MATH" +:+ nbsp +:+ "1A") ∧
  _validate_class_name "MATH_1A" = inl InvalidCharacters.
Proof. split; vm_compute; reflexivity. Qed.

(** *** PlannedClassesDB: escaping *)

Lemma chars_replace_char (c : ascii) (by_ s : string) (d : ascii) :
  d ∈ Str.chars (Str.replace_char c by_ s) →
  (d ∈ Str.chars s ∧ d ≠ c) ∨ d ∈ Str.chars by_.
Proof.
  induction s as [|e s IH]; simpl; [by intros ?%elem_of_nil|].
  destruct (Ascii.eqb_spec e c) as [->|Hne].
  - rewrite chars_app. intros [H|H]%elem_of_app; [by right|].
    destruct (IH H) as [[? ?]|?]; [left | by right]. split; [by right | done].
  - simpl. intros [->|H]%elem_of_cons; [left; split; [by left | done]|].
    destruct (IH H) as [[? ?]|?]; [left | by right]. split; [by right | done].
Qed.

Lemma replace_char_absent (c : ascii) (by_ s : string) :
  c ∉ Str.chars s → Str.replace_char c by_ s = s.
Proof.
  induction s as [|e s IH]; simpl; [done|]. intros Hnot.
  destruct (Ascii.eqb_spec e c) as [->|Hne].
  - exfalso. apply Hnot. by left.
  - rewrite IH; [done|]. intros H. apply Hnot. by right.
Qed.

Lemma html_escape_no_markup (s : string) (d : ascii) :
  d ∈ Str.chars (html_escape s) →
  d ≠ "<"%char ∧ d ≠ ">"%char ∧ d ≠ QUOTE ∧ d ≠ "'"%char.
Proof.
  unfold html_escape. intros H.
  assert (Hent : ∀ e : string,
            e ∈ ["&amp;"; "&lt;"; "&gt;"; "&quot;"; "&#x27;"] →
            d ∈ Str.chars e →
            d ≠ "<"%char ∧ d ≠ ">"%char ∧ d ≠ QUOTE ∧ d ≠ "'"%char).
  { intros e He Hd.
    repeat (apply elem_of_cons in He as [->|He];
            [vm_compute in Hd;
             repeat (apply elem_of_cons in Hd as [->|Hd]; [by vm_compute|]);
             by apply elem_of_nil in Hd|]).
    by apply elem_of_nil in He. }
  apply chars_replace_char in H as [[H H5]|H];
    [|apply (Hent "&#x27;"); [apply list_elem_of_In; simpl; tauto | done]].
  apply chars_replace_char in H as [[H H4]|H];
    [|apply (Hent "&quot;"); [apply list_elem_of_In; simpl; tauto | done]].
  apply chars_replace_char in H as [[H H3]|H];
    [|apply (Hent "&gt;"); [apply list_elem_of_In; simpl; tauto | done]].
  apply chars_replace_char in H as [[H H2]|H];
    [|apply (Hent "&lt;"); [apply list_elem_of_In; simpl; tauto | done]].
  done.
Qed.

Lemma html_escape_plain (s : string) :
  Forall (λ c, markup_char c = false) (Str.chars s) → html_escape s = s.
Proof.
  intros Hall. unfold html_escape.
  assert (Habs : ∀ c, markup_char c = true → c ∉ Str.chars s).
  { intros c Hc Hin. rewrite Forall_forall in Hall. specialize (Hall c Hin). congruence. }
  rewrite (replace_char_absent "&" _ s) by (by apply Habs).
  rewrite (replace_char_absent "<" _ s) by (by apply Habs).
  rewrite (replace_char_absent ">" _ s) by (by apply Habs).
  rewrite (replace_char_absent QUOTE _ s) by (by apply Habs).
  rewrite (replace_char_absent "'" _ s) by (by apply Habs).
  done.
Qed.

Lemma name_char_not_markup (c : ascii) : name_char c = true → markup_char c = false.
Proof. destruct c as [[] [] [] [] [] [] [] []]; vm_compute; congruence. Qed.

(** X12. What [get_all_classes] returns is safe to display: no class name
    and no notes it returns holds a less-than sign, a greater-than sign, a
    double quote or an apostrophe, whatever the rows hold. A class name that
    passes [_validate_class_name] holds none of the escaped characters, so
    it is returned exactly as stored. *)
Theorem get_all_classes_escaped (rows : list PlannedClass) (r : PlannedClass) :
  r ∈ get_all_classes rows →
  (∀ d, d ∈ Str.chars (class_name r) →
        d ≠ "<"%char ∧ d ≠ ">"%char ∧ d ≠ QUOTE ∧ d ≠ "'"%char) ∧
  (∃ n, notes r = Some n ∧
        ∀ d, d ∈ Str.chars n →
             d ≠ "<"%char ∧ d ≠ ">"%char ∧ d ≠ QUOTE ∧ d ≠ "'"%char) ∧
  ∃ row, row ∈ rows ∧ class_id r = class_id row ∧
         (_validate_class_name (class_name row) = inr (class_name row) →
          class_name r = class_name row).
Proof.
  unfold get_all_classes. intros [row [-> Hrow]]%list_elem_of_fmap.
  unfold escape_row. cbn [class_name notes class_id]. split_and!.
  - intros d. apply html_escape_no_markup.
  - eexists. split; [done|]. intros d.
    destruct (notes row) as [n|]; [|by intros ?%elem_of_nil].
    destruct (Str.truthy n); [apply html_escape_no_markup | by intros ?%elem_of_nil].
  - exists row. split_and!; [done | done |]. intros Hvalid.
    pose proof (validate_class_name_chars (class_name row) _ Hvalid) as Hall.
    apply html_escape_plain. eapply Forall_impl; [exact Hall|].
    intros c. apply name_char_not_markup.
Qed.

Lemma get_all_classes_escaped_witness :
  Forall (λ d, d ≠ "<"%char ∧ d ≠ ">"%char) (Str.chars (html_escape "<b>hard</b>")).
Proof.
  apply Forall_forall. intros d Hd.
  destruct (get_all_classes_escaped
              [ {| class_id := 1; class_name := "MATH 1A";
                   notes := Some "<b>hard</b>";
                   created_at := "2026-01-05 09:00:00";
                   updated_at := "2026-01-05 09:00:00" |} ]
              (escape_row {| class_id := 1; class_name := "MATH 1A";
                             notes := Some "<b>hard</b>";
                             created_at := "2026-01-05 09:00:00";
                             updated_at := "2026-01-05 09:00:00" |}))
    as (_ & (n & Hn & Hnotes) & _); [left|].
  injection Hn as <-. destruct (Hnotes d Hd) as (? & ? & _). done.
Defined.

(** *** PlannedClassesDB: the table *)

Lemma sanitize_notes_stable (input n : string) :
  _sanitize_notes input = inr n → _sanitize_notes n = inr n.
Proof.
  unfold _sanitize_notes.
  destruct (Nat.ltb_spec 500 (String.length (Str.strip input))) as [?|Hlen]; [done|].
  intros [= <-]. rewrite strip_idem.
  by destruct (Nat.ltb_spec 500 (String.length (Str.strip input))); [lia|].
Qed.

Lemma Forall_filter_keep {A} (P Q : A → Prop) `{!∀ x, Decision (Q x)} (l : list A) :
  Forall P l → Forall P (filter Q l).
Proof.
  rewrite !Forall_forall. intros Hall x [_ Hx]%list_elem_of_filter. by apply Hall.
Qed.

(** X13. Every row that [add_class] or [update_class] writes holds a name
    that passes [_validate_class_name] unchanged and notes that pass
    [_sanitize_notes] unchanged, whatever text the caller sent; a table all
    of whose rows are such stays so under every operation of the class. *)
Theorem planned_classes_rows_valid (db : Database) :
  Forall valid_row (planned_classes db) →
  (∀ now class_name notes class_id db',
     add_class now class_name notes db = inr (class_id, db') →
     Forall valid_row (planned_classes db')) ∧
  (∀ now class_id class_name notes updated db',
     update_class now class_id class_name notes db = inr (updated, db') →
     Forall valid_row (planned_classes db')) ∧
  (∀ class_id, Forall valid_row (planned_classes (delete_class class_id db).2)) ∧
  Forall valid_row (planned_classes (clear_all db)).
Proof.
  intros Hvalid. split_and!.
  - intros now name notes_ id db'. unfold add_class.
    destruct (_validate_class_name name) as [e|name'] eqn:Hname; [done|].
    destruct (_sanitize_notes notes_) as [e|notes'] eqn:Hnotes; [done|].
    intros [= <- <-]. cbn [planned_classes].
    apply Forall_app. split; [done|]. apply Forall_singleton. split.
    + by apply validate_class_name_stable in Hname.
    + exists notes'. split; [done|]. by apply sanitize_notes_stable in Hnotes.
  - intros now id name notes_ updated db'. unfold update_class.
    destruct (_validate_class_name name) as [e|name'] eqn:Hname; [done|].
    destruct (_sanitize_notes notes_) as [e|notes'] eqn:Hnotes; [done|].
    intros [= <- <-]. cbn [planned_classes].
    apply Forall_fmap. eapply Forall_impl; [exact Hvalid|].
    intros r Hr. simpl. case_bool_decide; [|done]. split.
    + by apply validate_class_name_stable in Hname.
    + exists notes'. split; [done|]. by apply sanitize_notes_stable in Hnotes.
  - intros id. cbn [delete_class snd planned_classes].
    by apply Forall_filter_keep.
  - constructor.
Qed.

Lemma planned_classes_rows_valid_witness :
  ∃ class_id db',
    add_class "2026-01-05 09:00:00" "  math 1a " " bring <calculator> " init_db
      = inr (class_id, db') ∧
    Forall valid_row (planned_classes db').
Proof.
  destruct (add_class "2026-01-05 09:00:00" "  math 1a " " bring <calculator> "
              init_db) as [e|[class_id db']] eqn:Hadd; [by vm_compute in Hadd|].
  exists class_id, db'. split; [done|].
  destruct (planned_classes_rows_valid init_db) as (Hrows & _); [constructor|].
  by eapply Hrows.
Defined.

Lemma foldr_max_above (seq : Z) (ids : list Z) :
  (seq ≤ foldr Z.max seq ids)%Z ∧ Forall (λ i, (i ≤ foldr Z.max seq ids)%Z) ids.
Proof.
  induction ids as [|i ids [IH1 IH2]]; cbn [foldr].
  - split; [lia | constructor].
  - split; [lia|]. constructor; [lia|].
    eapply Forall_impl; [exact IH2|]. intros j Hj. cbn beta in *. lia.
Qed.

Lemma next_rowid_above (db : Database) :
  (sequence db < next_rowid db)%Z ∧
  Forall (λ r, (class_id r < next_rowid db)%Z) (planned_classes db).
Proof.
  unfold next_rowid.
  destruct (foldr_max_above (sequence db) (class_id <$> planned_classes db))
    as [Hseq Hids].
  split; [lia|]. rewrite Forall_forall in Hids. apply Forall_forall.
  intros r Hr. assert (Hin : class_id r ∈ class_id <$> planned_classes db)
    by (apply list_elem_of_fmap; eauto).
  specialize (Hids _ Hin). cbn beta in Hids. lia.
Qed.

(** X14. Rowids are never reused. In a table whose rowids are pairwise
    distinct and not above its recorded sequence, [add_class] returns a
    rowid above the sequence, hence different from every rowid the table
    holds; [delete_class], [update_class] and [clear_all] keep the sequence,
    so a rowid that was deleted or cleared is never handed out again; and
    the table stays such a table under all four operations. *)
Theorem planned_classes_rowids (db : Database) :
  db_ok db →
  (∀ now class_name notes class_id db',
     add_class now class_name notes db = inr (class_id, db') →
     db_ok db' ∧ (sequence db < class_id)%Z ∧ sequence db' = class_id ∧
     class_id ∉ Models.class_id <$> planned_classes db) ∧
  (∀ now class_id class_name notes updated db',
     update_class now class_id class_name notes db = inr (updated, db') →
     db_ok db' ∧ sequence db' = sequence db ∧
     Models.class_id <$> planned_classes db' = Models.class_id <$> planned_classes db) ∧
  (∀ class_id,
     db_ok (delete_class class_id db).2 ∧
     sequence (delete_class class_id db).2 = sequence db ∧
     class_id ∉ Models.class_id <$> planned_classes (delete_class class_id db).2) ∧
  db_ok (clear_all db) ∧ sequence (clear_all db) = sequence db.
Proof.
  intros [Hnodup Hle]. split_and!.
  - intros now name notes_ id db'. unfold add_class.
    destruct (_validate_class_name name) as [e|name']; [done|].
    destruct (_sanitize_notes notes_) as [e|notes']; [done|].
    intros [= <- <-]. cbn [planned_classes sequence].
    destruct (next_rowid_above db) as [Hseq Hrows].
    assert (Hfresh : next_rowid db ∉ Models.class_id <$> planned_classes db).
    { intros [r [Hr Hin]]%list_elem_of_fmap.
      rewrite Forall_forall in Hrows. specialize (Hrows r Hin). simpl in Hrows. lia. }
    split_and!; [|done|done|done]. split; cbn [planned_classes sequence].
    + rewrite fmap_app. apply NoDup_app. split_and!; [done | | apply NoDup_singleton].
      intros k Hk [->|[]%elem_of_nil]%elem_of_cons. done.
    + apply Forall_app. split.
      * eapply Forall_impl; [exact Hle|]. intros r. simpl. lia.
      * apply Forall_singleton. simpl. lia.
  - intros now id name notes_ updated db'. unfold update_class.
    destruct (_validate_class_name name) as [e|name']; [done|].
    destruct (_sanitize_notes notes_) as [e|notes']; [done|].
    intros [= <- <-]. cbn [planned_classes sequence].
    assert (Hids : ∀ rows : list PlannedClass,
              Models.class_id <$>
                ((λ r, if bool_decide (Models.class_id r = id)
                       then {| class_id := Models.class_id r; class_name := name';
                               notes := Some notes'; created_at := created_at r;
                               updated_at := now |}
                       else r) <$> rows)
              = Models.class_id <$> rows).
    { intros rows. rewrite <- list_fmap_compose. apply list_fmap_ext.
      intros _ r _. simpl. by case_bool_decide. }
    split_and!; [|done|apply Hids]. split; cbn [planned_classes sequence].
    + by rewrite Hids.
    + apply Forall_fmap. eapply Forall_impl; [exact Hle|].
      intros r Hr. simpl. by case_bool_decide.
  - intros id. cbn [delete_class snd planned_classes sequence]. split_and!; [|done|].
    + split; cbn [planned_classes sequence].
      * apply (sublist_NoDup _ (Models.class_id <$> planned_classes db)); [done|].
        apply fmap_sublist, sublist_filter.
      * by apply Forall_filter_keep.
    + intros [r [Hr Hin]]%list_elem_of_fmap.
      by apply list_elem_of_filter in Hin as [Hne _].
  - split; [apply NoDup_nil_2 | constructor].
  - done.
Qed.

Lemma planned_classes_rowids_witness :
  ∃ id1 db1 id2 db2,
    add_class "2026-01-05 09:00:00" "MATH 1A" "" init_db = inr (id1, db1) ∧
    add_class "2026-01-06 09:00:00" "PHYS 4B" "" (clear_all db1) = inr (id2, db2) ∧
    (id1 < id2)%Z.
Proof.
  destruct (add_class "2026-01-05 09:00:00" "MATH 1A" "" init_db)
    as [e|[id1 db1]] eqn:H1; [by vm_compute in H1|].
  destruct (add_class "2026-01-06 09:00:00" "PHYS 4B" "" (clear_all db1))
    as [e|[id2 db2]] eqn:H2.
  { exfalso. unfold add_class in H2. by vm_compute in H2. }
  exists id1, db1, id2, db2. split_and!; [done | done |].
  assert (Hok0 : db_ok init_db) by (split; [apply NoDup_nil_2 | constructor]).
  destruct (planned_classes_rowids init_db Hok0) as (Hadd & _).
  destruct (Hadd _ _ _ _ _ H1) as (Hok1 & _ & Hseq1 & _).
  destruct (planned_classes_rowids db1 Hok1) as (_ & _ & _ & Hokc & Hseqc).
  destruct (planned_classes_rowids (clear_all db1) Hokc) as (Hadd' & _).
  destruct (Hadd' _ _ _ _ _ H2) as (_ & Hlt & _). lia.
Defined.

End ModelsMore.

(** ** Further properties of scraper_module.py *)

Module ScraperMore.
Import Scraper ScraperProps.

(** *** The name matcher as a relation *)

Lemma tokens_match_trans (a b c : list string) :
  tokens_match a b → tokens_match b c → tokens_match a c.
Proof. unfold tokens_match. intuition congruence. Qed.

Lemma tokens_match_refl (a : list string) : tokens_match a a ↔ 2 ≤ length a.
Proof. unfold tokens_match. intuition. Qed.

(** X15. The matcher is a partial equivalence on names: a name matches
    itself exactly when it normalizes to two tokens or more, so a one-word
    name matches nothing, not even itself; and when a first name matches a
    second and the second a third, the first matches the third. *)
Theorem match_professor_name_strict_per :
  (∀ a, match_professor_name_strict a a = true ↔ 2 ≤ length (normalize_name a)) ∧
  (∀ a b, length (normalize_name a) < 2 →
          match_professor_name_strict a b = false ∧
          match_professor_name_strict b a = false) ∧
  (∀ a b c, match_professor_name_strict a b = true →
            match_professor_name_strict b c = true →
            match_professor_name_strict a c = true).
Proof.
  split_and!.
  - intros a. rewrite match_professor_name_strict_tokens. apply tokens_match_refl.
  - intros a b Hlen.
    assert (Hno : ∀ x y, length (normalize_name x) < 2 ∨ length (normalize_name y) < 2 →
                         match_professor_name_strict x y = false).
    { intros x y Hxy. apply not_true_is_false.
      rewrite match_professor_name_strict_tokens. unfold tokens_match. lia. }
    split; apply Hno; auto.
  - intros a b c. rewrite !match_professor_name_strict_tokens.
    apply tokens_match_trans.
Qed.

(** *** The tokens of normalize_name *)










(** *** De-duplication *)

Lemma unique_from_idem (courses : list CourseInfo) (seen seen' : gset string) :
  seen' ⊆ seen →
  unique_from seen' (unique_from seen courses) = unique_from seen courses.
Proof.
  revert seen seen'. induction courses as [|c rest IH]; intros seen seen' Hsub; [done|].
  cbn [unique_from].
  destruct (bool_decide (crn c ∉ seen) || String.eqb (crn c) "N/A") eqn:Hkeep.
  - cbn [unique_from].
    assert (Hkeep' : bool_decide (crn c ∉ seen') || String.eqb (crn c) "N/A" = true).
    { apply orb_true_iff in Hkeep as [Hnot|Hna]; apply orb_true_iff; [left|by right].
      apply bool_decide_eq_true in Hnot. apply bool_decide_eq_true.
      intros Hin. apply Hnot. by apply Hsub. }
    rewrite Hkeep'. f_equal. apply IH. by apply union_mono_l.
  - by apply IH.
Qed.

Lemma elem_of_unique_from (courses : list CourseInfo) (seen : gset string)
    (c : CourseInfo) :
  c ∈ unique_from seen courses → c ∈ courses ∧ (crn c = "N/A" ∨ crn c ∉ seen).
Proof.
  revert seen. induction courses as [|x rest IH]; intros seen; cbn [unique_from].
  - by intros ?%elem_of_nil.
  - destruct (bool_decide (crn x ∉ seen) || String.eqb (crn x) "N/A") eqn:Hkeep.
    + intros [->|Hin]%elem_of_cons.
      * split; [by left|]. apply orb_true_iff in Hkeep as [Hnot|Hna].
        -- right. by apply bool_decide_eq_true in Hnot.
        -- left. by apply String.eqb_eq.
      * apply IH in Hin as [Hin Hc]. split; [by right|].
        destruct Hc as [?|Hnot]; [by left|]. right.
        intros Hs. apply Hnot. by apply elem_of_union_r.
    + intros Hin. apply IH in Hin as [Hin Hc]. split; [by right | done].
Qed.

Lemma unique_from_crns (courses : list CourseInfo) (seen : gset string) :
  NoDup (filter (λ k, k ≠ "N/A") (crn <$> unique_from seen courses)).
Proof.
  revert seen. induction courses as [|x rest IH]; intros seen; cbn [unique_from].
  - constructor.
  - destruct (bool_decide (crn x ∉ seen) || String.eqb (crn x) "N/A") eqn:Hkeep;
      [|apply IH].
    rewrite fmap_cons, filter_cons. destruct (decide (crn x ≠ "N/A")) as [Hne|_];
      [|apply IH].
    constructor; [|apply IH].
    intros [_ [c [Hc Hin]]%list_elem_of_fmap]%list_elem_of_filter.
    apply elem_of_unique_from in Hin as [_ [Hna|Hnot]].
    + congruence.
    + apply Hnot. rewrite <- Hc. by apply elem_of_union_l, elem_of_singleton.
Qed.

Lemma unique_from_keeps_crn (courses : list CourseInfo) (seen : gset string)
    (k : string) :
  k ∈ crn <$> courses → k ∈ seen ∨ k ∈ crn <$> unique_from seen courses.
Proof.
  revert seen. induction courses as [|x rest IH]; intros seen; cbn [unique_from].
  - by intros ?%elem_of_nil.
  - rewrite fmap_cons. intros Hk.
    destruct (bool_decide (crn x ∉ seen) || String.eqb (crn x) "N/A") eqn:Hkeep.
    + rewrite fmap_cons. apply elem_of_cons in Hk as [->|Hk]; [right; by left|].
      destruct (IH ({[crn x]} ∪ seen) Hk) as [Hs|Hin]; [|right; by right].
      apply elem_of_union in Hs as [->%elem_of_singleton|Hs];
        [right; by left | by left].
    + apply orb_false_iff in Hkeep as [Hin _].
      apply bool_decide_eq_false in Hin. apply dec_stable in Hin.
      apply elem_of_cons in Hk as [->|Hk]; [by left | by apply IH].
Qed.

(** X17. After de-duplication no two records share a CRN other than "N/A",
    no CRN of the input is lost, every record with CRN "N/A" is still there,
    and de-duplicating again changes nothing. *)
Theorem unique_courses_unique (courses : list CourseInfo) :
  NoDup (filter (λ k, k ≠ "N/A") (crn <$> unique_courses courses)) ∧
  (∀ k, k ∈ crn <$> unique_courses courses ↔ k ∈ crn <$> courses) ∧
  filter (λ c, crn c = "N/A") (unique_courses courses)
    = filter (λ c, crn c = "N/A") courses ∧
  unique_courses (unique_courses courses) = unique_courses courses.
Proof.
  unfold unique_courses. split_and!.
  - apply unique_from_crns.
  - intros k. split.
    + intros [c [-> Hin]]%list_elem_of_fmap.
      apply elem_of_unique_from in Hin as [Hin _].
      apply list_elem_of_fmap. eauto.
    + intros Hk. destruct (unique_from_keeps_crn courses ∅ k Hk) as [Hs|?]; [|done].
      by apply not_elem_of_empty in Hs.
  - generalize (∅ : gset string) as seen.
    induction courses as [|x rest IH]; intros seen; [done|]. cbn [unique_from].
    rewrite (filter_cons _ x rest).
    destruct (String.eqb_spec (crn x) "N/A") as [Hna|Hne].
    + rewrite orb_true_r, filter_cons, !decide_True by done. by rewrite IH.
    + rewrite orb_false_r, decide_False by done.
      destruct (bool_decide (crn x ∉ seen)); [|apply IH].
      rewrite filter_cons, decide_False by done. apply IH.
  - by apply unique_from_idem.
Qed.

(** *** The matcher of regular expressions *)

(** A run that succeeds hands over to its continuation on a suffix that is
    shorter by the least length of the pattern at least, with the captures
    unchanged when the pattern has no group. *)
Lemma run_Some_inv {A} (r : regex) :
  ∀ (prev : option ascii) (s : string) (caps : list string)
    (k : option ascii → string → list string → option A) (x : A),
    run r prev s caps k = Some x →
    ∃ prev' s' caps', k prev' s' caps' = Some x ∧
                      min_len r + String.length s' ≤ String.length s ∧
                      (groupless r = true → caps' = caps).
Proof.
  induction r as [|p|p lo hi g|r1 IH1 r2 IH2|r1 IH1 r2 IH2|r1 IH1|r1 IH1| | |];
    intros prev s caps k x H; cbn [run min_len groupless] in *.
  - exists prev, s, caps. split_and!; [done | lia | done].
  - destruct s as [|c s']; [done|]. destruct (p c); [|done].
    exists (Some c), s', caps. split_and!; [done | simpl; lia | done].
  - apply rep_Some in H as (prev' & s' & Hk & Hlen).
    exists prev', s', caps. split_and!; [done | lia | done].
  - apply IH1 in H as (p1 & s1 & c1 & H & Hl1 & Hg1).
    apply IH2 in H as (p2 & s2 & c2 & H & Hl2 & Hg2).
    exists p2, s2, c2. split_and!; [done | lia |].
    intros [G1 G2]%andb_true_iff. by rewrite Hg2, Hg1.
  - apply orelse_Some in H as [H|H].
    + apply IH1 in H as (p1 & s1 & c1 & H & Hl1 & Hg1).
      exists p1, s1, c1. split_and!; [done | lia |].
      intros [G1 G2]%andb_true_iff. by apply Hg1.
    + apply IH2 in H as (p1 & s1 & c1 & H & Hl1 & Hg1).
      exists p1, s1, c1. split_and!; [done | lia |].
      intros [G1 G2]%andb_true_iff. by apply Hg1.
  - apply orelse_Some in H as [H|H].
    + apply IH1 in H as (p1 & s1 & c1 & H & Hl1 & Hg1).
      exists p1, s1, c1. split_and!; [done | lia | done].
    + exists prev, s, caps. split_and!; [done | lia | done].
  - apply IH1 in H as (p1 & s1 & c1 & H & Hl1 & Hg1).
    exists p1, s1, (c1 ++ [consumed s s1]). split_and!; [done | lia | done].
  - destruct prev; [done|]. exists None, s, caps. split_and!; [done | lia | done].
  - exists prev, s, caps. split_and!; [|lia|done].
    destruct s as [|c [|c' s']]; try done;
      by destruct c as [[] [] [] [] [] [] [] []].
  - destruct (xorb _ _); [|done]. exists prev, s, caps. split_and!; [done | lia | done].
Qed.

(** The group of a pattern [Grp r] with [r] free of groups. *)
Lemma match_at_group (r : regex) (prev : option ascii) (s : string) (m : found) :
  groupless r = true →
  match_at (Grp r) prev s = Some m →
  groups m = [whole m] ∧ min_len r ≤ String.length (whole m).
Proof.
  intros Hg. unfold match_at. cbn [run]. intros H.
  apply run_Some_inv in H as (p' & s' & c' & H & Hlen & Hcaps).
  rewrite (Hcaps Hg) in H. injection H as <-. cbn [groups whole]. split; [done|].
  by apply length_consumed.
Qed.

Lemma rep_Some_bounds {A} (p : cls) (g : bool)
    (k : option ascii → string → option A) (r : A) (s : string) (lo : nat)
    (hi : option nat) (prev : option ascii) :
  rep p lo hi g prev s k = Some r →
  ∃ pre prev' s', s = pre +:+ s' ∧ Forall (λ c, p c = true) (Str.chars pre) ∧
                  lo ≤ String.length pre ∧
                  (∀ h, hi = Some h → String.length pre ≤ h) ∧
                  k prev' s' = Some r.
Proof.
  revert lo hi prev. induction s as [|c s IH]; intros lo hi prev H; simpl in H.
  - assert (Hstop : match lo with 0 => k prev EmptyString | S _ => None end = Some r).
    { destruct g; try apply orelse_Some in H as [H|H]; done. }
    destruct lo; [|done]. exists EmptyString, prev, EmptyString.
    split_and!; [done | constructor | done | simpl; lia | done].
  - assert (Hcases :
      match lo with 0 => k prev (String c s) | S _ => None end = Some r ∨
      match hi with
      | Some 0 => None
      | _ => if p c then rep p (pred lo) (pred <$> hi) g (Some c) s k else None
      end = Some r).
    { destruct g; apply orelse_Some in H as [H|H]; auto. }
    destruct Hcases as [Hstop|Hmore].
    + destruct lo; [|done]. exists EmptyString, prev, (String c s).
      split_and!; [done | constructor | done | simpl; lia | done].
    + assert (Hrec : p c = true ∧ hi ≠ Some 0 ∧
                     rep p (pred lo) (pred <$> hi) g (Some c) s k = Some r).
      { destruct hi as [[|n]|]; [done | |]; by destruct (p c). }
      destruct Hrec as (Hc & Hhi & Hrec).
      apply IH in Hrec as (pre & prev' & s' & -> & Hpre & Hlen & Hmax & Hk).
      exists (String c pre), prev', s'.
      split_and!; [done | by constructor | simpl; lia | | done].
      intros h ->. simpl. destruct h as [|h]; [done|].
      specialize (Hmax h eq_refl). lia.
Qed.


(** *** _extract_course_from_element *)

Lemma element_crn_whole (text : string) (m : found) :
  Re.search ELEMENT_CRN_RE text = Some m → five_digits (whole m).
Proof.
  intros (prev & s & H)%search_from_Some. revert H.
  unfold match_at, ELEMENT_CRN_RE, exactly. cbn [run]. intros H.
  destruct (xorb _ _); [|done].
  apply rep_Some_bounds in H as (pre & prev' & s' & -> & Hpre & Hlo & Hhi & Hk).
  destruct (xorb _ _); [|done]. injection Hk as <-. cbn [whole].
  rewrite ModelsMore.consumed_app. split; [|done].
  specialize (Hhi 5 eq_refl). lia.
Qed.

Lemma element_name_group (text : string) (m : found) :
  Re.search ELEMENT_NAME_RE text = Some m → 1 ≤ String.length (group 1 m).
Proof.
  intros (prev & s & H)%search_from_Some. unfold ELEMENT_NAME_RE in H.
  apply match_at_group in H as [Hgroups Hlen]; [|reflexivity].
  unfold group. rewrite Hgroups. cbn [lookup list_lookup default from_option].
  etrans; [|exact Hlen]. vm_compute. lia.
Qed.

Lemma five_digits_truthy (s : string) : five_digits s → Str.truthy s = true.
Proof. intros [Hlen _]. by destruct s. Qed.


Lemma or_else_found (s d : string) : Str.truthy s = true → or_else (Some s) d = s.
Proof. unfold or_else. by intros ->. Qed.

(** X18. The generic element extractor returns a record exactly when the
    text holds a five-digit token or a name-shaped run. The CRN of the
    record is that token when there is one and "N/A" otherwise, and in every
    record the CRN, the professor, the class time and the format are
    non-empty. *)
Theorem extract_course_from_element_emits (text course_code : string) :
  (is_Some (_extract_course_from_element text course_code) ↔
     is_Some (Re.search ELEMENT_CRN_RE text) ∨
     is_Some (Re.search ELEMENT_NAME_RE text)) ∧
  (∀ r, _extract_course_from_element text course_code = Some r →
     course r = course_code ∧
     (five_digits (crn r) ∧ whole <$> Re.search ELEMENT_CRN_RE text = Some (crn r) ∨
      crn r = "N/A" ∧ Re.search ELEMENT_CRN_RE text = None) ∧
     (Re.search ELEMENT_NAME_RE text = None → professor r = "TBA") ∧
     (Re.search ELEMENT_TIME_RE text = None → class_time r = "TBA") ∧
     crn r ≠ "" ∧ professor r ≠ "" ∧ class_time r ≠ "" ∧ format r ≠ "").
Proof.
  unfold _extract_course_from_element.
  assert (Hcrn : truthy (whole <$> Re.search ELEMENT_CRN_RE text) =
                 is_some_match (Re.search ELEMENT_CRN_RE text)).
  { destruct (Re.search ELEMENT_CRN_RE text) as [m|] eqn:Hm; [|done]. simpl.
    by apply element_crn_whole, five_digits_truthy in Hm. }
  assert (Hname : truthy (group 1 <$> Re.search ELEMENT_NAME_RE text) =
                  is_some_match (Re.search ELEMENT_NAME_RE text)).
  { destruct (Re.search ELEMENT_NAME_RE text) as [m|] eqn:Hm; [|done].
    apply element_name_group in Hm.
    assert (Ht : Str.truthy (group 1 m) = true)
      by (destruct (group 1 m); [simpl in Hm; lia | done]).
    exact Ht. }
  rewrite Hcrn, Hname. split.
  - destruct (Re.search ELEMENT_CRN_RE text), (Re.search ELEMENT_NAME_RE text);
      simpl; split; try (intros [? ?]; done); try (intros [[? ?]|[? ?]]; done); eauto.
  - intros r Hr.
    destruct (is_some_match (Re.search ELEMENT_CRN_RE text) ||
              is_some_match (Re.search ELEMENT_NAME_RE text)); [|done].
    injection Hr as <-. cbn [course crn professor class_time format].
    split_and!; try done; try (by apply truthy_nonempty, or_else_truthy).
    + destruct (Re.search ELEMENT_CRN_RE text) as [m|] eqn:Hm; [left | right; done].
      pose proof (element_crn_whole text m Hm) as H5.
      change (whole <$> Some m) with (Some (whole m)).
      rewrite or_else_found by (by apply five_digits_truthy). done.
    + by intros ->.
    + by intros ->.
Qed.

(** *** parse_course_info *)









(** *** get_professor_ratings *)

Lemma find_matching_card_Some (professor_name : string) (cards : list Card)
    (card : Card) :
  find_matching_card professor_name cards = Some card →
  ∃ i name, cards !! i = Some card ∧ card_name card = Some name ∧
            match_professor_name_strict professor_name name = true ∧
            ∀ j c n, j < i → cards !! j = Some c → card_name c = Some n →
                     match_professor_name_strict professor_name n = false.
Proof.
  induction cards as [|c cards IH]; [done|]. cbn [find_matching_card].
  destruct (card_name c) as [name|] eqn:Hname.
  - destruct (match_professor_name_strict professor_name name) eqn:Hm.
    + intros [= <-]. exists 0, name. split_and!; [done | done | done |].
      intros j c' n Hj. lia.
    + intros (i & name' & Hi & Hn & Hmatch & Hearlier)%IH.
      exists (S i), name'. split_and!; [done | done | done |].
      intros [|j] c' n Hj Hc' Hn'.
      * simpl in Hc'. injection Hc' as <-. congruence.
      * apply (Hearlier j c' n); [lia | done | done].
  - intros (i & name' & Hi & Hn & Hmatch & Hearlier)%IH.
    exists (S i), name'. split_and!; [done | done | done |].
    intros [|j] c' n Hj Hc' Hn'.
    + simpl in Hc'. injection Hc' as <-. congruence.
    + apply (Hearlier j c' n); [lia | done | done].
Qed.

Lemma find_matching_card_None (professor_name : string) (cards : list Card) :
  (∀ c n, c ∈ cards → card_name c = Some n →
          match_professor_name_strict professor_name n = false) →
  find_matching_card professor_name cards = None.
Proof.
  induction cards as [|c cards IH]; [done|]. intros Hno. cbn [find_matching_card].
  destruct (card_name c) as [name|] eqn:Hname.
  - rewrite (Hno c name); [|by left|done]. apply IH.
    intros c' n Hc'. apply Hno. by right.
  - apply IH. intros c' n Hc'. apply Hno. by right.
Qed.

Lemma int_of_digits_nonneg (s : string) : (0 ≤ Str.int_of_digits s)%Z.
Proof.
  assert (H : ∀ l acc, (0 ≤ acc)%Z →
            (0 ≤ fold_left (λ acc c, 10 * acc + Str.digit_val c) l acc)%Z).
  { induction l as [|c l IH]; intros acc Hacc; [done|]. simpl. apply IH.
    unfold Str.digit_val. lia. }
  unfold Str.int_of_digits. by apply H.
Qed.

Lemma int_nonneg (int_max_str_digits : nat) (digits : string) (n : Z) :
  int_ int_max_str_digits digits = Some n → (0 ≤ n)%Z.
Proof.
  unfold int_. destruct (_ && _); [done|]. intros [= <-].
  apply int_of_digits_nonneg.
Qed.

Lemma first_number_nonneg (int_max_str_digits : nat) (text : string) (n : Z) :
  first_number int_max_str_digits text = inr (Some n) → (0 ≤ n)%Z.
Proof.
  unfold first_number. destruct (Re.search _ text); [|done].
  destruct (int_ _ _) as [m|] eqn:Hint; [|done].
  intros [= <-]. by apply int_nonneg in Hint.
Qed.

Lemma professor_url_http (card : Card) (u : string) :
  professor_url card = Some u → Str.starts_with "http" u = true.
Proof.
  unfold professor_url. destruct (href card) as [h|]; [|done].
  destruct (Str.truthy h); [|done].
  destruct (Str.starts_with "/professor/" h); [by intros [= <-]|].
  destruct (Str.starts_with "http" h) eqn:Hh; [|done]. by intros [= <-].
Qed.

Section Provenance.
Context {float : Type}.
Variable py_float : string → option float.

Lemma item_difficulty_Some (items : list FeedbackItem) (d : float) :
  item_difficulty py_float items = Some d →
  ∃ item text, item ∈ items ∧ item_number item = Some text ∧
               Str.contains "difficulty" (Str.lower (item_text item)) = true ∧
               py_float text = Some d.
Proof.
  induction items as [|item rest IH]; [done|]. cbn [item_difficulty].
  assert (Hrest : item_difficulty py_float rest = Some d →
            ∃ item0 text, item0 ∈ item :: rest ∧ item_number item0 = Some text ∧
              Str.contains "difficulty" (Str.lower (item_text item0)) = true ∧
              py_float text = Some d).
  { intros (item0 & text & Hin & H)%IH. exists item0, text. split; [by right | done]. }
  destruct (Str.contains _ _) eqn:Hd; [|done].
  destruct (item_number item) as [text|] eqn:Hn; [|done].
  destruct (py_float text) as [x|] eqn:Hx; [|done].
  intros [= <-]. exists item, text. split_and!; [by left | done..].
Qed.

Lemma number_difficulty_Some (numbers : list FeedbackNumber) (d : float) :
  number_difficulty py_float numbers = Some d →
  ∃ num_elem parent, num_elem ∈ numbers ∧ parent_text num_elem = Some parent ∧
                     Str.contains "difficulty" (Str.lower parent) = true ∧
                     py_float (number_text num_elem) = Some d.
Proof.
  induction numbers as [|num_elem rest IH]; [done|]. cbn [number_difficulty].
  assert (Hrest : number_difficulty py_float rest = Some d →
            ∃ num_elem0 parent, num_elem0 ∈ num_elem :: rest ∧
              parent_text num_elem0 = Some parent ∧
              Str.contains "difficulty" (Str.lower parent) = true ∧
              py_float (number_text num_elem0) = Some d).
  { intros (n0 & parent & Hin & H)%IH. exists n0, parent. split; [by right | done]. }
  destruct (parent_text num_elem) as [parent|] eqn:Hp; [|done].
  destruct (Str.contains _ _) eqn:Hd; [|done].
  destruct (py_float (number_text num_elem)) as [x|] eqn:Hx; [|done].
  intros [= <-]. exists num_elem, parent. split_and!; [by left | done..].
Qed.
End Provenance.

(** X20. What a result of [get_professor_ratings] is read from. When a
    result is returned, the answer had status 200 and the profile link of
    the result is that of the first card, in page order, whose name matches
    the professor; it starts with "http". The result holds a rating, a
    review count or a difficulty. The rating is the one of the matched card
    when the card has one that reads as a number, and otherwise the one of
    the profile layout of the page. The review count is not negative and is
    the first run of digits of the count of the matched card or, when the
    card gives none, of the ratings link of the page. The difficulty is
    read from a feedback item or feedback number of the matched card that
    mentions difficulty, or else from the feedback items and numbers of the
    page. So the numbers of a result may come from the page around the
    matched card and not from the card. *)
Theorem get_professor_ratings_sound {float : Type}
    (py_float : string → option float) (int_max_str_digits : nat)
    (professor_name : string) (answer : option (Z * Page)) (r : @Ratings float) :
  get_professor_ratings py_float int_max_str_digits professor_name answer = Some r →
  ∃ page i card name,
    answer = Some (200%Z, page) ∧
    teacher_cards page !! i = Some card ∧ card_name card = Some name ∧
    match_professor_name_strict professor_name name = true ∧
    (∀ j c n, j < i → teacher_cards page !! j = Some c → card_name c = Some n →
              match_professor_name_strict professor_name n = false) ∧
    url r = professor_url card ∧
    (∀ u, url r = Some u → Str.starts_with "http" u = true) ∧
    (is_Some (rating r) ∨ is_Some (num_ratings r) ∨ is_Some (difficulty r)) ∧
    rating r = match card_rating card ≫= py_float with
               | Some x => Some x
               | None => page_rating page ≫= py_float
               end ∧
    (∀ n, num_ratings r = Some n →
          (0 ≤ n)%Z ∧
          ((∃ text, card_count card = Some text ∧
                    first_number int_max_str_digits text = inr (Some n)) ∨
           (∃ text, ratings_link page = Some text ∧
                    first_number int_max_str_digits text = inr (Some n) ∧
                    ∀ count, card_count card = Some count →
                             first_number int_max_str_digits count = inr None))) ∧
    (∀ d, difficulty r = Some d →
          (∃ item text, item ∈ card_feedback_items card ∧
                        item_number item = Some text ∧ py_float text = Some d) ∨
          (∃ num_elem, num_elem ∈ card_feedback_numbers card ∧
                       py_float (number_text num_elem) = Some d) ∨
          (∃ item text, item ∈ page_feedback_items page ∧
                        item_number item = Some text ∧ py_float text = Some d) ∨
          (∃ text, page_feedback_numbers page !! 1 = Some text ∧
                   py_float text = Some d)).
Proof.
  unfold get_professor_ratings. destruct answer as [[status page]|]; [|done].
  destruct (Z.eqb_spec status 200) as [->|]; [|done]. cbn [negb].
  destruct (teacher_cards page) as [|c0 cards0] eqn:Hcards; [done|].
  destruct (find_matching_card professor_name (c0 :: cards0)) as [card|] eqn:Hfind;
    [|done].
  apply find_matching_card_Some in Hfind as (i & name & Hi & Hname & Hm & Hearlier).
  unfold extract_ratings.
  destruct (found_num_ratings int_max_str_digits page card) as [e|count] eqn:Hcount;
    [done|].
  destruct (bool_decide _ || bool_decide _ || bool_decide _) eqn:Hany; [|done].
  intros [= <-]. cbn [rating num_ratings difficulty url].
  exists page, i, card, name. rewrite Hcards.
  split_and!; try done.
  - apply professor_url_http.
  - apply orb_true_iff in Hany as [[H|H]%orb_true_iff|H];
      apply bool_decide_eq_true in H; auto.
  - unfold found_rating. by destruct (card_rating card ≫= py_float).
  - intros n ->. unfold found_num_ratings in Hcount.
    destruct (card_count card) as [count_text|] eqn:Hcc.
    + destruct (first_number int_max_str_digits count_text) as [e|[m|]] eqn:Hfirst;
        [done| |].
      * injection Hcount as ->. split; [by eapply first_number_nonneg|].
        left. by exists count_text.
      * destruct (ratings_link page) as [link_text|] eqn:Hlink; [|done].
        split; [by eapply first_number_nonneg|].
        right. exists link_text. split_and!; [done | done |].
        by intros count [= <-].
    + destruct (ratings_link page) as [link_text|] eqn:Hlink; [|done].
      split; [by eapply first_number_nonneg|].
      right. exists link_text. split_and!; [done | done | done].
  - intros d. unfold found_difficulty.
    destruct (item_difficulty py_float (card_feedback_items card)) as [x|] eqn:Hci.
    { intros [= <-]. left.
      apply item_difficulty_Some in Hci as (item & text & ? & ? & _ & ?). eauto. }
    destruct (if 2 <=? length (card_feedback_numbers card)
              then number_difficulty py_float (card_feedback_numbers card)
              else None) as [x|] eqn:Hcn.
    { intros [= <-]. right. left.
      destruct (2 <=? length (card_feedback_numbers card)); [|done].
      apply number_difficulty_Some in Hcn as (num_elem & parent & ? & _ & _ & ?).
      eauto. }
    destruct (item_difficulty py_float (page_feedback_items page)) as [x|] eqn:Hpi.
    { intros [= <-]. right. right. left.
      apply item_difficulty_Some in Hpi as (item & text & ? & ? & _ & ?). eauto. }
    destruct (2 <=? length (page_feedback_numbers page)); [|done].
    destruct (page_feedback_numbers page !! 1) as [text|] eqn:Hpn; [|done].
    cbn. intros Hd. right. right. right. by exists text.
Qed.

Lemma get_professor_ratings_sound_witness :
  ∃ r, get_professor_ratings read_decimal default_max_str_digits "Clare Nguyen"
         (Some (200%Z, no_profile [full_card; bare_card])) = Some r ∧
       url r = professor_url full_card.
Proof.
  destruct (get_professor_ratings read_decimal default_max_str_digits "Clare Nguyen"
              (Some (200%Z, no_profile [full_card; bare_card]))) as [r|] eqn:Hr;
    [|by vm_compute in Hr].
  exists r. split; [done|].
  apply get_professor_ratings_sound in Hr
    as (page & i & card & name & [= <-] & Hi & _ & _ & Hearlier & Hurl & _).
  destruct i as [|i]; [simpl in Hi; by injection Hi as <-|].
  by specialize (Hearlier 0 full_card "Clare M. Nguyen" ltac:(lia) eq_refl eq_refl).
Defined.

(** A matched card without numbers of its own takes them from the profile
    layout of the page, whoever they belong to. *)
Example get_professor_ratings_page_numbers :
  get_professor_ratings read_decimal default_max_str_digits "Clare Nguyen"
    (Some (200%Z,
           {| teacher_cards := [bare_card]; page_rating := Some "2.0";
              ratings_link := Some "7 ratings"; page_feedback_items := [];
              page_feedback_numbers := [] |})) =
  Some {| rating := Some {| unscaled := 20; scale := 1 |};
          num_ratings := Some 7%Z;
          difficulty := None;
          url := Some "https://www.ratemyprofessors.com/professor/123456" |}.
Proof. vm_compute. reflexivity. Qed.

(** X21. A professor name that normalizes to fewer than two tokens, such
    as "TBA" or "Staff", never gets a rating, whatever the ratings site
    answers. *)
Theorem get_professor_ratings_short_name {float : Type}
    (py_float : string → option float) (int_max_str_digits : nat)
    (professor_name : string) (answer : option (Z * Page)) :
  length (normalize_name professor_name) < 2 →
  get_professor_ratings py_float int_max_str_digits professor_name answer = None.
Proof.
  intros Hlen. unfold get_professor_ratings.
  destruct answer as [[status page]|]; [|done].
  destruct (negb _); [done|].
  destruct (teacher_cards page) as [|c cards] eqn:Hcards; [done|].
  rewrite find_matching_card_None; [done|].
  intros c' n _ _. apply not_true_is_false.
  rewrite match_professor_name_strict_tokens. unfold tokens_match. lia.
Qed.

Lemma get_professor_ratings_short_name_witness :
  get_professor_ratings read_decimal default_max_str_digits "TBA"
    (Some (200%Z, no_profile [{| card_name := Some "TBA";
                                 href := Some "/professor/1";
                                 card_rating := Some "5.0"; card_count := None;
                                 card_feedback_items := [];
                                 card_feedback_numbers := [] |}])) = None.
Proof. apply get_professor_ratings_short_name. vm_compute. lia. Defined.

(** *** parse_course_input *)

Lemma of_chars_chars (s : string) : Str.of_chars (Str.chars s) = s.
Proof. induction s as [|c s IH]; simpl; [done | by rewrite IH]. Qed.

Lemma chars_of_chars (l : list ascii) : Str.chars (Str.of_chars l) = l.
Proof. induction l as [|c l IH]; simpl; [done | by rewrite IH]. Qed.

Lemma split_go_nil (cur : list ascii) : Str.split_go cur "" = flush cur.
Proof. by destruct cur. Qed.

Lemma split_go_space (cur : list ascii) (c : ascii) (s : string) :
  Str.is_space c = true →
  Str.split_go cur (String c s) = flush cur ++ Str.split_go [] s.
Proof. intros Hc. simpl. rewrite Hc. by destruct cur. Qed.

Lemma split_go_char (cur : list ascii) (c : ascii) (s : string) :
  Str.is_space c = false →
  Str.split_go cur (String c s) = Str.split_go (c :: cur) s.
Proof. intros Hc. simpl. by rewrite Hc. Qed.

(** Trailing whitespace does not change the words. *)
Lemma split_go_blank (s : string) (cur : list ascii) :
  Str.rstrip s = "" → Str.split_go cur s = flush cur.
Proof.
  revert cur. induction s as [|c s IH]; intros cur; [by rewrite split_go_nil|].
  simpl. destruct (Str.rstrip s) eqn:Hr; [|done].
  destruct (Str.is_space c) eqn:Hc; [|done]. intros _.
  rewrite (IH [] eq_refl). destruct cur; [done|]. simpl. done.
Qed.

Lemma split_go_rstrip (s : string) (cur : list ascii) :
  Str.split_go cur (Str.rstrip s) = Str.split_go cur s.
Proof.
  revert cur. induction s as [|c s IH]; intros cur; [done|].
  cbn [Str.rstrip]. destruct (Str.is_space c) eqn:Hc.
  - rewrite (split_go_space cur c s) by done.
    destruct (Str.rstrip s) as [|d t] eqn:Hr.
    + rewrite split_go_nil, (split_go_blank s [] Hr). by rewrite app_nil_r.
    + rewrite split_go_space by done. f_equal. apply IH.
  - rewrite (split_go_char cur c s) by done.
    destruct (Str.rstrip s) as [|d t] eqn:Hr.
    + rewrite split_go_char, split_go_nil by done. by rewrite (split_go_blank s _ Hr).
    + rewrite split_go_char by done. apply IH.
Qed.

Lemma split_lstrip (s : string) : Str.split (Str.lstrip s) = Str.split s.
Proof.
  unfold Str.split. induction s as [|c s IH]; [done|]. simpl.
  destruct (Str.is_space c) eqn:Hc; [exact IH|]. simpl. by rewrite Hc.
Qed.

Lemma split_strip (s : string) : Str.split (Str.strip s) = Str.split s.
Proof.
  unfold Str.strip, Str.split at 1. rewrite split_go_rstrip. apply split_lstrip.
Qed.

Lemma upper_char_space (c : ascii) : Str.is_space (Str.upper_char c) = Str.is_space c.
Proof. destruct c as [[] [] [] [] [] [] [] []]; reflexivity. Qed.

Lemma upper_char_idem (c : ascii) :
  Str.upper_char (Str.upper_char c) = Str.upper_char c.
Proof. destruct c as [[] [] [] [] [] [] [] []]; reflexivity. Qed.

Lemma upper_char_not_lower (c : ascii) : Str.is_lower (Str.upper_char c) = false.
Proof. destruct c as [[] [] [] [] [] [] [] []]; reflexivity. Qed.

Lemma fmap_rev {A B} (f : A → B) (l : list A) : f <$> rev l = rev (f <$> l).
Proof.
  induction l as [|x l IH]; [done|]. cbn [rev fmap list_fmap].
  rewrite fmap_app. by rewrite IH.
Qed.

Lemma upper_of_chars (l : list ascii) :
  Str.upper (Str.of_chars l) = Str.of_chars (Str.upper_char <$> l).
Proof.
  unfold Str.upper. induction l as [|c l IH]; [done|].
  cbn [Str.of_chars Str.map_chars fmap list_fmap]. by rewrite IH.
Qed.

(** Upper-casing commutes with the splitting into words. *)
Lemma split_go_upper (s : string) (cur : list ascii) :
  Str.split_go (Str.upper_char <$> cur) (Str.upper s) =
  Str.upper <$> Str.split_go cur s.
Proof.
  assert (Hflush : ∀ cur, flush (Str.upper_char <$> cur) = Str.upper <$> flush cur).
  { intros [|c l]; [done|].
    change (flush (c :: l)) with [Str.of_chars (rev (c :: l))].
    change (Str.upper <$> [Str.of_chars (rev (c :: l))])
      with [Str.upper (Str.of_chars (rev (c :: l)))].
    by rewrite upper_of_chars, fmap_rev. }
  revert cur. induction s as [|c s IH]; intros cur.
  - change (Str.upper "") with "". by rewrite !split_go_nil, Hflush.
  - change (Str.upper (String c s)) with (String (Str.upper_char c) (Str.upper s)).
    destruct (Str.is_space c) eqn:Hc.
    + rewrite !split_go_space by (by rewrite ?upper_char_space).
      rewrite fmap_app, Hflush. f_equal. apply (IH []).
    + rewrite !split_go_char by (by rewrite ?upper_char_space).
      apply (IH (c :: cur)).
Qed.

Lemma split_upper (s : string) : Str.split (Str.upper s) = Str.upper <$> Str.split s.
Proof. apply (split_go_upper s []). Qed.

Lemma split_go_tokens (s : string) (cur : list ascii) :
  Forall (λ c, Str.is_space c = false) cur →
  Forall is_word_token (Str.split_go cur s).
Proof.
  assert (Hflush : ∀ cur, Forall (λ c, Str.is_space c = false) cur →
                          Forall is_word_token (flush cur)).
  { intros [|c l] Hl; [constructor|]. apply Forall_singleton. split.
    - intros H. apply (f_equal Str.chars) in H. rewrite chars_of_chars in H.
      simpl in H. by destruct (rev l).
    - rewrite chars_of_chars. by apply Forall_rev. }
  revert cur. induction s as [|c s IH]; intros cur Hcur.
  - rewrite split_go_nil. by apply Hflush.
  - destruct (Str.is_space c) eqn:Hc.
    + rewrite split_go_space by done. apply Forall_app. split; [by apply Hflush|].
      by apply IH.
    + rewrite split_go_char by done. apply IH. by constructor.
Qed.

Lemma split_go_token (w s : string) (cur : list ascii) :
  Forall (λ c, Str.is_space c = false) (Str.chars w) →
  Str.split_go cur (w +:+ s) = Str.split_go (rev (Str.chars w) ++ cur) s.
Proof.
  revert cur. induction w as [|c w IH]; intros cur Hw; [done|].
  apply Forall_cons in Hw as [Hc Hw].
  change (String c w +:+ s) with (String c (w +:+ s)).
  rewrite split_go_char, IH by done. simpl. by rewrite <- app_assoc.
Qed.

(** Splitting a list of words joined by single blanks gives the words. *)
Lemma split_join (ws : list string) :
  Forall is_word_token ws → Str.split (Str.join " " ws) = ws.
Proof.
  unfold Str.split. induction 1 as [|w ws [Hne Hw] Hws IH]; [done|].
  assert (Hflush : flush (rev (Str.chars w)) = [w]).
  { unfold flush. destruct (rev (Str.chars w)) as [|c l] eqn:Hr.
    - apply (f_equal (@rev ascii)) in Hr. rewrite rev_involutive in Hr.
      destruct w; [done | discriminate].
    - by rewrite <- Hr, rev_involutive, of_chars_chars. }
  destruct ws as [|w' ws].
  - simpl. replace w with (w +:+ "") at 1
      by (clear; induction w as [|c w IHw]; [done|];
          change (String c w +:+ "") with (String c (w +:+ "")); by rewrite IHw).
    rewrite split_go_token, app_nil_r, split_go_nil by done. exact Hflush.
  - change (Str.join " " (w :: w' :: ws))
      with (w +:+ String " " (Str.join " " (w' :: ws))).
    rewrite split_go_token, app_nil_r, split_go_space by done.
    rewrite Hflush. simpl. f_equal. exact IH.
Qed.

Lemma chars_upper (w : string) : Str.chars (Str.upper w) = Str.upper_char <$> Str.chars w.
Proof.
  unfold Str.upper. induction w as [|c w IH]; [done|].
  cbn [Str.map_chars Str.chars fmap list_fmap]. by rewrite IH.
Qed.

Lemma upper_idem (w : string) : Str.upper (Str.upper w) = Str.upper w.
Proof.
  unfold Str.upper. induction w as [|c w IH]; [done|].
  cbn [Str.map_chars]. by rewrite upper_char_idem, IH.
Qed.

Lemma upper_append (a b : string) :
  Str.upper (a +:+ b) = Str.upper a +:+ Str.upper b.
Proof.
  unfold Str.upper. induction a as [|c a IH]; [done|].
  change (String c a +:+ b) with (String c (a +:+ b)).
  cbn [Str.map_chars].
  change (String (Str.upper_char c) (Str.map_chars Str.upper_char a) +:+
          Str.map_chars Str.upper_char b)
    with (String (Str.upper_char c) (Str.map_chars Str.upper_char a +:+
                                     Str.map_chars Str.upper_char b)).
  by rewrite IH.
Qed.

Lemma upper_join (ws : list string) :
  Str.upper (Str.join " " ws) = Str.join " " (Str.upper <$> ws).
Proof.
  induction ws as [|w ws IH]; [done|]. destruct ws as [|w' ws]; [done|].
  change (Str.join " " (w :: w' :: ws))
    with (w +:+ " " +:+ Str.join " " (w' :: ws)).
  rewrite !upper_append, IH. done.
Qed.

Lemma upper_word_token (w : string) : is_word_token w → is_word_token (Str.upper w).
Proof.
  intros [Hne Hw]. split; [by destruct w|].
  rewrite chars_upper. apply Forall_fmap. eapply Forall_impl; [exact Hw|].
  intros c Hc. simpl. by rewrite upper_char_space.
Qed.

Lemma split_tokens (s : string) : Forall is_word_token (Str.split s).
Proof. apply split_go_tokens. constructor. Qed.

(** The words the function works on: those of the input, in upper case. *)
Lemma parse_course_input_eq (s : string) :
  parse_course_input s =
  match Str.upper <$> Str.split s with
  | d :: c :: rest => Some (d, Str.join " " (c :: rest))
  | _ => None
  end.
Proof.
  unfold parse_course_input. cbv zeta.
  rewrite split_upper, split_strip.
  by destruct (Str.upper <$> Str.split s) as [|d [|c rest]].
Qed.

Lemma join_nonempty (w : string) (ws : list string) : w ≠ "" → Str.join " " (w :: ws) ≠ "".
Proof. intros Hw. destruct ws; [done|]. by destruct w. Qed.

(** X22. parse_course_input reads the whitespace-separated words of the input
    in upper case: it gives (None, None) exactly when there are fewer than two
    words, it does not see the case of the input or the whitespace around it,
    and a department and course code it returns are in upper case, the
    department is one word, the code is not empty, and the two joined by a
    blank parse to themselves. *)
Theorem parse_course_input_words (s : string) :
  (parse_course_input s = None ↔ length (Str.split s) < 2) ∧
  parse_course_input (Str.upper s) = parse_course_input s ∧
  parse_course_input (Str.strip s) = parse_course_input s ∧
  (∀ department course_code,
     parse_course_input s = Some (department, course_code) →
     is_word_token department ∧
     Str.upper department = department ∧
     Str.upper course_code = course_code ∧
     course_code ≠ "" ∧
     parse_course_input (department +:+ " " +:+ course_code) =
       Some (department, course_code)).
Proof.
  assert (Hup : ∀ ws : list string,
             Str.upper <$> (Str.upper <$> ws) = Str.upper <$> ws).
  { intros ws. rewrite <- list_fmap_compose. apply list_fmap_ext.
    intros _ w _. apply upper_idem. }
  split_and!.
  - rewrite parse_course_input_eq.
    destruct (Str.split s) as [|d [|c rest]]; simpl; split; (done || lia).
  - by rewrite !parse_course_input_eq, split_upper, Hup.
  - by rewrite !parse_course_input_eq, split_strip.
  - intros department course_code H.
    rewrite parse_course_input_eq in H.
    assert (Htok : Forall is_word_token (Str.upper <$> Str.split s)).
    { apply Forall_fmap. eapply Forall_impl; [apply split_tokens|].
      intros w Hw. by apply upper_word_token. }
    specialize (Hup (Str.split s)).
    destruct (Str.upper <$> Str.split s) as [|d [|c rest]]; [done..|].
    assert (department = d ∧ course_code = Str.join " " (c :: rest))
      as [-> ->] by (by injection H).
    clear H.
    assert (Hd : Str.upper d = d) by (by injection Hup).
    pose proof (f_equal tail Hup) as Hup'.
    change (Str.upper <$> c :: rest = c :: rest) in Hup'.
    apply Forall_cons in Htok as Htok'. destruct Htok' as [Hdtok Hctok].
    split_and!.
    + done.
    + done.
    + by rewrite upper_join, Hup'.
    + apply Forall_cons in Hctok as [[Hne _] _]. by apply join_nonempty.
    + change (d +:+ " " +:+ Str.join " " (c :: rest))
        with (Str.join " " (d :: c :: rest)).
      rewrite parse_course_input_eq, split_join by done. by rewrite Hup.
Qed.

(** *** main: the professors asked for and the ratings attached *)

Lemma professors_from_spec (courses : list CourseInfo) (seen : gset string) :
  NoDup (professors_from seen courses) ∧
  sublist (professors_from seen courses) (professor <$> courses) ∧
  ∀ p, p ∈ professors_from seen courses ↔
       p ≠ "TBA" ∧ (p ∉ seen) ∧ p ∈ professor <$> courses.
Proof.
  revert seen. induction courses as [|c rest IH]; intros seen.
  - cbn [professors_from fmap list_fmap]. split_and!; [constructor | done |].
    intros p. split; [by intros ?%elem_of_nil | by intros (_ & _ & ?%elem_of_nil)].
  - cbn [professors_from]. rewrite fmap_cons.
    destruct (negb (String.eqb (professor c) "TBA") &&
              bool_decide (professor c ∉ seen)) eqn:Hnew.
    + apply andb_true_iff in Hnew as [Htba Hseen].
      apply negb_true_iff, String.eqb_neq in Htba.
      apply bool_decide_eq_true in Hseen.
      destruct (IH ({[professor c]} ∪ seen)) as (Hnd & Hsub & Hin).
      split_and!.
      * constructor; [|done]. rewrite Hin. intros (_ & Hnot & _).
        apply Hnot. by apply elem_of_union_l, elem_of_singleton.
      * by constructor.
      * intros p. rewrite !elem_of_cons, Hin, not_elem_of_union, not_elem_of_singleton.
        split.
        -- intros [->|(? & [? ?] & ?)]; [by auto | by auto].
        -- intros (? & ? & [->|?]); [by left|].
           destruct (decide (p = professor c)) as [->|?]; [by left | by right].
    + destruct (IH seen) as (Hnd & Hsub & Hin).
      split_and!; [done | by constructor |].
      intros p. rewrite Hin, elem_of_cons. split; [by intuition|].
      intros (Hp & Hseen & [->|?]); [|done]. exfalso.
      apply andb_false_iff in Hnew as [Htba|Hs].
      * apply negb_false_iff, String.eqb_eq in Htba. done.
      * by apply bool_decide_eq_false in Hs.
Qed.

(** The order of the professors: a name comes before another when its
    first section comes before every section of the other. *)
Lemma professors_from_order (courses : list CourseInfo) (seen : gset string)
    (i j : nat) (p q : string) :
  professors_from seen courses !! i = Some p →
  professors_from seen courses !! j = Some q →
  i < j →
  ∃ k, (professor <$> courses) !! k = Some p ∧
       ∀ k', k' ≤ k → (professor <$> courses) !! k' ≠ Some q.
Proof.
  revert seen i j. induction courses as [|c rest IH]; intros seen i j; [done|].
  cbn [professors_from]. rewrite fmap_cons.
  destruct (negb (String.eqb (professor c) "TBA") &&
            bool_decide (professor c ∉ seen)) eqn:Hnew.
  - destruct (professors_from_spec rest ({[professor c]} ∪ seen)) as (_ & _ & Hin).
    assert (Hlater : ∀ n, professors_from ({[professor c]} ∪ seen) rest !! n = Some q →
                          professor c ≠ q).
    { intros n Hn%list_elem_of_lookup_2 Heq. apply Hin in Hn as (_ & Hnot & _).
      apply Hnot. apply elem_of_union_l, elem_of_singleton. by symmetry. }
    destruct i as [|i], j as [|j]; try lia.
    + intros [= <-] Hq _. exists 0. split; [done|].
      intros k' Hk'. replace k' with 0 by lia. cbn. intros [= Heq].
      by eapply Hlater.
    + cbn [lookup list_lookup]. intros Hp Hq Hlt.
      destruct (IH _ i j Hp Hq ltac:(lia)) as (k & Hk & Hbefore).
      exists (S k). split; [done|]. intros [|k'] Hk'.
      * cbn. intros [= Heq]. by eapply Hlater.
      * cbn. apply Hbefore. lia.
  - destruct (professors_from_spec rest seen) as (_ & _ & Hin).
    intros Hp Hq Hlt. destruct (IH _ i j Hp Hq Hlt) as (k & Hk & Hbefore).
    exists (S k). split; [done|]. intros [|k'] Hk'.
    + cbn. intros [= Heq]. apply list_elem_of_lookup_2, Hin in Hq as (Htba & Hseen & _).
      apply andb_false_iff in Hnew as [Ht|Hs].
      * apply negb_false_iff, String.eqb_eq in Ht. congruence.
      * apply bool_decide_eq_false in Hs. apply Hs. by rewrite Heq.
    + cbn. apply Hbefore. lia.
Qed.

(** X23. The professors whose ratings are asked for are the professors of
    the sections other than TBA, each once, in the order of their first
    section: the list has no duplicate, it is a sublist of the sections'
    professors, a name is in it exactly when it is not TBA and some section
    has it, and when a name stands before another in it, the first section
    of the one comes before every section of the other. *)
Theorem unique_professors_spec (courses : list CourseInfo) :
  NoDup (unique_professors courses) ∧
  sublist (unique_professors courses) (professor <$> courses) ∧
  (∀ p, p ∈ unique_professors courses ↔ p ≠ "TBA" ∧ p ∈ professor <$> courses) ∧
  (∀ i j p q,
     unique_professors courses !! i = Some p →
     unique_professors courses !! j = Some q →
     i < j →
     ∃ k, (professor <$> courses) !! k = Some p ∧
          (∀ k', k' < k → (professor <$> courses) !! k' ≠ Some p) ∧
          (∀ k', k' ≤ k → (professor <$> courses) !! k' ≠ Some q)).
Proof.
  destruct (professors_from_spec courses ∅) as (Hnd & Hsub & Hin).
  split_and!; [done | done | |].
  - intros p. unfold unique_professors. rewrite Hin.
    split; [by intros (? & _ & ?)|]. intros [? ?].
    split_and!; [done | apply not_elem_of_empty | done].
  - unfold unique_professors. intros i j p q Hp Hq Hlt.
    destruct (professors_from_order courses ∅ i j p q Hp Hq Hlt) as (k & Hk & Hbefore).
    (* the first section of p *)
    assert (Hfirst : ∃ k0, (professor <$> courses) !! k0 = Some p ∧ k0 ≤ k ∧
                           ∀ k', k' < k0 → (professor <$> courses) !! k' ≠ Some p).
    { clear Hbefore. revert Hk. generalize (professor <$> courses). clear.
      intros l. revert k. induction l as [|x l IH]; intros k Hk; [done|].
      destruct (decide (x = p)) as [->|Hne].
      - exists 0. split_and!; [done | lia | intros k' Hk'; lia].
      - destruct k as [|k]; [cbn in Hk; congruence|].
        destruct (IH k Hk) as (k0 & Hk0 & Hle & Hmin).
        exists (S k0). split_and!; [done | lia |].
        intros [|k'] Hk'; cbn; [congruence | apply Hmin; lia]. }
    destruct Hfirst as (k0 & Hk0 & Hle & Hmin).
    exists k0. split_and!; [done | done |].
    intros k' Hk'. apply Hbefore. lia.
Qed.

Section RateCoursesProps.
Context {float : Type}.
Variable py_float : string → option float.
Variable int_max_str_digits : nat.
Variable answers : string → option (Z * Page).

Local Abbreviation rated name :=
  (get_professor_ratings py_float int_max_str_digits name (answers name)).

Lemma fetch_ratings_lookup (professors : list string) (p : string)
    (start : gmap string (@Ratings float)) :
  foldl (λ professor_ratings prof_name,
           match rated prof_name with
           | Some ratings => <[prof_name := ratings]> professor_ratings
           | None => professor_ratings
           end) start professors !! p =
  if decide (p ∈ professors)
  then match rated p with Some r => Some r | None => start !! p end
  else start !! p.
Proof.
  revert start. induction professors as [|x l IH]; intros start; [done|].
  cbn [foldl]. rewrite IH. clear IH.
  destruct (decide (p = x)) as [->|Hne].
  - rewrite (decide_True (P := x ∈ x :: l)) by (by left).
    destruct (rated x) as [r|] eqn:Hr.
    + rewrite lookup_insert_eq. by destruct (decide (x ∈ l)).
    + by destruct (decide (x ∈ l)).
  - assert (Hlook : match rated x with
                    | Some ratings => <[x := ratings]> start
                    | None => start
                    end !! p = start !! p).
    { destruct (rated x); [by rewrite lookup_insert_ne | done]. }
    rewrite Hlook. destruct (decide (p ∈ l)) as [Hin|Hnot].
    + by rewrite (decide_True (P := p ∈ x :: l)) by (by right).
    + rewrite (decide_False (P := p ∈ x :: l)); [done|].
      by intros [?|?]%elem_of_cons.
Qed.

(** X24. After the two loops of main every section carries the ratings of
    its own professor: the sections are those given, in their order, each
    with what get_professor_ratings returns for its professor's name, and
    with None when the professor is TBA; a professor whose ratings were not
    found leaves None on every one of their sections. *)
Theorem rate_courses_spec (courses : list CourseInfo) :
  rate_courses py_float int_max_str_digits answers courses =
  (λ course,
     (course,
      if String.eqb (professor course) "TBA" then None
      else rated (professor course))) <$> courses.
Proof.
  unfold rate_courses, attach_ratings, fetch_ratings.
  apply list_fmap_ext. intros i course Hcourse. f_equal.
  rewrite fetch_ratings_lookup, lookup_empty.
  destruct (professors_from_spec courses ∅) as (_ & _ & Hin).
  unfold unique_professors.
  destruct (String.eqb (professor course) "TBA") eqn:Htba.
  - apply String.eqb_eq in Htba. rewrite decide_False; [done|].
    rewrite Hin. by intros [? _].
  - apply String.eqb_neq in Htba. rewrite decide_True.
    + by destruct (rated (professor course)).
    + rewrite Hin. split_and!; [done | apply not_elem_of_empty |].
      apply list_elem_of_fmap. exists course.
      split; [done|]. by eapply list_elem_of_lookup_2.
Qed.

End RateCoursesProps.

(** *** get_listings: what a result tells *)

Section ListingsOutcome.
Context {Soup : Type}.
Variable BeautifulSoup : string → Soup.
Variable title_text : Soup → option string.

Local Abbreviation check := (check_response BeautifulSoup title_text).

(** A page passes the checks only as a long enough answer with status 200
    that is parsed as it came. *)
Lemma check_response_inr (answer : FetchError + Response) (soup : Soup) :
  check answer = inr soup →
  ∃ response, answer = inr response ∧
              status_code response = 200%Z ∧
              100 ≤ String.length (text response) ∧
              soup = BeautifulSoup (text response) ∧
              ∀ title, title_text soup = Some title →
                       Str.contains "error" (Str.lower title) = false.
Proof.
  unfold check_response. destruct answer as [e|response]; [done|].
  destruct (status_code response =? 200)%Z eqn:Hstatus; [|done].
  cbn [negb]. destruct (negb _ || _) eqn:Hlen; [done|].
  apply orb_false_iff in Hlen as [_ Hlen]. apply Nat.ltb_ge in Hlen.
  cbv zeta. destruct (_ && _); [done|]. destruct (_ && _); [done|].
  destruct (title_text (BeautifulSoup (text response))) as [title|] eqn:Htitle.
  - destruct (Str.contains "error" (Str.lower title)) eqn:Herr; [done|].
    intros [= <-]. exists response. split_and!; try done; [lia|].
    intros title' Ht. by simplify_eq.
  - intros [= <-]. exists response. split_and!; try done; [lia|].
    intros title' Ht. by simplify_eq.
Qed.

(** Either every one of the first [n] answers fails the checks, or there
    is a first one that passes. *)
Lemma first_passing (answer : nat → FetchError + Response) (n : nat) :
  (∀ i, i < n → ∃ e, check (answer i) = inl e) ∨
  ∃ k soup, k < n ∧ check (answer k) = inr soup ∧
            ∀ i, i < k → ∃ e, check (answer i) = inl e.
Proof.
  induction n as [|n [IH|(k & soup & Hk & Hok & Hfail)]].
  - left. intros i Hi. lia.
  - destruct (check (answer n)) as [e|soup] eqn:Hn.
    + left. intros i Hi. destruct (decide (i = n)) as [->|?]; [eauto|].
      apply IH. lia.
    + right. exists n, soup. split_and!; [lia | done |].
      intros i Hi. by apply IH.
  - right. exists k, soup. split_and!; [lia | done | done].
Qed.

Lemma total_sleep_app (l1 l2 : list Event) :
  total_sleep (l1 ++ l2) = total_sleep l1 + total_sleep l2.
Proof.
  unfold total_sleep. induction l1 as [|e l1 IH]; [done|].
  cbn [app foldr]. rewrite IH. lia.
Qed.

Lemma total_sleep_backoff (url : string) (a k : nat) :
  total_sleep (backoff_from url a k) = k * (2 * a + k + 1).
Proof.
  revert a. induction k as [|k IH]; intros a; [done|].
  rewrite (backoff_from_S url), total_sleep_app, IH.
  unfold total_sleep. cbn [foldr seconds_of]. nia.
Qed.

(** X25. What a result of get_listings tells about the answers of the
    server. A page is returned only as the parse of an answer with status
    200 and 100 characters or more, whose title holds no error, which came
    at an attempt before which every attempt failed; the failure is raised
    only when all the attempts failed, and carries their number. Either
    way the waits add up to at most max_retries * (max_retries - 1)
    seconds. *)
Theorem get_listings_outcome (server : nat → string → FetchError + Response)
    (max_retries : nat) (department term : string) :
  let url := listings_url department term in
  let run := get_listings BeautifulSoup title_text max_retries department term
               (start server) in
  (∀ soup, run.1 = inr soup →
     ∃ k response,
       k < max_retries ∧ requests run.2 = S k ∧
       server k url = inr response ∧
       status_code response = 200%Z ∧
       100 ≤ String.length (text response) ∧
       soup = BeautifulSoup (text response) ∧
       (∀ title, title_text soup = Some title →
                 Str.contains "error" (Str.lower title) = false) ∧
       (∀ i, i < k → ∃ e, check (server i url) = inl e) ∧
       total_sleep (log run.2) = k * (k + 1)) ∧
  (∀ failure, run.1 = inl failure →
     attempts_made failure = max_retries ∧
     ∀ i, i < max_retries → ∃ e, check (server i url) = inl e) ∧
  total_sleep (log run.2) ≤ max_retries * (max_retries - 1).
Proof.
  intros url run. unfold get_listings in run. fold url in run.
  destruct (first_passing (λ i, server i url) max_retries)
    as [Hfail|(k & soup & Hk & Hok & Hfail)].
  - assert (Hrun : run =
      (inl {| attempts_made := max_retries;
              last_error := match max_retries with
                            | 0 => None
                            | S _ => cause (check (server (max_retries - 1) url))
                            end |},
       {| client := server; requests := max_retries;
          log := exhausted_from url 0 max_retries |})).
    { subst run.
      rewrite (fetch_loop_exhausted BeautifulSoup title_text url max_retries
                 max_retries 0); cbn [start client requests log]; try done.
      intros i _ Hi. by apply Hfail. }
    rewrite Hrun. cbn [fst snd log]. split_and!.
    + done.
    + intros failure [= <-]. done.
    + destruct max_retries as [|n]; [done|]. unfold exhausted_from.
      rewrite total_sleep_app, total_sleep_backoff. cbn. nia.
  - assert (Hrun : run =
      (inr soup, {| client := server; requests := S k;
                    log := backoff_from url 0 (k - 0) ++ [Get url] |})).
    { subst run.
      rewrite (fetch_loop_success BeautifulSoup title_text url max_retries k soup
                 max_retries 0); cbn [start client requests log];
        try done; try lia.
      intros i _ Hi. by apply Hfail. }
    rewrite Hrun. cbn [fst snd log requests]. rewrite Nat.sub_0_r.
    assert (Hsleep : total_sleep (backoff_from url 0 k ++ [Get url]) = k * (k + 1)).
    { rewrite total_sleep_app, total_sleep_backoff. cbn. nia. }
    split_and!.
    + intros soup' [= <-].
      destruct (check_response_inr _ _ Hok) as (response & Hr & Hs & Hl & Hsoup & Ht).
      exists k, response. split_and!; done.
    + done.
    + rewrite Hsleep. nia.
Qed.

End ListingsOutcome.

(** *** search_course *)

Section SearchCourseProps.
Context {Soup : Type}.
Variable BeautifulSoup : string → Soup.
Variable title_text : Soup → option string.
Variable document_of : Soup → Document.
Variable re_compile : string → option (string → bool).


End SearchCourseProps.

End ScraperMore.

